(** * Posts service of flare-stack-blog: a shallow embedding

    Sources embedded here:
    - [src/features/posts/posts.service.ts]  (the service functions)
    - [src/features/posts/data/helper.ts]    ([buildPostWhereClause])
    - [src/features/posts/utils/date.ts]     ([isFuturePublishDate])

    The service is asynchronous, stateful and fallible.  Every [async]
    function becomes a computation in the monad [M]: it takes the world
    (database rows, cache, version counters, workflow instances, clock and
    the trace of outward calls) and returns either a value or a thrown error,
    together with the world it leaves behind. *)

From Stdlib Require Import ZArith NArith List String Ascii Lia Bool.
From Stdlib Require Import DecimalString DecimalN DecimalZ.
From stdpp Require Import base option list gmap strings.

Open Scope string_scope.
Open Scope Z_scope.

(** ** JavaScript strings and numbers *)

Module Js.

(** [String(n)] for an integral number: decimal digits, ["-"] when negative. *)
Definition numberToString (z : Z) : string :=
  NilZero.string_of_int (Z.to_int z).

(** The same for a number known to be non-negative. *)
Definition natToString (n : N) : string :=
  NilZero.string_of_uint (N.to_uint n).

(** [\d] without the unicode flag: the ten ASCII digits. *)
Definition is_digit (c : ascii) : bool :=
  ((48 <=? nat_of_ascii c) && (nat_of_ascii c <=? 57))%nat.

Fixpoint all_digits (s : string) : bool :=
  match s with
  | EmptyString => true
  | String c s' => is_digit c && all_digits s'
  end.

(** The natural number that a run of decimal digits writes; [None] for the
    empty string and for a string with any other character. *)
Definition parseDigits (s : string) : option N :=
  match s with
  | EmptyString => None
  | _ => option_map N.of_uint (NilEmpty.uint_of_string s)
  end.

Definition MAX_SAFE_INTEGER : N := 9007199254740991%N.

(** What is left of [s] after the literal prefix [p], if [s] starts with it. *)
Fixpoint strip_prefix (p s : string) : option string :=
  match p, s with
  | EmptyString, _ => Some s
  | String a p', String b s' =>
      if Ascii.eqb a b then strip_prefix p' s' else None
  | String _ _, EmptyString => None
  end.

Definition startsWith (p s : string) : bool :=
  match strip_prefix p s with Some _ => true | None => false end.

(** [xs.filter((x) => !!x)] on a list of objects-or-undefined. *)
Fixpoint filter_defined {A} (xs : list (option A)) : list A :=
  match xs with
  | nil => nil
  | Some x :: xs' => x :: filter_defined xs'
  | None :: xs' => filter_defined xs'
  end.

(** A string is truthy when it is not empty. *)
Definition truthy (s : string) : bool :=
  match s with EmptyString => false | _ => true end.

(** A JavaScript number is a double.  The numbers [generateSlug] computes
    with are integers from zero upwards and [Infinity]; they are kept as
    naturals, [INFINITY] standing for [Infinity].  [toDouble v] is the double
    nearest to the natural [v], a tie going to the even significand of 53
    bits: the number a sum or a numeral of value [v] comes out as. *)
Definition INFINITY : N := (2 ^ 1024)%N.

Definition toDouble (v : N) : N :=
  if (N.size v <=? 53)%N then v
  else
    let e := (N.size v - 53)%N in
    let significand := N.shiftr v e in
    let rest := N.land v (N.ones e) in
    let half := N.shiftl 1 (e - 1) in
    let roundUp := (half <? rest)%N || ((rest =? half)%N && N.odd significand) in
    N.min (N.shiftl (if roundUp then significand + 1 else significand)%N e)
          INFINITY.

(** The characters that are syntax in the pattern of a regular expression;
    every other character of a pattern matches itself. *)
Definition is_syntax_character (c : ascii) : bool :=
  existsb (Ascii.eqb c) (list_ascii_of_string "^$\.*+?()[]{}|").

Fixpoint regexLiteral (s : string) : bool :=
  match s with
  | EmptyString => true
  | String c s' => negb (is_syntax_character c) && regexLiteral s'
  end.

End Js.

(** ** Data model *)

(** [PostStatus] is a union of string literals; the service only ever
    compares it with ["draft"] and ["published"]. *)
Definition PostStatus := string.

(** The rich document stored in [contentJson]; the service never looks
    inside it. *)
Definition JSONContent := string.

Record Tag := mkTag { tag_id : Z; tag_name : string }.

Record Post := mkPost {
  id : Z;
  title : string;
  slug : string;
  status : PostStatus;
  contentJson : option JSONContent;
  summary : option string;
  publishedAt : option Z;          (* Date | null, as epoch milliseconds *)
  readTimeInMinutes : Z;
  tags : list Tag;
  updatedAt : Z
}.

(** The partial update of [UpdatePostInput.data]: [None] is a field that is
    absent ([undefined]); [contentJson], [summary] and [publishedAt] may also
    be present and [null]. *)
Record PostPatch := mkPatch {
  patch_title : option string;
  patch_slug : option string;
  patch_status : option PostStatus;
  patch_contentJson : option (option JSONContent);
  patch_summary : option (option string);
  patch_publishedAt : option (option Z);
  patch_readTimeInMinutes : option Z
}.

(** The fields hashed by [calculatePostHash]. *)
Record HashInput := mkHashInput {
  h_title : string;
  h_contentJson : option JSONContent;
  h_summary : option string;
  h_tagIds : list Z;
  h_slug : string;
  h_publishedAt : option Z;
  h_readTimeInMinutes : Z
}.

(** Promises handed to [executionCtx.waitUntil]. *)
Inductive Task :=
| DeleteKey (key : string)                       (* CacheService.deleteKey *)
| BumpVersion (ns : string)                      (* CacheService.bumpVersion *)
| DeleteIndex (postId : Z)                       (* SearchService.deleteIndex *)
| PurgeCDN (postSlug : string)                   (* purgePostCDNCache *)
| SyncPostMedia (postId : Z) (content : option JSONContent).

Inductive Promise :=
| Call (t : Task)
| PromiseAll (ts : list Task).

Record PostProcessParams := mkPostProcessParams {
  pp_postId : Z;
  pp_isPublished : bool;
  pp_publishedAt : option string;
  pp_isFuturePost : bool
}.

Record ScheduledParams := mkScheduledParams {
  sp_postId : Z;
  sp_publishedAt : string
}.

(** State of a scheduled-publish workflow instance. *)
Inductive InstanceStatus := Running | Complete | Terminated.

(** Outward calls that change something, in the order they are issued. *)
Inductive Event :=
| RepoUpdate (postId : Z) (patch : PostPatch)
| RepoDelete (postId : Z)
| WaitUntil (p : Promise)
| PostProcessCreate (params : PostProcessParams)
| ScheduledTerminate (instanceId : string)
| ScheduledCreate (instanceId : string) (params : ScheduledParams).

Record World := mkWorld {
  db : list Post;                              (* rows of PostsTable *)
  kv : gmap string string;                     (* cache entries *)
  versions : gmap string N;                    (* per-namespace version counters *)
  scheduled : gmap string InstanceStatus;      (* SCHEDULED_PUBLISH_WORKFLOW *)
  clock : Z;                                   (* Date.now() *)
  trace : list Event                           (* oldest first *)
}.

Definition set_db (f : list Post -> list Post) (w : World) : World :=
  mkWorld (f (db w)) (kv w) (versions w) (scheduled w) (clock w) (trace w).
Definition set_kv (f : gmap string string -> gmap string string) (w : World) : World :=
  mkWorld (db w) (f (kv w)) (versions w) (scheduled w) (clock w) (trace w).
Definition set_versions (f : gmap string N -> gmap string N) (w : World) : World :=
  mkWorld (db w) (kv w) (f (versions w)) (scheduled w) (clock w) (trace w).
Definition set_scheduled
    (f : gmap string InstanceStatus -> gmap string InstanceStatus) (w : World) : World :=
  mkWorld (db w) (kv w) (versions w) (f (scheduled w)) (clock w) (trace w).
Definition emit (e : Event) (w : World) : World :=
  mkWorld (db w) (kv w) (versions w) (scheduled w) (clock w) ((trace w ++ [e])%list).

(** ** The monad of asynchronous, fallible, stateful code *)

Inductive Result (A : Type) :=
| Ok (a : A)
| Throw (msg : string).
Arguments Ok {A} a.
Arguments Throw {A} msg.

Definition M (A : Type) : Type := World -> Result A * World.

Definition ret {A} (a : A) : M A := fun w => (Ok a, w).

Definition throw {A} (msg : string) : M A := fun w => (Throw msg, w).

(** [await c] then continue; a rejection skips the continuation but keeps
    whatever [c] already did to the world. *)
Definition bind {A B} (c : M A) (k : A -> M B) : M B :=
  fun w =>
    match c w with
    | (Ok a, w') => k a w'
    | (Throw msg, w') => (Throw msg, w')
    end.

(** [try { c } catch { }] with an empty handler. *)
Definition try_ignore (c : M unit) : M unit :=
  fun w =>
    match c w with
    | (Ok _, w') => (Ok tt, w')
    | (Throw _, w') => (Ok tt, w')
    end.

Definition modify (f : World -> World) : M unit := fun w => (Ok tt, f w).

Notation "'await' x <- c ; k" := (bind c (fun x => k))
  (at level 10, x name, c at level 100, k at level 200).
Notation "'perform' c ; k" := (bind c (fun _ => k))
  (at level 10, c at level 100, k at level 200).

(** ** Collaborators outside the sources embedded here *)

(** A cache schema: how a cached string is read back ([JSON.parse] followed by
    the zod schema's check) and how a value is written. *)
Record Schema (A : Type) := mkSchema {
  parse : string -> option A;
  stringify : A -> string
}.
Arguments parse {A} _ _.
Arguments stringify {A} _ _.

(** The answer of the cursor listing. *)
Record PostListResponse := mkPostListResponse {
  items : list Post;
  nextCursor : option Z
}.

(** Everything the service calls but does not define: library functions of
    the language, of the database engine, and the helpers of this project
    whose text is not among the sources.  The two laws on dates are the ones
    ECMAScript gives for the time values a [Date] can hold: [Date.parse]
    reads back what [toISOString] writes, and the empty string is no date.
    The law on [paginate] says that paging selects among the rows it is
    given. *)
Class Collaborators := {
  slugify : string -> string;
  calculatePostHash : HashInput -> string;
  trim : string -> string;
  sqlLike : string -> string -> bool;
  toISOString : Z -> string;
  dateParse : string -> option Z;
  dateParse_toISOString : forall t, dateParse (toISOString t) = Some t;
  dateParse_empty : dateParse "" = None;
  getRelatedPostIds : list Post -> string -> Z -> list Z;
  getPublicPostsByIds : list Post -> Z -> list Z -> list Post;
  paginate : option Z -> option Z -> option string -> list Post -> PostListResponse;
  paginate_items : forall cursor limit tagName rows p,
      In p (items (paginate cursor limit tagName rows)) -> In p rows;
  idsSchema : Schema (list Z);                    (* z.array(z.number()) *)
  PostListResponseSchema : Schema PostListResponse
}.

(** The JavaScript engine as [generateSlug] uses it.  [newRegExp] is
    [new RegExp(pattern)], which throws on a pattern that is not well formed;
    [matchGroup1 s regex] is [s.match(regex)] followed by [match[1]], [None]
    when [s] does not match; [parseInt] is [parseInt(_, 10)], where [None]
    stands for [NaN] and for a negative number alike, neither of which is
    greater than a number from zero upwards; [largeNumberToString] is
    [String(x)] for a double above [2^53], where the engine prints the
    shortest numeral that reads back as [x], and for [Infinity].  The laws
    are ECMAScript's: a pattern [^text-(\d+)$] whose [text] has no syntax
    character is well formed and matches exactly the strings made of [text],
    a hyphen and one or more digits, the digits being the first group; and
    [parseInt] of a run of digits that writes a number of at most twenty
    digits is the double nearest to that number (past twenty significant
    digits the engine may read the rest as zeros). *)
Class JsEngine := {
  RegExp : Type;
  newRegExp : string -> Result RegExp;
  matchGroup1 : string -> RegExp -> option string;
  parseInt : string -> option N;
  largeNumberToString : N -> string;
  newRegExp_literal : forall text : string,
      Js.regexLiteral text = true ->
      exists regex : RegExp,
        newRegExp ("^" ++ text ++ "-(\d+)$") = Ok regex /\
        forall s : string,
          matchGroup1 s regex
          = match Js.strip_prefix (text ++ "-") s with
            | Some digits =>
                if Js.truthy digits && Js.all_digits digits then Some digits
                else None
            | None => None
            end;
  parseInt_digits : forall (digits : string) (n : N),
      Js.parseDigits digits = Some n -> (n < 10 ^ 20)%N ->
      parseInt digits = Some (Js.toDouble n)
}.

(** Modelled from the spec: [getCurrentMinuteEnd] of [lib/utils] is not among
    the sources.  The spec has "now" rounded to the end of the current
    minute: the last millisecond of the minute that contains [now]. *)
Definition getCurrentMinuteEnd (now : Z) : Z :=
  60000 * (now / 60000) + 59999.

(** Modelled from the spec: the cache-key builders of [posts.schema] are not
    among the sources.  The spec gives the formats
    [posts:list:<version>:<limit>:<cursor>:<tag>],
    [posts:detail:<version>:<slug>], [posts:related:<slug>:<limit>] and
    [posts:sync-hash:<id>]. *)
Module POSTS_CACHE_KEYS.

Definition list (version : N) (limit cursor : Z) (tagName : string) : string :=
  "posts:list:" ++ Js.natToString version ++ ":" ++ Js.numberToString limit
    ++ ":" ++ Js.numberToString cursor ++ ":" ++ tagName.

Definition detail (version : N) (postSlug : string) : string :=
  "posts:detail:" ++ Js.natToString version ++ ":" ++ postSlug.

Definition related (postSlug : string) (limit : Z) : string :=
  "posts:related:" ++ postSlug ++ ":" ++ Js.numberToString limit.

Definition syncHash (postId : Z) : string :=
  "posts:sync-hash:" ++ Js.numberToString postId.

End POSTS_CACHE_KEYS.

(** ** [features/posts/data/helper.ts] *)

(** One drizzle condition on a row of [PostsTable]. *)
Inductive Cond :=
| EqStatus (s : PostStatus)           (* eq(PostsTable.status, s) *)
| LtePublishedAt (t : Z)              (* lte(PostsTable.publishedAt, t) *)
| LikeTitle (pattern : string).       (* like(PostsTable.title, pattern) *)

Record WhereOptions := mkWhereOptions {
  opt_status : option PostStatus;
  opt_publicOnly : option bool;
  opt_search : option string
}.

Definition publicOnlyOptions (publicOnly : bool) : WhereOptions :=
  mkWhereOptions None (Some publicOnly) None.

Section Helper.
Context `{Collaborators}.

(** [buildPostWhereClause]; [now] is the clock read by
    [getCurrentMinuteEnd()].  The result is [and(...whereClauses)], or
    [undefined] when nothing was pushed. *)
Definition buildPostWhereClause (now : Z) (options : WhereOptions)
  : option (list Cond) :=
  let whereClauses : list Cond := [] in
  let whereClauses :=
    match opt_status options with
    | Some s => if Js.truthy s then (whereClauses ++ [EqStatus s])%list else whereClauses
    | None => whereClauses
    end in
  let whereClauses :=
    match opt_publicOnly options with
    | Some true =>
        (whereClauses ++ [EqStatus "published";
                          LtePublishedAt (getCurrentMinuteEnd now)])%list
    | _ => whereClauses
    end in
  let whereClauses :=
    match opt_search options with
    | Some search =>
        if Js.truthy search then
          let searchTerm := trim search in
          if Js.truthy searchTerm
          then (whereClauses ++ [LikeTitle ("%" ++ searchTerm ++ "%")%string])%list
          else whereClauses
        else whereClauses
    | None => whereClauses
    end in
  if (0 <? length whereClauses)%nat then Some whereClauses else None.

(** How the database reads a condition on a row: a comparison with [NULL]
    is not true. *)
Definition eval_cond (c : Cond) (p : Post) : bool :=
  match c with
  | EqStatus s => String.eqb (status p) s
  | LtePublishedAt t =>
      match publishedAt p with
      | Some d => d <=? t
      | None => false
      end
  | LikeTitle pattern => sqlLike (title p) pattern
  end.

Definition eval_where (clause : option (list Cond)) (p : Post) : bool :=
  match clause with
  | Some cs => forallb (fun c => eval_cond c p) cs
  | None => true
  end.

End Helper.

(** ** [features/posts/utils/date.ts] *)

Section DateUtils.
Context `{Collaborators}.

(** [isFuturePublishDate]; [now] is [Date.now()].  [new Date(s).getTime()]
    is [NaN] exactly when [s] does not parse. *)
Definition isFuturePublishDate (publishedAtISO : string)
    (_clientToday : option string) (now : Z) : bool :=
  match dateParse publishedAtISO with
  | None => false
  | Some publishDate => now <? publishDate
  end.

End DateUtils.

(** ** [features/cache/cache.service] *)

Module CacheService.

(** Modelled from the spec: [getVersion] is not among the sources.  The spec
    has it return the current integer version of a namespace, creating it at
    1 if absent. *)
Definition getVersion (ns : string) : M N :=
  fun w =>
    match versions w !! ns with
    | Some v => (Ok v, w)
    | None => (Ok 1%N, set_versions (insert ns 1%N) w)
    end.

(** Modelled from the spec: [bumpVersion] is not among the sources.  The spec
    has it increment the counter atomically; a counter that was never read
    stands at its initial value 1. *)
Definition bumpVersion (ns : string) : M unit :=
  modify (set_versions (fun vs => <[ns := (default 1%N (vs !! ns) + 1)%N]> vs)).

(** Modelled from the spec: [getRaw] is not among the sources.  The spec has
    [getRaw(ctx, key) -> string|null]. *)
Definition getRaw (key : string) : M (option string) :=
  fun w => (Ok (kv w !! key), w).

(** Modelled from the spec: [deleteKey] is not among the sources. *)
Definition deleteKey (key : string) : M unit :=
  modify (set_kv (delete key)).

(** The write of a miss. *)
Definition put (key value : string) : M unit :=
  modify (set_kv (insert key value)).

(** Modelled from the spec: the cache-aside [get] is not among the sources.
    The spec: look up [key]; on a hit, validate against the schema and return;
    on a miss, invoke the fetcher, store its result and return it; a stored
    payload that fails validation is treated as a miss.  Entries expire on
    their own after [ttl]: an expired entry is an absent one, and absence is
    covered by taking the world arbitrary. *)
Definition get {A} (key : string) (schema : Schema A) (fetcher : M A)
    (ttl : string) : M A :=
  fun w =>
    match kv w !! key ≫= parse schema with
    | Some a => (Ok a, w)
    | None =>
        (await a <- fetcher;
         perform put key (stringify schema a);
         ret a) w
    end.

End CacheService.

(** ** [features/posts/data/posts.data] *)

Module PostRepo.

(** [excludeId] of the slug lookups: the row of the post being edited. *)
Definition excluded (excludeId : option Z) (p : Post) : bool :=
  match excludeId with
  | Some e => id p =? e
  | None => false
  end.

Definition apply_patch (patch : PostPatch) (p : Post) : Post :=
  mkPost (id p)
         (default (title p) (patch_title patch))
         (default (slug p) (patch_slug patch))
         (default (status p) (patch_status patch))
         (default (contentJson p) (patch_contentJson patch))
         (default (summary p) (patch_summary patch))
         (default (publishedAt p) (patch_publishedAt patch))
         (default (readTimeInMinutes p) (patch_readTimeInMinutes patch))
         (tags p)
         (updatedAt p).

(** Modelled from the spec: [findPostById] is not among the sources. *)
Definition findPostById (postId : Z) : M (option Post) :=
  fun w => (Ok (List.find (fun p => id p =? postId) (db w)), w).

(** Modelled from the spec: [updatePost] is not among the sources.  It applies
    the partial update to the row and answers the updated row, or
    [undefined] when there is no such row. *)
Definition updatePost (postId : Z) (patch : PostPatch) : M (option Post) :=
  fun w =>
    let rows :=
      List.map (fun p => if id p =? postId then apply_patch patch p else p) (db w) in
    (Ok (List.find (fun p => id p =? postId) rows),
     emit (RepoUpdate postId patch) (set_db (fun _ => rows) w)).

(** Modelled from the spec: [deletePost] is not among the sources. *)
Definition deletePost (postId : Z) : M unit :=
  modify (fun w =>
    emit (RepoDelete postId)
         (set_db (List.filter (fun p => negb (id p =? postId))) w)).

(** Modelled from the spec: [slugExists] is not among the sources.  Some row
    other than [excludeId] carries exactly this slug. *)
Definition slugExists (s : string) (excludeId : option Z) : M bool :=
  fun w =>
    (Ok (existsb (fun p => String.eqb (slug p) s && negb (excluded excludeId p))
                 (db w)), w).

(** Modelled from the spec: [findSimilarSlugs] is not among the sources.  The
    slugs of the rows other than [excludeId] that start with [baseSlug-]
    (the caller's comment has the query as [LIKE 'baseSlug-%']). *)
Definition findSimilarSlugs (baseSlug : string) (excludeId : option Z)
  : M (list string) :=
  fun w =>
    (Ok (List.map slug
           (List.filter
              (fun p => Js.startsWith (baseSlug ++ "-") (slug p)
                        && negb (excluded excludeId p))
              (db w))), w).

Section Queries.
Context `{Collaborators}.

(** Modelled from the spec: the repository's [getPostsCursor] is not among
    the sources.  It pages over the rows that pass the where clause of
    [buildPostWhereClause]. *)
Definition getPostsCursor (cursor limit : option Z) (publicOnly : bool)
    (tagName : option string) : M PostListResponse :=
  fun w =>
    let clause := buildPostWhereClause (clock w) (publicOnlyOptions publicOnly) in
    (Ok (paginate cursor limit tagName
           (List.filter (eval_where clause) (db w))), w).

(** Modelled from the spec: the repository's [findPostBySlug] is not among
    the sources.  The row with this slug, if it passes the where clause. *)
Definition findPostBySlug (s : string) (publicOnly : bool) : M (option Post) :=
  fun w =>
    let clause := buildPostWhereClause (clock w) (publicOnlyOptions publicOnly) in
    (Ok (List.find (fun p => String.eqb (slug p) s && eval_where clause p) (db w)),
     w).

End Queries.

End PostRepo.

(** ** The workflow platform *)

(** The platform's named workflow instances, as the spec describes them:
    create, get and terminate.  Looking up an instance that does not exist
    throws, and so does terminating one that has already finished. *)
Module POST_PROCESS_WORKFLOW.

Definition create (params : PostProcessParams) : M unit :=
  modify (emit (PostProcessCreate params)).

End POST_PROCESS_WORKFLOW.

Module SCHEDULED_PUBLISH_WORKFLOW.

(** The handle answered by [get] is the instance's id. *)
Definition get (instanceId : string) : M string :=
  fun w =>
    match scheduled w !! instanceId with
    | Some _ => (Ok instanceId, w)
    | None => (Throw "instance.not_found", w)
    end.

Definition terminate (instanceId : string) : M unit :=
  fun w =>
    match scheduled w !! instanceId with
    | Some Running =>
        (Ok tt, emit (ScheduledTerminate instanceId)
                     (set_scheduled (insert instanceId Terminated) w))
    | _ => (Throw "instance.not_running", w)
    end.

Definition create (instanceId : string) (params : ScheduledParams) : M unit :=
  modify (fun w =>
    emit (ScheduledCreate instanceId params)
         (set_scheduled (insert instanceId Running) w)).

End SCHEDULED_PUBLISH_WORKFLOW.

(** ** [features/posts/posts.service.ts] *)

Record GetPostsCursorInput := mkGetPostsCursorInput {
  gpc_cursor : option Z;
  gpc_limit : option Z;
  gpc_tagName : option string
}.

Record FindRelatedPostsInput := mkFindRelatedPostsInput {
  frp_slug : string;
  frp_limit : Z
}.

Record GenerateSlugInput := mkGenerateSlugInput {
  gs_title : string;
  gs_excludeId : option Z
}.

Record UpdatePostInput := mkUpdatePostInput {
  up_id : Z;
  up_data : PostPatch
}.

Record StartPostProcessInput := mkStartPostProcessInput {
  spp_id : Z;
  spp_status : PostStatus;
  spp_clientToday : option string
}.

(** [{ ...post, isSynced, hasPublicCache }] *)
Record PostWithSync := mkPostWithSync {
  post_of : Post;
  isSynced : bool;
  hasPublicCache : bool
}.

(** [Date.now()] *)
Definition Date_now : M Z := fun w => (Ok (clock w), w).

(** [executionCtx.waitUntil(p)] *)
Definition waitUntil (p : Promise) : M unit := modify (emit (WaitUntil p)).

Section Service.
Context `{Collaborators} `{JsEngine}.

(** One iteration of the loop of [generateSlug] over [similarSlugs]:
    [slug.match(regex)], [parseInt(match[1], 10)] and the comparison. *)
Definition maxSuffix_step (regex : RegExp) (maxSuffix : N) (s : string) : N :=
  match matchGroup1 s regex with
  | Some group1 =>
      match parseInt group1 with
      | Some number => if (maxSuffix <? number)%N then number else maxSuffix
      | None => maxSuffix
      end
  | None => maxSuffix
  end.

(** [String(x)] for a double [x]: up to [2^53] every natural is a double and
    prints as its decimal digits. *)
Definition numberText (x : N) : string :=
  if (x <=? Js.MAX_SAFE_INTEGER + 1)%N then Js.natToString x
  else largeNumberToString x.

Definition getPostsCursor (data : GetPostsCursorInput) : M PostListResponse :=
  let fetcher :=
    PostRepo.getPostsCursor (gpc_cursor data) (gpc_limit data) true
                            (gpc_tagName data) in
  await version <- CacheService.getVersion "posts:list";
  let cacheKey :=
    POSTS_CACHE_KEYS.list version
      (default 10 (gpc_limit data))
      (default 0 (gpc_cursor data))
      (default "all" (gpc_tagName data)) in
  CacheService.get cacheKey PostListResponseSchema fetcher "7d".

Definition getRelatedPosts (data : FindRelatedPostsInput) : M (list Post) :=
  let fetcher : M (list Z) :=
    fun w => (Ok (getRelatedPostIds (db w) (frp_slug data) (frp_limit data)), w) in
  let cacheKey := POSTS_CACHE_KEYS.related (frp_slug data) (frp_limit data) in
  await cachedIds <- CacheService.get cacheKey idsSchema fetcher "7d";
  if (length cachedIds =? 0)%nat then ret []
  else
    await posts <-
      (fun w => (Ok (getPublicPostsByIds (db w) (clock w) cachedIds), w));
    let orderedPosts :=
      Js.filter_defined
        (List.map (fun i => List.find (fun p => id p =? i) posts) cachedIds) in
    ret orderedPosts.

Definition generateSlug (data : GenerateSlugInput) : M string :=
  let baseSlug := slugify (gs_title data) in
  await exactMatch <- PostRepo.slugExists baseSlug (gs_excludeId data);
  if negb exactMatch then ret baseSlug
  else
    await similarSlugs <- PostRepo.findSimilarSlugs baseSlug (gs_excludeId data);
    await regex <- (fun w => (newRegExp ("^" ++ baseSlug ++ "-(\d+)$"), w));
    let maxSuffix := fold_left (maxSuffix_step regex) similarSlugs 0%N in
    ret (baseSlug ++ "-" ++ numberText (Js.toDouble (maxSuffix + 1))).

Definition hashInputOf (post : Post) : HashInput :=
  mkHashInput (title post) (contentJson post) (summary post)
              (List.map tag_id (tags post)) (slug post) (publishedAt post)
              (readTimeInMinutes post).

Definition findPostById (postId : Z) : M (option PostWithSync) :=
  await post <- PostRepo.findPostById postId;
  match post with
  | None => ret None
  | Some post =>
      await kvHash <- CacheService.getRaw (POSTS_CACHE_KEYS.syncHash (id post));
      let hasPublicCache := bool_decide (kvHash <> None) in
      let isSynced :=
        if String.eqb (status post) "draft" then negb hasPublicCache
        else
          let dbHash := calculatePostHash (hashInputOf post) in
          bool_decide (Some dbHash = kvHash) in
      ret (Some (mkPostWithSync post isSynced hasPublicCache))
  end.

Definition updatePost (data : UpdatePostInput) : M (option PostWithSync) :=
  await updatedPost <- PostRepo.updatePost (up_id data) (up_data data);
  match updatedPost with
  | None => throw "Post not found"
  | Some updatedPost =>
      perform
        match patch_contentJson (up_data data) with
        | Some content => waitUntil (Call (SyncPostMedia (id updatedPost) content))
        | None => ret tt
        end;
      findPostById (id updatedPost)
  end.

Definition deletePost (postId : Z) : M unit :=
  await post <- PostRepo.findPostById postId;
  match post with
  | None => ret tt
  | Some post =>
      perform PostRepo.deletePost postId;
      if String.eqb (status post) "published" then
        await version <- CacheService.getVersion "posts:detail";
        let tasks :=
          [ DeleteKey (POSTS_CACHE_KEYS.detail version (slug post));
            BumpVersion "posts:list";
            DeleteIndex postId;
            PurgeCDN (slug post);
            DeleteKey (POSTS_CACHE_KEYS.syncHash postId) ] in
        waitUntil (PromiseAll tasks)
      else
        waitUntil (Call (DeleteKey (POSTS_CACHE_KEYS.syncHash postId)))
  end.

Definition scheduledIdOf (postId : Z) : string :=
  "post-" ++ Js.numberToString postId ++ "-scheduled".

Definition startPostProcessWorkflow (data : StartPostProcessInput) : M unit :=
  await publishedAtISO <-
    (if String.eqb (spp_status data) "published" then
       await post <- PostRepo.findPostById (spp_id data);
       match post with
       | Some post =>
           match publishedAt post with
           | None =>
               await clk <- Date_now;
               let now := getCurrentMinuteEnd clk in
               perform PostRepo.updatePost (id post)
                 (mkPatch None None None None None (Some (Some now)) None);
               ret (Some (toISOString now))
           | Some d => ret (Some (toISOString d))
           end
       | None => ret None
       end
     else ret None);
  await isFuture <-
    match publishedAtISO with
    | Some iso =>
        if Js.truthy iso then
          await clk <- Date_now;
          ret (isFuturePublishDate iso (spp_clientToday data) clk)
        else ret false
    | None => ret false
    end;
  perform POST_PROCESS_WORKFLOW.create
    (mkPostProcessParams (spp_id data)
       (String.eqb (spp_status data) "published") publishedAtISO isFuture);
  let scheduledId := scheduledIdOf (spp_id data) in
  perform try_ignore
    (await oldInstance <- SCHEDULED_PUBLISH_WORKFLOW.get scheduledId;
     SCHEDULED_PUBLISH_WORKFLOW.terminate oldInstance);
  match publishedAtISO with
  | Some iso =>
      if String.eqb (spp_status data) "published" && Js.truthy iso then
        await clk <- Date_now;
        match dateParse iso with
        | Some publishDate =>
            if clk <? publishDate
            then SCHEDULED_PUBLISH_WORKFLOW.create scheduledId
                   (mkScheduledParams (spp_id data) iso)
            else ret tt
        | None => ret tt
        end
      else ret tt
  | None => ret tt
  end.

End Service.

(** ** What a call is observed to do *)

(** What a call added to the trace. *)
Definition newEvents (before after : World) : list Event :=
  skipn (length (trace before)) (trace after).

(** A media resynchronisation for [postId] was handed to [waitUntil]. *)
Definition mediaSyncScheduled (before after : World) (postId : Z) : Prop :=
  exists content,
    In (WaitUntil (Call (SyncPostMedia postId content))) (newEvents before after).

(** The stored content of [postId] is not what it was. *)
Definition contentChanged (before after : World) (postId : Z) : Prop :=
  option_map contentJson (List.find (fun p => id p =? postId) (db after))
  <> option_map contentJson (List.find (fun p => id p =? postId) (db before)).

(** The publish time [startPostProcessWorkflow] works with: none unless the
    requested status is ["published"] and the post exists; then the post's own
    [publishedAt], or the end of the current minute when it has none. *)
Definition effectivePublishedAt (w : World) (data : StartPostProcessInput)
  : option Z :=
  if String.eqb (spp_status data) "published" then
    match List.find (fun p => id p =? spp_id data) (db w) with
    | Some post => Some (default (getCurrentMinuteEnd (clock w)) (publishedAt post))
    | None => None
    end
  else None.

Definition stampPatch (now : Z) : PostPatch :=
  mkPatch None None None None None (Some (Some now)) None.


(** The three steps of [startPostProcessWorkflow], as changes of the world. *)

(** Stamping: only for a request to publish a post that has no [publishedAt]. *)
Definition stamped (data : StartPostProcessInput) (w : World) : World :=
  if String.eqb (spp_status data) "published" then
    match List.find (fun p => id p =? spp_id data) (db w) with
    | Some post =>
        match publishedAt post with
        | None =>
            let patch := stampPatch (getCurrentMinuteEnd (clock w)) in
            emit (RepoUpdate (id post) patch)
              (set_db (List.map (fun p => if id p =? id post
                                          then PostRepo.apply_patch patch p
                                          else p)) w)
        | Some _ => w
        end
    | None => w
    end
  else w.

(** Cancelling: a running instance is terminated; a missing or finished one
    makes the lookup or the termination throw, which is swallowed. *)
Definition cancelled (instanceId : string) (w : World) : World :=
  match scheduled w !! instanceId with
  | Some Running =>
      emit (ScheduledTerminate instanceId)
           (set_scheduled (insert instanceId Terminated) w)
  | _ => w
  end.

Section Steps.
Context `{Collaborators}.

Definition launched (data : StartPostProcessInput) (eff : option Z) (now : Z)
    (w : World) : World :=
  emit (PostProcessCreate
          (mkPostProcessParams (spp_id data)
             (String.eqb (spp_status data) "published")
             (option_map toISOString eff)
             (match eff with Some t => now <? t | None => false end))) w.

Definition rescheduled (data : StartPostProcessInput) (eff : option Z) (now : Z)
    (w : World) : World :=
  match eff with
  | Some t =>
      if now <? t then
        emit (ScheduledCreate (scheduledIdOf (spp_id data))
                (mkScheduledParams (spp_id data) (toISOString t)))
             (set_scheduled (insert (scheduledIdOf (spp_id data)) Running) w)
      else w
  | None => w
  end.

End Steps.


(** ** A concrete set of collaborators, to run the model on examples *)

Module Demo.

Fixpoint hyphenate (s : string) : string :=
  match s with
  | EmptyString => EmptyString
  | String c s' =>
      String (if Ascii.eqb c " " then "-"%char else c) (hyphenate s')
  end.

Definition hash (h : HashInput) : string :=
  h_title h ++ "#" ++ h_slug h ++ "#" ++ default "" (h_contentJson h)
    ++ "#" ++ default "" (h_summary h).

Definition parseNumber (s : string) : option Z :=
  option_map Z.of_int (NilZero.int_of_string s).

Fixpoint split_commas (s : string) : list string :=
  match s with
  | EmptyString => [EmptyString]
  | String c s' =>
      if Ascii.eqb c "," then EmptyString :: split_commas s'
      else match split_commas s' with
           | h :: t => String c h :: t
           | [] => [String c EmptyString]
           end
  end.

Definition parseIds (s : string) : option (list Z) :=
  match s with
  | EmptyString => Some []
  | _ => mapM parseNumber (split_commas s)
  end.

Definition stringifyIds (ids : list Z) : string :=
  String.concat "," (List.map Js.numberToString ids).

Definition isPublic (now : Z) (p : Post) : bool :=
  String.eqb (status p) "published"
  && match publishedAt p with
     | Some d => d <=? getCurrentMinuteEnd now
     | None => false
     end.

Definition publicPostsByIds (rows : list Post) (now : Z) (ids : list Z) : list Post :=
  List.filter (fun p => isPublic now p && existsb (Z.eqb (id p)) ids) rows.

Definition allRows (_ _ : option Z) (_ : option string) (rows : list Post)
  : PostListResponse :=
  mkPostListResponse rows None.

Definition collaborators : Collaborators.
Proof.
  refine {|
    slugify := hyphenate;
    calculatePostHash := hash;
    trim := fun s => s;
    sqlLike := fun value pattern => String.eqb pattern ("%" ++ value ++ "%");
    toISOString := Js.numberToString;
    dateParse := parseNumber;
    dateParse_toISOString := _;
    dateParse_empty := eq_refl;
    getRelatedPostIds := fun rows _ _ => List.map id rows;
    getPublicPostsByIds := publicPostsByIds;
    paginate := allRows;
    paginate_items := fun _ _ _ _ _ Hin => Hin;
    idsSchema := mkSchema _ parseIds stringifyIds;
    PostListResponseSchema := mkSchema _ (fun _ => None) (fun _ => "")
  |}.
  intros t. unfold parseNumber, Js.numberToString.
  rewrite NilZero.isi.
  - simpl. f_equal. apply DecimalZ.of_to.
  - destruct t as [|p|p]; simpl; try discriminate.
    intros [= E]. exact (DecimalPos.Unsigned.to_uint_nonnil p E).
  - destruct t as [|p|p]; simpl; try discriminate.
    intros [= E]. exact (DecimalPos.Unsigned.to_uint_nonnil p E).
Defined.

Definition post (i : Z) (s : string) (st : PostStatus) (at_ : option Z) : Post :=
  mkPost i s s st (Some "doc") None at_ 1 [] 0.

Definition world (rows : list Post) (cache : list (string * string)) (now : Z)
  : World :=
  mkWorld rows (list_to_map cache) ∅ ∅ now [].

End Demo.


(** ** Facts about strings and decimal numerals *)

Section JsFacts.

Lemma append_cons (c : ascii) (s r : string) :
  String c s ++ r = String c (s ++ r).
Proof. reflexivity. Qed.

Lemma append_nil (r : string) : "" ++ r = r.
Proof. reflexivity. Qed.

Lemma uint_digits (d : Decimal.uint) :
  Js.all_digits (NilEmpty.string_of_uint d) = true.
Proof. induction d; simpl; auto. Qed.

Lemma natToString_digits (n : N) : Js.all_digits (Js.natToString n) = true.
Proof.
  unfold Js.natToString, NilZero.string_of_uint.
  destruct (N.to_uint n) eqn:E; try (rewrite <- E; apply uint_digits).
  reflexivity.
Qed.

Lemma natToString_inj (n m : N) : Js.natToString n = Js.natToString m -> n = m.
Proof.
  unfold Js.natToString. intros E.
  apply DecimalN.Unsigned.to_uint_inj.
  assert (Hn : forall k, N.to_uint k <> Decimal.Nil).
  { intros k Hk. pose proof (DecimalN.Unsigned.to_of (N.to_uint k)) as T.
    rewrite DecimalN.Unsigned.of_to in T.
    destruct k; simpl in Hk; try discriminate.
    unfold N.to_uint, Pos.to_uint in Hk.
    pose proof (DecimalPos.Unsigned.to_uint_nonnil p). contradiction. }
  pose proof (NilZero.usu _ (Hn n)) as A.
  pose proof (NilZero.usu _ (Hn m)) as B.
  rewrite E in A. rewrite A in B. congruence.
Qed.

(** A run of digits ends at the first colon. *)
Lemma digits_before_colon (a a' r r' : string) :
  Js.all_digits a = true -> Js.all_digits a' = true ->
  a ++ ":" ++ r = a' ++ ":" ++ r' -> a = a'.
Proof.
  revert a'. induction a as [|c a IH]; intros [|c' a'] Ha Ha' E; simpl in *.
  - reflexivity.
  - injection E as Ec _. subst c'. discriminate.
  - injection E as Ec _. subst c. discriminate.
  - injection E as Ec E. subst c'.
    apply andb_prop in Ha as [_ Ha]. apply andb_prop in Ha' as [_ Ha'].
    f_equal. eauto.
Qed.

Lemma strip_prefix_app (p s : string) : Js.strip_prefix p (p ++ s) = Some s.
Proof.
  induction p as [|c p IH]; [reflexivity|].
  rewrite append_cons. simpl. rewrite Ascii.eqb_refl. exact IH.
Qed.

Lemma strip_prefix_Some (p s r : string) :
  Js.strip_prefix p s = Some r -> s = p ++ r.
Proof.
  revert s. induction p as [|c p IH]; intros s E; simpl in *.
  - destruct s; injection E as <-; reflexivity.
  - destruct s as [|b s]; [discriminate|].
    destruct (Ascii.eqb_spec c b) as [->|]; [|discriminate].
    rewrite append_cons. f_equal. apply IH, E.
Qed.

End JsFacts.

(** ** A concrete engine, to run [generateSlug] on examples *)

Module DemoEngine.

Definition suffixPattern : string := "-(\d+)$".

(** A pattern [text-(\d+)$] against a string, the text read as it stands. *)
Fixpoint matchText (pattern s : string) : option string :=
  if String.eqb pattern suffixPattern then
    match s with
    | String c digits =>
        if Ascii.eqb "-" c
        then if Js.truthy digits && Js.all_digits digits then Some digits else None
        else None
    | EmptyString => None
    end
  else
    match pattern, s with
    | String a pattern', String b s' =>
        if Ascii.eqb a b then matchText pattern' s' else None
    | _, _ => None
    end.

Definition group1 (s pattern : string) : option string :=
  match pattern with
  | String c body => if Ascii.eqb c "^" then matchText body s else None
  | EmptyString => None
  end.

Lemma matchText_eq (pattern s : string) :
  matchText pattern s
  = if String.eqb pattern suffixPattern then
      match s with
      | String c digits =>
          if Ascii.eqb "-" c
          then if Js.truthy digits && Js.all_digits digits then Some digits else None
          else None
      | EmptyString => None
      end
    else
      match pattern, s with
      | String a pattern', String b s' =>
          if Ascii.eqb a b then matchText pattern' s' else None
      | _, _ => None
      end.
Proof. destruct pattern; reflexivity. Qed.

Lemma length_append (a b : string) :
  String.length (a ++ b) = (String.length a + String.length b)%nat.
Proof.
  induction a as [|x a IH]; [reflexivity|].
  rewrite append_cons. cbn [String.length]. rewrite IH. reflexivity.
Qed.

Lemma longer_than_suffixPattern (a : ascii) (text : string) :
  String.eqb (String a (text ++ suffixPattern)) suffixPattern = false.
Proof.
  apply String.eqb_neq. intros E.
  apply (f_equal String.length) in E.
  cbn [String.length] in E. rewrite length_append in E.
  cbn in E. lia.
Qed.

Lemma matchText_literal (text s : string) :
  matchText (text ++ suffixPattern) s
  = match Js.strip_prefix (text ++ "-") s with
    | Some digits =>
        if Js.truthy digits && Js.all_digits digits then Some digits else None
    | None => None
    end.
Proof.
  revert s. induction text as [|a text IH]; intros s.
  - rewrite !append_nil, matchText_eq, String.eqb_refl.
    destruct s as [|c digits]; [reflexivity|].
    cbn [Js.strip_prefix]. destruct (Ascii.eqb "-" c); reflexivity.
  - rewrite !append_cons, matchText_eq, longer_than_suffixPattern.
    destruct s as [|b s]; [reflexivity|].
    cbn [Js.strip_prefix]. destruct (Ascii.eqb a b); [apply IH | reflexivity].
Qed.

Definition engine : JsEngine.
Proof.
  refine {|
    RegExp := string;
    newRegExp := fun pattern => Ok pattern;
    matchGroup1 := group1;
    parseInt := fun s => option_map Js.toDouble (Js.parseDigits s);
    largeNumberToString := Js.natToString;
    newRegExp_literal := _;
    parseInt_digits := _
  |}.
  - intros text _. exists ("^" ++ text ++ suffixPattern).
    split; [reflexivity|]. intros s.
    rewrite append_cons, append_nil. cbn [group1 Ascii.eqb Bool.eqb].
    apply matchText_literal.
  - intros digits n E _. rewrite E. reflexivity.
Defined.

End DemoEngine.

Example generateSlug_title_5 :
  fst (generateSlug (H := Demo.collaborators) (H0 := DemoEngine.engine)
         (mkGenerateSlugInput "title" None)
         (Demo.world [Demo.post 1 "title" "draft" None;
                      Demo.post 2 "title-5" "draft" None] [] 0))
  = Ok "title-6".
Proof. vm_compute. reflexivity. Qed.

Example generateSlug_first_collision :
  fst (generateSlug (H := Demo.collaborators) (H0 := DemoEngine.engine)
         (mkGenerateSlugInput "title" None)
         (Demo.world [Demo.post 1 "title" "draft" None] [] 0))
  = Ok "title-1".
Proof. vm_compute. reflexivity. Qed.

Example generateSlug_own_slug :
  fst (generateSlug (H := Demo.collaborators) (H0 := DemoEngine.engine)
         (mkGenerateSlugInput "title" (Some 1))
         (Demo.world [Demo.post 1 "title" "draft" None] [] 0))
  = Ok "title".
Proof. vm_compute. reflexivity. Qed.

Example getRelatedPosts_5_2_9 :
  fst (getRelatedPosts (H := Demo.collaborators) (mkFindRelatedPostsInput "a" 3)
         (Demo.world [Demo.post 2 "two" "published" (Some 0);
                      Demo.post 5 "five" "published" (Some 0);
                      Demo.post 9 "nine" "draft" None]
                     [("posts:related:a:3", "5,2,9")] 0))
  = Ok [Demo.post 5 "five" "published" (Some 0);
        Demo.post 2 "two" "published" (Some 0)].
Proof. vm_compute. reflexivity. Qed.

(** ** Slug generation *)

(** What the loop of [generateSlug] finds, read off the slugs as text:
    [numberedSuffix baseSlug s] is the number [n] when [s] is [baseSlug], a
    hyphen and a run of digits that writes [n]; [maxSuffixOf] is the largest
    of these numbers over the rows other than [excludeId], zero when there is
    none; [slugTaken] says whether such a row carries the slug itself. *)
Definition numberedSuffix (baseSlug s : string) : option N :=
  Js.strip_prefix (baseSlug ++ "-") s ≫= Js.parseDigits.

Definition largest (baseSlug : string) (acc : N) (s : string) : N :=
  match numberedSuffix baseSlug s with
  | Some n => if (acc <? n)%N then n else acc
  | None => acc
  end.

Definition similarSlugsOf (baseSlug : string) (excludeId : option Z)
    (rows : list Post) : list string :=
  List.map slug
    (List.filter
       (fun p => Js.startsWith (baseSlug ++ "-") (slug p)
                 && negb (PostRepo.excluded excludeId p)) rows).

Definition maxSuffixOf (baseSlug : string) (excludeId : option Z)
    (rows : list Post) : N :=
  fold_left (largest baseSlug) (similarSlugsOf baseSlug excludeId rows) 0%N.

Definition slugTaken (s : string) (excludeId : option Z) (rows : list Post) : bool :=
  existsb (fun p => String.eqb (slug p) s && negb (PostRepo.excluded excludeId p)) rows.

Section DigitFacts.

Lemma uint_of_char_digit (c : ascii) (d : Decimal.uint) :
  DecimalString.uint_of_char c (Some d) <> None <-> Js.is_digit c = true.
Proof.
  destruct c as [[] [] [] [] [] [] [] []]; vm_compute; split; intros E;
    first [reflexivity | discriminate | (exfalso; apply E; reflexivity)
          | (intros E'; discriminate E')].
Qed.

Lemma uint_of_string_digits (s : string) :
  NilEmpty.uint_of_string s <> None <-> Js.all_digits s = true.
Proof.
  induction s as [|c s IH]; simpl.
  - split; [reflexivity | discriminate].
  - destruct (NilEmpty.uint_of_string s) as [d|].
    + rewrite uint_of_char_digit, andb_true_iff.
      split; [intros Hc; split; [exact Hc | apply IH; discriminate] | tauto].
    + split; [intros E; now contradiction E|].
      intros E. apply andb_prop in E as [_ E]. apply IH in E. now contradiction E.
Qed.

(** [parseDigits] reads exactly the strings that [\d+] matches. *)
Lemma parseDigits_digits (s : string) :
  Js.truthy s && Js.all_digits s = true <-> exists n, Js.parseDigits s = Some n.
Proof.
  destruct s as [|c s]; [split; [discriminate | intros [n E]; discriminate]|].
  unfold Js.parseDigits. cbn [Js.truthy andb].
  rewrite <- uint_of_string_digits.
  destruct (NilEmpty.uint_of_string (String c s)) as [u|]; simpl.
  - split; [intros _; eauto | discriminate].
  - split; [intros E; now contradiction E | intros [n E]; discriminate].
Qed.

Lemma to_uint_nonnil (n : N) : N.to_uint n <> Decimal.Nil.
Proof.
  destruct n as [|p]; simpl; [discriminate|].
  apply DecimalPos.Unsigned.to_uint_nonnil.
Qed.

Lemma parseDigits_nonempty (s : string) :
  s <> "" -> Js.parseDigits s = option_map N.of_uint (NilEmpty.uint_of_string s).
Proof. destruct s; [contradiction | reflexivity]. Qed.

Lemma parseDigits_natToString (n : N) : Js.parseDigits (Js.natToString n) = Some n.
Proof.
  unfold Js.natToString.
  pose proof (to_uint_nonnil n) as Hn.
  assert (Hs : NilZero.string_of_uint (N.to_uint n)
               = NilEmpty.string_of_uint (N.to_uint n)).
  { destruct (N.to_uint n); [contradiction | reflexivity ..]. }
  rewrite Hs, parseDigits_nonempty.
  - rewrite NilEmpty.usu. simpl. f_equal. apply DecimalN.Unsigned.of_to.
  - destruct (N.to_uint n); [contradiction | discriminate ..].
Qed.

(** Up to [2^53] every natural is a double. *)
Lemma toDouble_exact (n : N) :
  (n <= Js.MAX_SAFE_INTEGER + 1)%N -> Js.toDouble n = n.
Proof.
  intros Hn. unfold Js.toDouble.
  destruct (N.leb_spec (N.size n) 53) as [|Hsize]; [reflexivity|].
  assert (Hpow : (2 ^ 53 <= n)%N).
  { destruct (N.eq_dec n 0%N) as [->|Hpos]; [simpl in Hsize; lia|].
    rewrite N.size_log2 in Hsize by exact Hpos.
    destruct (N.log2_spec n ltac:(lia)) as [Hlow _].
    etransitivity; [|exact Hlow].
    apply N.pow_le_mono_r; lia. }
  assert (E : n = (2 ^ 53)%N).
  { unfold Js.MAX_SAFE_INTEGER in Hn.
    change (2 ^ 53)%N with 9007199254740992%N in Hpow |- *. lia. }
  subst n. vm_compute. reflexivity.
Qed.

Lemma append_assoc (a b c : string) : (a ++ b) ++ c = a ++ b ++ c.
Proof.
  induction a as [|x a IH]; [reflexivity|].
  rewrite !append_cons. f_equal. exact IH.
Qed.

Lemma strip_longer_prefix (a b : string) :
  b <> "" -> Js.strip_prefix (a ++ b) a = None.
Proof.
  intros Hb. induction a as [|x a IH].
  - rewrite append_nil. destruct b; [contradiction | reflexivity].
  - rewrite append_cons. simpl. rewrite Ascii.eqb_refl. exact IH.
Qed.

End DigitFacts.

Section SlugFacts.

Lemma numberedSuffix_startsWith (baseSlug s : string) (n : N) :
  numberedSuffix baseSlug s = Some n -> Js.startsWith (baseSlug ++ "-") s = true.
Proof.
  unfold numberedSuffix, Js.startsWith.
  destruct (Js.strip_prefix (baseSlug ++ "-") s); [reflexivity | discriminate].
Qed.

(** A slug has the numbered suffix [n] exactly when it is the base slug, a
    hyphen and digits that write [n]. *)
Lemma numberedSuffix_spec (baseSlug s : string) (n : N) :
  numberedSuffix baseSlug s = Some n <->
  exists digits, s = baseSlug ++ "-" ++ digits /\ Js.parseDigits digits = Some n.
Proof.
  unfold numberedSuffix. split.
  - destruct (Js.strip_prefix (baseSlug ++ "-") s) as [digits|] eqn:E; [|discriminate].
    intros Hn. exists digits. split; [|exact Hn].
    apply strip_prefix_Some in E. rewrite E. apply append_assoc.
  - intros (digits & -> & Hn).
    rewrite <- append_assoc, strip_prefix_app. exact Hn.
Qed.

Lemma numberedSuffix_numbered (baseSlug : string) (n : N) :
  numberedSuffix baseSlug (baseSlug ++ "-" ++ Js.natToString n) = Some n.
Proof.
  apply numberedSuffix_spec. eexists. split; [reflexivity|].
  apply parseDigits_natToString.
Qed.

Lemma numberedSuffix_base (baseSlug : string) : numberedSuffix baseSlug baseSlug = None.
Proof.
  unfold numberedSuffix. rewrite strip_longer_prefix by discriminate. reflexivity.
Qed.

(** The loop keeps the largest suffix seen so far. *)
Lemma maxSuffix_fold (baseSlug : string) (slugs : list string) (acc : N) :
  let m := fold_left (largest baseSlug) slugs acc in
  (acc <= m)%N /\
  (forall s n, In s slugs -> numberedSuffix baseSlug s = Some n -> (n <= m)%N) /\
  (m = acc \/ exists s, In s slugs /\ numberedSuffix baseSlug s = Some m).
Proof.
  revert acc. induction slugs as [|s slugs IH]; intros acc; simpl.
  - repeat split; [lia | intros ? ? [] | now left].
  - specialize (IH (largest baseSlug acc s)).
    destruct IH as (Hle & Hub & Hwit).
    assert (Hstep : (acc <= largest baseSlug acc s)%N /\
                    (forall n, numberedSuffix baseSlug s = Some n ->
                               (n <= largest baseSlug acc s)%N) /\
                    (largest baseSlug acc s = acc \/
                     numberedSuffix baseSlug s = Some (largest baseSlug acc s))).
    { unfold largest. destruct (numberedSuffix baseSlug s) as [k|].
      - destruct (N.ltb_spec acc k) as [Hlt|Hge].
        + split; [lia|]. split; [intros n [= <-]; lia | now right].
        + split; [lia|]. split; [intros n [= <-]; lia | now left].
      - split; [lia|]. split; [discriminate | now left]. }
    destruct Hstep as (S1 & S2 & S3).
    repeat split.
    + lia.
    + intros s' n [<-|Hin] Hm.
      * specialize (S2 n Hm). lia.
      * eauto.
    + destruct Hwit as [Heq|(s' & Hin & Hm)].
      * rewrite Heq. destruct S3 as [->|S3]; [now left|].
        right. exists s. split; [now left | exact S3].
      * right. exists s'. split; [now right | exact Hm].
Qed.



Lemma slugTaken_false (s : string) (excludeId : option Z) (rows : list Post) (p : Post) :
  slugTaken s excludeId rows = false ->
  In p rows -> PostRepo.excluded excludeId p = false -> slug p <> s.
Proof.
  unfold slugTaken. intros Hfree Hin Hother Heq.
  assert (Htaken : existsb
            (fun q => String.eqb (slug q) s && negb (PostRepo.excluded excludeId q))
            rows = true).
  { apply existsb_exists. exists p. split; [exact Hin|].
    rewrite Heq, String.eqb_refl, Hother. reflexivity. }
  congruence.
Qed.

Lemma slugTaken_true (s : string) (excludeId : option Z) (rows : list Post) :
  slugTaken s excludeId rows = true <->
  exists p, In p rows /\ PostRepo.excluded excludeId p = false /\ slug p = s.
Proof.
  unfold slugTaken. rewrite existsb_exists. split.
  - intros (p & Hin & Hp). apply andb_prop in Hp as [Heq Hother].
    apply String.eqb_eq in Heq. apply negb_true_iff in Hother. eauto.
  - intros (p & Hin & Hother & <-). exists p. split; [exact Hin|].
    rewrite String.eqb_refl, Hother. reflexivity.
Qed.

Lemma maxSuffixOf_upper (baseSlug : string) (excludeId : option Z)
    (rows : list Post) (p : Post) (n : N) :
  In p rows -> PostRepo.excluded excludeId p = false ->
  numberedSuffix baseSlug (slug p) = Some n ->
  (n <= maxSuffixOf baseSlug excludeId rows)%N.
Proof.
  intros Hin Hother Hm.
  destruct (maxSuffix_fold baseSlug (similarSlugsOf baseSlug excludeId rows) 0%N)
    as (_ & Hub & _).
  apply (Hub (slug p)); [|exact Hm].
  apply in_map, filter_In. split; [exact Hin|].
  rewrite (numberedSuffix_startsWith _ _ _ Hm), Hother. reflexivity.
Qed.

Lemma maxSuffixOf_reached (baseSlug : string) (excludeId : option Z)
    (rows : list Post) :
  maxSuffixOf baseSlug excludeId rows = 0%N \/
  exists p, In p rows /\ PostRepo.excluded excludeId p = false /\
            numberedSuffix baseSlug (slug p)
            = Some (maxSuffixOf baseSlug excludeId rows).
Proof.
  destruct (maxSuffix_fold baseSlug (similarSlugsOf baseSlug excludeId rows) 0%N)
    as (_ & _ & [E|(s & Hin & Hm)]); [now left | right].
  apply in_map_iff in Hin as (p & <- & Hin).
  apply filter_In in Hin as (Hin & Hf).
  apply andb_prop in Hf as (_ & Hf). apply negb_true_iff in Hf.
  exists p. repeat split; assumption.
Qed.

(** The largest suffix is the one number that bounds every numbered variant
    and is zero or the number of one of them. *)
Lemma maxSuffixOf_unique (baseSlug : string) (excludeId : option Z)
    (rows : list Post) (m : N) :
  (forall p digits n, In p rows -> PostRepo.excluded excludeId p = false ->
     slug p = baseSlug ++ "-" ++ digits -> Js.parseDigits digits = Some n ->
     (n <= m)%N) ->
  (m = 0%N \/
   exists p digits, In p rows /\ PostRepo.excluded excludeId p = false /\
                    slug p = baseSlug ++ "-" ++ digits /\
                    Js.parseDigits digits = Some m) ->
  maxSuffixOf baseSlug excludeId rows = m.
Proof.
  intros Hub Hwit. apply N.le_antisymm.
  - destruct (maxSuffixOf_reached baseSlug excludeId rows)
      as [->|(p & Hin & Hother & Hm)]; [lia|].
    apply numberedSuffix_spec in Hm as (digits & Hslug & Hn). eauto.
  - destruct Hwit as [->|(p & digits & Hin & Hother & Hslug & Hn)]; [lia|].
    apply (maxSuffixOf_upper baseSlug excludeId rows p); [assumption ..|].
    apply numberedSuffix_spec. eauto.
Qed.

Lemma maxSuffixOf_bounded (baseSlug : string) (excludeId : option Z)
    (rows : list Post) (bound : N) :
  (forall p digits n, In p rows -> PostRepo.excluded excludeId p = false ->
     slug p = baseSlug ++ "-" ++ digits -> Js.parseDigits digits = Some n ->
     (n <= bound)%N) ->
  (maxSuffixOf baseSlug excludeId rows <= bound)%N.
Proof.
  intros Hub.
  destruct (maxSuffixOf_reached baseSlug excludeId rows)
    as [->|(p & Hin & Hother & Hm)]; [lia|].
  apply numberedSuffix_spec in Hm as (digits & Hslug & Hn). eauto.
Qed.

End SlugFacts.

Section SlugRuns.
Context `{Collaborators} `{JsEngine}.

(** With a pattern read as text and numbers that are exact, an iteration of
    the loop keeps the larger of the two numbers. *)
Lemma maxSuffix_step_literal (regex : RegExp) (baseSlug : string) (acc : N)
    (s : string) :
  (forall s', matchGroup1 s' regex
              = match Js.strip_prefix (baseSlug ++ "-") s' with
                | Some digits =>
                    if Js.truthy digits && Js.all_digits digits then Some digits
                    else None
                | None => None
                end) ->
  (forall n, numberedSuffix baseSlug s = Some n -> (n <= Js.MAX_SAFE_INTEGER + 1)%N) ->
  maxSuffix_step regex acc s = largest baseSlug acc s.
Proof.
  intros Hmatch Hsafe. unfold maxSuffix_step, largest. rewrite Hmatch.
  unfold numberedSuffix in *.
  destruct (Js.strip_prefix (baseSlug ++ "-") s) as [digits|]; [|reflexivity].
  cbn [mbind option_bind] in *.
  destruct (Js.truthy digits && Js.all_digits digits) eqn:E.
  - apply parseDigits_digits in E as [n Hn].
    specialize (Hsafe n Hn).
    assert (Htwenty : (n < 10 ^ 20)%N).
    { unfold Js.MAX_SAFE_INTEGER in Hsafe.
      change (10 ^ 20)%N with 100000000000000000000%N. lia. }
    rewrite (parseInt_digits _ _ Hn Htwenty), Hn, toDouble_exact by exact Hsafe.
    reflexivity.
  - destruct (Js.parseDigits digits) as [n|] eqn:Hn; [|reflexivity].
    assert (Js.truthy digits && Js.all_digits digits = true)
      by (apply parseDigits_digits; eauto).
    congruence.
Qed.

Lemma maxSuffix_fold_literal (regex : RegExp) (baseSlug : string)
    (slugs : list string) : forall acc : N,
  (forall s', matchGroup1 s' regex
              = match Js.strip_prefix (baseSlug ++ "-") s' with
                | Some digits =>
                    if Js.truthy digits && Js.all_digits digits then Some digits
                    else None
                | None => None
                end) ->
  (forall s n, In s slugs -> numberedSuffix baseSlug s = Some n ->
               (n <= Js.MAX_SAFE_INTEGER + 1)%N) ->
  fold_left (maxSuffix_step regex) slugs acc = fold_left (largest baseSlug) slugs acc.
Proof.
  induction slugs as [|s slugs IH]; intros acc Hmatch Hsafe; [reflexivity|].
  cbn [fold_left].
  rewrite (maxSuffix_step_literal regex baseSlug acc s Hmatch)
    by (intros n; apply Hsafe; now left).
  apply IH; [exact Hmatch|]. intros s' n Hin. apply Hsafe. now right.
Qed.

(** Without a collision the base slug itself is the answer; the row being
    edited does not count as a collision. *)
Lemma generateSlug_free (w : World) (data : GenerateSlugInput) :
  slugTaken (slugify (gs_title data)) (gs_excludeId data) (db w) = false ->
  generateSlug data w = (Ok (slugify (gs_title data)), w).
Proof.
  intros Hfree. unfold generateSlug, bind, PostRepo.slugExists.
  unfold slugTaken in Hfree. rewrite Hfree. reflexivity.
Qed.

(** The answer of [generateSlug], for a base slug that the pattern reads as
    text and a largest suffix that a double holds exactly. *)
Lemma generateSlug_run (w : World) (data : GenerateSlugInput) :
  let baseSlug := slugify (gs_title data) in
  Js.regexLiteral baseSlug = true ->
  (maxSuffixOf baseSlug (gs_excludeId data) (db w) <= Js.MAX_SAFE_INTEGER)%N ->
  generateSlug data w
  = (Ok (if slugTaken baseSlug (gs_excludeId data) (db w)
         then baseSlug ++ "-"
              ++ Js.natToString (maxSuffixOf baseSlug (gs_excludeId data) (db w) + 1)%N
         else baseSlug), w).
Proof.
  intros baseSlug Hliteral Hsafe.
  destruct (slugTaken baseSlug (gs_excludeId data) (db w)) eqn:Etaken;
    [|apply generateSlug_free, Etaken].
  destruct (newRegExp_literal baseSlug Hliteral) as (regex & Hnew & Hmatch).
  unfold generateSlug, bind, PostRepo.slugExists, PostRepo.findSimilarSlugs, ret.
  fold baseSlug. unfold slugTaken in Etaken. rewrite Etaken. cbn [negb].
  rewrite Hnew.
  fold (similarSlugsOf baseSlug (gs_excludeId data) (db w)).
  rewrite (maxSuffix_fold_literal regex baseSlug _ 0%N Hmatch).
  - fold (maxSuffixOf baseSlug (gs_excludeId data) (db w)).
    rewrite toDouble_exact by lia.
    unfold numberText.
    destruct (N.leb_spec (maxSuffixOf baseSlug (gs_excludeId data) (db w) + 1)
                         (Js.MAX_SAFE_INTEGER + 1)); [reflexivity | lia].
  - intros s n Hin Hn.
    destruct (maxSuffix_fold baseSlug
                (similarSlugsOf baseSlug (gs_excludeId data) (db w)) 0%N)
      as (_ & Hub & _).
    specialize (Hub s n Hin Hn).
    fold (maxSuffixOf baseSlug (gs_excludeId data) (db w)) in Hub. lia.
Qed.

End SlugRuns.




(** ** Synchronisation state *)

(** C2.  For an existing post, [findPostById] reports [isSynced] as follows:
    for a draft, exactly when the cache holds no sync-hash entry for the
    post's id; for any other status, exactly when the stored entry equals the
    hash computed now over the row's title, contentJson, summary, tag ids,
    slug, publishedAt and readTimeInMinutes.  The call reads only: the world
    is left as it was. *)
Theorem findPostById_isSynced `{Collaborators}
    (w : World) (postId : Z) (post : Post) :
  PostRepo.findPostById postId w = (Ok (Some post), w) ->
  exists r : PostWithSync,
    findPostById postId w = (Ok (Some r), w) /\
    post_of r = post /\
    (status post = "draft" ->
       (isSynced r = true <->
        kv w !! POSTS_CACHE_KEYS.syncHash (id post) = None)) /\
    (status post <> "draft" ->
       (isSynced r = true <->
        kv w !! POSTS_CACHE_KEYS.syncHash (id post)
        = Some (calculatePostHash
                  (mkHashInput (title post) (contentJson post) (summary post)
                               (List.map tag_id (tags post)) (slug post)
                               (publishedAt post) (readTimeInMinutes post))))).
Proof.
  intros Hfind.
  unfold findPostById, bind. rewrite Hfind.
  unfold CacheService.getRaw, ret.
  eexists. split; [reflexivity|]. split; [reflexivity|]. simpl.
  split.
  - intros ->. simpl.
    destruct (kv w !! POSTS_CACHE_KEYS.syncHash (id post)) as [h|] eqn:E.
    + rewrite bool_decide_eq_true_2 by discriminate. simpl.
      split; discriminate.
    + rewrite bool_decide_eq_false_2 by (intros X; now apply X). simpl.
      split; reflexivity.
  - intros Hnd.
    destruct (String.eqb_spec (status post) "draft") as [E|_]; [contradiction|].
    unfold hashInputOf. rewrite bool_decide_eq_true.
    split; intros E; symmetry; exact E.
Qed.

Lemma findPostById_isSynced_witness :
  let post := Demo.post 7 "hello" "published" (Some 0) in
  let w := Demo.world [post] [("posts:sync-hash:7", "hello#hello#doc#")] 0 in
  exists r : PostWithSync,
    findPostById (H := Demo.collaborators) 7 w = (Ok (Some r), w) /\
    post_of r = post /\
    (status post = "draft" ->
       (isSynced r = true <->
        kv w !! POSTS_CACHE_KEYS.syncHash (id post) = None)) /\
    (status post <> "draft" ->
       (isSynced r = true <->
        kv w !! POSTS_CACHE_KEYS.syncHash (id post)
        = Some (Demo.hash
                  (mkHashInput (title post) (contentJson post) (summary post)
                               (List.map tag_id (tags post)) (slug post)
                               (publishedAt post) (readTimeInMinutes post))))).
Proof.
  intros post w.
  apply (findPostById_isSynced (H := Demo.collaborators) w 7 post).
  reflexivity.
Defined.

Example findPostById_published_in_sync :
  let post := Demo.post 7 "hello" "published" (Some 0) in
  fst (findPostById (H := Demo.collaborators) 7
         (Demo.world [post] [("posts:sync-hash:7", "hello#hello#doc#")] 0))
  = Ok (Some (mkPostWithSync post true true)).
Proof. vm_compute. reflexivity. Qed.

Example findPostById_published_stale :
  let post := Demo.post 7 "hello" "published" (Some 0) in
  fst (findPostById (H := Demo.collaborators) 7
         (Demo.world [post] [("posts:sync-hash:7", "old")] 0))
  = Ok (Some (mkPostWithSync post false true)).
Proof. vm_compute. reflexivity. Qed.

Example findPostById_draft_leftover :
  let post := Demo.post 7 "hello" "draft" None in
  fst (findPostById (H := Demo.collaborators) 7
         (Demo.world [post] [("posts:sync-hash:7", "old")] 0))
  = Ok (Some (mkPostWithSync post false true)).
Proof. vm_compute. reflexivity. Qed.

(** ** Related posts *)

(** Restoring the cached order: the posts come out in the order of the cached
    ids, an id without a post is skipped, and an id with a post yields the
    first post that carries it. *)
Lemma cached_order_restored (posts : list Post) (cachedIds : list Z) :
  let orderedPosts :=
    Js.filter_defined
      (List.map (fun i => List.find (fun p => id p =? i) posts) cachedIds) in
  List.map id orderedPosts
    = List.filter (fun i => existsb (fun p => id p =? i) posts) cachedIds /\
  Forall (fun p => In p posts /\
                   List.find (fun q => id q =? id p) posts = Some p)
         orderedPosts.
Proof.
  induction cachedIds as [|i ids [IHm IHf]]; simpl.
  - split; [reflexivity | constructor].
  - destruct (List.find (fun p => id p =? i) posts) as [p|] eqn:Efind; simpl.
    + pose proof (find_some _ _ Efind) as [Hin Hid].
      apply Z.eqb_eq in Hid.
      assert (Hex : existsb (fun p => id p =? i) posts = true).
      { apply existsb_exists. exists p. split; [exact Hin|]. now apply Z.eqb_eq. }
      rewrite Hex. simpl. split.
      * f_equal; [exact Hid | exact IHm].
      * constructor; [|exact IHf]. split; [exact Hin|].
        rewrite Hid. exact Efind.
    + assert (Hex : existsb (fun p => id p =? i) posts = false).
      { apply not_true_is_false. intros Hex.
        apply existsb_exists in Hex as (p & Hin & Hp).
        pose proof (find_none _ _ Efind p Hin) as Hn. simpl in Hn. congruence. }
      rewrite Hex. split; assumption.
Qed.

(** C3.  Whatever id sequence the cache answers and whatever posts the
    repository's bulk lookup returns for it, [getRelatedPosts] succeeds and
    returns the resolved posts in the order of the cached ids: the ids of the
    result are the cached ids, in order, that have a returned post; every
    other cached id is dropped. *)
Theorem getRelatedPosts_cached_order `{Collaborators}
    (w w1 : World) (data : FindRelatedPostsInput) (cachedIds : list Z) :
  CacheService.get
    (POSTS_CACHE_KEYS.related (frp_slug data) (frp_limit data)) idsSchema
    (fun w0 => (Ok (getRelatedPostIds (db w0) (frp_slug data) (frp_limit data)), w0))
    "7d" w = (Ok cachedIds, w1) ->
  let posts := getPublicPostsByIds (db w1) (clock w1) cachedIds in
  exists result : list Post,
    getRelatedPosts data w = (Ok result, w1) /\
    List.map id result
      = List.filter (fun i => existsb (fun p => id p =? i) posts) cachedIds /\
    Forall (fun p => In p posts /\
                     List.find (fun q => id q =? id p) posts = Some p) result.
Proof.
  intros Hget posts.
  unfold getRelatedPosts, bind. rewrite Hget.
  destruct cachedIds as [|i ids].
  - exists []. simpl. unfold ret. repeat split. constructor.
  - change (length (i :: ids) =? 0)%nat with false. cbv iota.
    unfold ret. eexists. split; [reflexivity|].
    apply cached_order_restored.
Qed.

Lemma getRelatedPosts_cached_order_witness :
  let two := Demo.post 2 "two" "published" (Some 0) in
  let five := Demo.post 5 "five" "published" (Some 0) in
  let w := Demo.world [two; five] [("posts:related:a:3", "5,2,9")] 0 in
  let posts := Demo.publicPostsByIds (db w) (clock w) [5; 2; 9] in
  exists result : list Post,
    getRelatedPosts (H := Demo.collaborators) (mkFindRelatedPostsInput "a" 3) w
      = (Ok result, w) /\
    List.map id result
      = List.filter (fun i => existsb (fun p => id p =? i) posts) [5; 2; 9] /\
    Forall (fun p => In p posts /\
                     List.find (fun q => id q =? id p) posts = Some p) result.
Proof.
  intros two five w posts.
  apply (getRelatedPosts_cached_order (H := Demo.collaborators)
           w w (mkFindRelatedPostsInput "a" 3) [5; 2; 9]).
  vm_compute. reflexivity.
Defined.

(** ** Public visibility *)

Section Visibility.
Context `{Collaborators}.

(** What [publicOnly] asks of a row. *)
Lemma public_where_iff (now : Z) (p : Post) :
  eval_where (buildPostWhereClause now (publicOnlyOptions true)) p = true <->
  status p = "published" /\
  exists t, publishedAt p = Some t /\ t <= getCurrentMinuteEnd now.
Proof.
  unfold buildPostWhereClause, publicOnlyOptions. simpl.
  rewrite andb_true_r, andb_true_iff, String.eqb_eq.
  destruct (publishedAt p) as [d|].
  - rewrite Z.leb_le. split.
    + intros [Hs Hd]. split; [exact Hs|]. exists d. split; [reflexivity|exact Hd].
    + intros [Hs (t & [= <-] & Ht)]. split; assumption.
  - split.
    + intros [_ Hf]. discriminate.
    + intros [_ (t & Ht & _)]. discriminate.
Qed.

Lemma getCurrentMinuteEnd_bounds (now : Z) :
  now <= getCurrentMinuteEnd now < now + 60000 /\
  (getCurrentMinuteEnd now + 1) mod 60000 = 0.
Proof.
  unfold getCurrentMinuteEnd.
  pose proof (Z.div_mod now 60000 ltac:(lia)) as Hdm.
  pose proof (Z.mod_pos_bound now 60000 ltac:(lia)) as Hb.
  split; [lia|].
  replace (60000 * (now / 60000) + 59999 + 1) with ((now / 60000 + 1) * 60000)
    by lia.
  apply Z.mod_mul. lia.
Qed.

Lemma hidden_not_public (now : Z) (p : Post) :
  (status p <> "published" \/
   exists t, publishedAt p = Some t /\ getCurrentMinuteEnd now < t) ->
  eval_where (buildPostWhereClause now (publicOnlyOptions true)) p = false.
Proof.
  intros Hhidden. apply not_true_is_false. intros Hpub.
  apply public_where_iff in Hpub as (Hs & t & Ht & Hle).
  destruct Hhidden as [Hns|(t' & Ht' & Hlt)]; [contradiction|].
  rewrite Ht in Ht'. injection Ht' as <-. lia.
Qed.

End Visibility.

(** C4.  A post that is not published, or whose [publishedAt] is later than
    "now", fails the where clause that [buildPostWhereClause] builds for
    [publicOnly]; so it is in no result of the repository's [getPostsCursor],
    is never the answer of its [findPostBySlug], and is in no listing that
    the service's [getPostsCursor] fetches.  "Now" is the last millisecond of
    the current minute, so the cutoff moves by whole minutes: a published post
    dated anywhere up to the end of the current minute passes the filter. *)
Theorem public_visibility `{Collaborators}
    (w : World) (P : Post) (cursor limit : option Z)
    (tagName : option string) (s : string) :
  (status P <> "published" \/
   exists t, publishedAt P = Some t /\ getCurrentMinuteEnd (clock w) < t) ->
  eval_where (buildPostWhereClause (clock w) (publicOnlyOptions true)) P = false /\
  (exists r, PostRepo.getPostsCursor cursor limit true tagName w = (Ok r, w) /\
             ~ In P (items r)) /\
  (exists r, PostRepo.findPostBySlug s true w = (Ok r, w) /\ r <> Some P) /\
  (forall data : GetPostsCursorInput,
     kv w !! POSTS_CACHE_KEYS.list (default 1%N (versions w !! "posts:list"))
               (default 10 (gpc_limit data)) (default 0 (gpc_cursor data))
               (default "all" (gpc_tagName data))
       ≫= parse PostListResponseSchema = None ->
     exists r w', getPostsCursor data w = (Ok r, w') /\ ~ In P (items r)) /\
  (clock w <= getCurrentMinuteEnd (clock w) < clock w + 60000 /\
   (getCurrentMinuteEnd (clock w) + 1) mod 60000 = 0) /\
  (forall Q t, status Q = "published" -> publishedAt Q = Some t ->
               t <= getCurrentMinuteEnd (clock w) ->
               eval_where (buildPostWhereClause (clock w) (publicOnlyOptions true)) Q
               = true).
Proof.
  intros Hhidden.
  pose proof (hidden_not_public (clock w) P Hhidden) as Hfalse.
  split; [exact Hfalse|]. split; [|split; [|split; [|split]]].
  - eexists. split; [reflexivity|].
    intros Hin. apply paginate_items, filter_In in Hin as [_ Hpass].
    congruence.
  - eexists. split; [reflexivity|].
    intros Hfind. apply find_some in Hfind as [_ Hpass].
    apply andb_prop in Hpass as [_ Hpass]. congruence.
  - intros data Hmiss.
    unfold getPostsCursor, bind, CacheService.getVersion, CacheService.get.
    destruct (versions w !! "posts:list") as [v|];
      [change (default 1%N (Some v)) with v in Hmiss
      |change (default 1%N None) with 1%N in Hmiss];
      cbn [kv set_versions]; rewrite Hmiss;
      unfold bind, PostRepo.getPostsCursor, CacheService.put, modify, ret;
      cbn [db clock set_versions];
      (eexists; eexists; split; [reflexivity|]);
      intros Hin; apply paginate_items, filter_In in Hin as [_ Hpass];
      congruence.
  - apply getCurrentMinuteEnd_bounds.
  - intros Q t Hs Ht Hle. apply public_where_iff. eauto.
Qed.

Lemma public_visibility_witness :
  let draft := Demo.post 1 "a" "draft" None in
  let w := Demo.world [draft; Demo.post 2 "b" "published" (Some 30000)] [] 10000 in
  let publicClause :=
    buildPostWhereClause (H := Demo.collaborators) (clock w) (publicOnlyOptions true) in
  eval_where (H := Demo.collaborators) publicClause draft = false /\
  (exists r, PostRepo.getPostsCursor (H := Demo.collaborators) None None true None w
             = (Ok r, w) /\ ~ In draft (items r)) /\
  (exists r, PostRepo.findPostBySlug (H := Demo.collaborators) "a" true w = (Ok r, w)
             /\ r <> Some draft) /\
  (forall data : GetPostsCursorInput,
     kv w !! POSTS_CACHE_KEYS.list (default 1%N (versions w !! "posts:list"))
               (default 10 (gpc_limit data)) (default 0 (gpc_cursor data))
               (default "all" (gpc_tagName data))
       ≫= parse (PostListResponseSchema (Collaborators := Demo.collaborators)) = None ->
     exists r w', getPostsCursor (H := Demo.collaborators) data w = (Ok r, w')
                  /\ ~ In draft (items r)) /\
  (clock w <= getCurrentMinuteEnd (clock w) < clock w + 60000 /\
   (getCurrentMinuteEnd (clock w) + 1) mod 60000 = 0) /\
  (forall Q t, status Q = "published" -> publishedAt Q = Some t ->
               t <= getCurrentMinuteEnd (clock w) ->
               eval_where (H := Demo.collaborators) publicClause Q = true).
Proof.
  intros draft w publicClause.
  apply (public_visibility (H := Demo.collaborators) w draft None None None "a").
  left. discriminate.
Defined.

Example same_minute_post_is_listed :
  let later := Demo.post 2 "b" "published" (Some 30000) in
  fst (PostRepo.getPostsCursor (H := Demo.collaborators) None None true None
         (Demo.world [Demo.post 1 "a" "draft" None; later;
                      Demo.post 3 "c" "published" (Some 60000)] [] 10000))
  = Ok (mkPostListResponse [later] None).
Proof. vm_compute. reflexivity. Qed.

(** ** Deleting a post *)

(** C5.  For an existing post, [deletePost] removes the row and then hands
    one promise to [waitUntil].  If the post was published, that promise is
    [Promise.all] of exactly five tasks: delete of the detail-cache key built
    from the current ["posts:detail"] version and the post's slug, bump of the
    ["posts:list"] version, search-index delete for the id, CDN purge for the
    slug, and delete of the sync-hash key.  For any other status it is the
    sync-hash key delete alone, and the cache entries and version counters
    are left as they were. *)
Theorem deletePost_cascade (w : World) (postId : Z) (post : Post) :
  PostRepo.findPostById postId w = (Ok (Some post), w) ->
  let rows := List.filter (fun p => negb (id p =? postId)) (db w) in
  (forall p, In p rows -> id p <> postId) /\
  (status post = "published" ->
   let version := default 1%N (versions w !! "posts:detail") in
   deletePost postId w
   = (Ok tt,
      mkWorld rows (kv w)
        (match versions w !! "posts:detail" with
         | Some _ => versions w
         | None => <["posts:detail" := 1%N]> (versions w)
         end)
        (scheduled w) (clock w)
        (trace w ++
           [RepoDelete postId;
            WaitUntil (PromiseAll
              [DeleteKey (POSTS_CACHE_KEYS.detail version (slug post));
               BumpVersion "posts:list";
               DeleteIndex postId;
               PurgeCDN (slug post);
               DeleteKey (POSTS_CACHE_KEYS.syncHash postId)])]))) /\
  (status post <> "published" ->
   deletePost postId w
   = (Ok tt,
      mkWorld rows (kv w) (versions w) (scheduled w) (clock w)
        (trace w ++
           [RepoDelete postId;
            WaitUntil (Call (DeleteKey (POSTS_CACHE_KEYS.syncHash postId)))]))).
Proof.
  intros Hfind rows. split; [|split].
  - intros p Hin. apply filter_In in Hin as [_ Hne].
    apply negb_true_iff, Z.eqb_neq in Hne. exact Hne.
  - intros Hpub. unfold deletePost, bind. rewrite Hfind.
    unfold PostRepo.deletePost, modify. rewrite Hpub. simpl.
    unfold CacheService.getVersion. cbn [versions emit set_db].
    destruct (versions w !! "posts:detail") as [v|]; simpl;
      unfold waitUntil, modify, emit, set_versions; simpl;
      rewrite <- app_assoc; reflexivity.
  - intros Hnp. unfold deletePost, bind. rewrite Hfind.
    unfold PostRepo.deletePost, modify.
    destruct (String.eqb_spec (status post) "published") as [E|_];
      [contradiction|].
    unfold waitUntil, modify, emit, set_db. simpl.
    rewrite <- app_assoc. reflexivity.
Qed.

Lemma deletePost_cascade_witness :
  let post := Demo.post 4 "gone" "published" (Some 0) in
  let w := Demo.world [post; Demo.post 5 "stays" "draft" None] [] 0 in
  let rows := List.filter (fun p => negb (id p =? 4)) (db w) in
  (forall p, In p rows -> id p <> 4) /\
  (status post = "published" ->
   let version := default 1%N (versions w !! "posts:detail") in
   deletePost 4 w
   = (Ok tt,
      mkWorld rows (kv w)
        (match versions w !! "posts:detail" with
         | Some _ => versions w
         | None => <["posts:detail" := 1%N]> (versions w)
         end)
        (scheduled w) (clock w)
        (trace w ++
           [RepoDelete 4;
            WaitUntil (PromiseAll
              [DeleteKey (POSTS_CACHE_KEYS.detail version (slug post));
               BumpVersion "posts:list";
               DeleteIndex 4;
               PurgeCDN (slug post);
               DeleteKey (POSTS_CACHE_KEYS.syncHash 4)])]))) /\
  (status post <> "published" ->
   deletePost 4 w
   = (Ok tt,
      mkWorld rows (kv w) (versions w) (scheduled w) (clock w)
        (trace w ++
           [RepoDelete 4;
            WaitUntil (Call (DeleteKey (POSTS_CACHE_KEYS.syncHash 4)))]))).
Proof.
  intros post w.
  apply (deletePost_cascade w 4 post).
  reflexivity.
Defined.

Example deletePost_published_trace :
  trace (snd (deletePost 4
    (Demo.world [Demo.post 4 "gone" "published" (Some 0)] [] 0)))
  = [RepoDelete 4;
     WaitUntil (PromiseAll
       [DeleteKey "posts:detail:1:gone"; BumpVersion "posts:list";
        DeleteIndex 4; PurgeCDN "gone"; DeleteKey "posts:sync-hash:4"])].
Proof. vm_compute. reflexivity. Qed.

Example deletePost_draft_trace :
  trace (snd (deletePost 4 (Demo.world [Demo.post 4 "gone" "draft" None] [] 0)))
  = [RepoDelete 4; WaitUntil (Call (DeleteKey "posts:sync-hash:4"))].
Proof. vm_compute. reflexivity. Qed.

Lemma map_update_absent (postId : Z) (f : Post -> Post) (rows : list Post) :
  List.find (fun p => id p =? postId) rows = None ->
  List.map (fun p => if id p =? postId then f p else p) rows = rows.
Proof.
  intros Hnone. induction rows as [|p rows IH]; simpl in *; [reflexivity|].
  destruct (id p =? postId); [discriminate|].
  f_equal. exact (IH Hnone).
Qed.

(** C10.  For an id that matches no post, [deletePost] returns normally and
    leaves the world exactly as it found it: no repository delete and nothing
    handed to [waitUntil].  [updatePost] on the same id throws
    ["Post not found"]. *)
Theorem deletePost_missing_noop `{Collaborators} (w : World) (postId : Z) :
  PostRepo.findPostById postId w = (Ok None, w) ->
  deletePost postId w = (Ok tt, w) /\
  forall patch : PostPatch,
    updatePost (mkUpdatePostInput postId patch) w
    = (Throw "Post not found", emit (RepoUpdate postId patch) w).
Proof.
  intros Hfind. split.
  - unfold deletePost, bind. rewrite Hfind. reflexivity.
  - intros patch. unfold updatePost, bind, PostRepo.updatePost. simpl.
    injection Hfind as Hnone.
    rewrite (map_update_absent _ _ _ Hnone), Hnone.
    unfold throw, set_db, emit. destruct w; reflexivity.
Qed.

Lemma deletePost_missing_noop_witness :
  let w := Demo.world [Demo.post 5 "stays" "draft" None] [] 0 in
  deletePost 4 w = (Ok tt, w) /\
  forall patch : PostPatch,
    updatePost (H := Demo.collaborators) (mkUpdatePostInput 4 patch) w
    = (Throw "Post not found", emit (RepoUpdate 4 patch) w).
Proof.
  intros w.
  apply (deletePost_missing_noop (H := Demo.collaborators) w 4).
  reflexivity.
Defined.

(** ** Updating a post *)

Lemma find_map_update (postId : Z) (f : Post -> Post) (rows : list Post) (p : Post) :
  (forall q, id (f q) = id q) ->
  List.find (fun q => id q =? postId) rows = Some p ->
  List.find (fun q => id q =? postId)
            (List.map (fun q => if id q =? postId then f q else q) rows)
  = Some (f p).
Proof.
  intros Hid. induction rows as [|q rows IH]; simpl; [discriminate|].
  destruct (id q =? postId) eqn:E.
  - intros [= ->]. simpl. rewrite Hid, E. reflexivity.
  - intros Hf. simpl. rewrite E. exact (IH Hf).
Qed.

Lemma newEvents_app (w w' : World) (evs : list Event) :
  trace w' = (trace w ++ evs)%list -> newEvents w w' = evs.
Proof.
  intros E. unfold newEvents. rewrite E.
  rewrite skipn_app, skipn_all, Nat.sub_diag. reflexivity.
Qed.

(** C8, as the claim states it, fails: a patch that carries the content the
    post already has schedules the media resynchronisation although the
    content did not change. *)
Lemma updatePost_resync_without_change :
  let w := Demo.world [Demo.post 1 "a" "draft" None] [] 0 in
  let patch := mkPatch None None None (Some (Some "doc")) None None None in
  let w' := snd (updatePost (H := Demo.collaborators) (mkUpdatePostInput 1 patch) w) in
  ~ (mediaSyncScheduled w w' 1 <-> contentChanged w w' 1).
Proof.
  intros w patch w' [Hfwd _].
  apply Hfwd.
  - exists (Some "doc"). vm_compute. right. left. reflexivity.
  - vm_compute. reflexivity.
Qed.

(** C8, amended.  On an existing post, [updatePost] applies the partial
    update to the row and answers the post read back; the media
    resynchronisation is handed to [waitUntil], and not run, exactly when the
    patch carries a [contentJson] field, whatever its value; a patch without
    that field schedules nothing. *)
Theorem updatePost_media_sync `{Collaborators}
    (w : World) (data : UpdatePostInput) (post : Post) :
  PostRepo.findPostById (up_id data) w = (Ok (Some post), w) ->
  let rows :=
    List.map (fun p => if id p =? up_id data
                       then PostRepo.apply_patch (up_data data) p else p) (db w) in
  let sync :=
    match patch_contentJson (up_data data) with
    | Some content => [WaitUntil (Call (SyncPostMedia (up_id data) content))]
    | None => []
    end in
  let w' := mkWorld rows (kv w) (versions w) (scheduled w) (clock w)
                    (trace w ++ RepoUpdate (up_id data) (up_data data) :: sync) in
  exists r : PostWithSync,
    updatePost data w = (Ok (Some r), w') /\
    post_of r = PostRepo.apply_patch (up_data data) post /\
    (mediaSyncScheduled w w' (up_id data)
     <-> patch_contentJson (up_data data) <> None).
Proof.
  intros Hfind rows sync w'.
  injection Hfind as Hfind.
  pose proof (find_some _ _ Hfind) as [_ Hid]. apply Z.eqb_eq in Hid.
  assert (Hrows : List.find (fun q => id q =? up_id data) rows
                  = Some (PostRepo.apply_patch (up_data data) post)).
  { apply find_map_update; [reflexivity | exact Hfind]. }
  assert (Hsync : mediaSyncScheduled w w' (up_id data)
                  <-> patch_contentJson (up_data data) <> None).
  { unfold mediaSyncScheduled.
    rewrite (newEvents_app w w' (RepoUpdate (up_id data) (up_data data) :: sync))
      by reflexivity.
    subst sync. destruct (patch_contentJson (up_data data)) as [c|]; split.
    - discriminate.
    - intros _. exists c. right. left. reflexivity.
    - intros (c & [Hc|[]]). discriminate.
    - congruence. }
  unfold updatePost, bind, PostRepo.updatePost. fold rows. rewrite Hrows.
  cbn [id PostRepo.apply_patch].
  unfold findPostById, bind, PostRepo.findPostById, CacheService.getRaw, ret.
  subst sync w'.
  destruct (patch_contentJson (up_data data)) as [c|];
    unfold waitUntil, modify, emit, set_db; cbn [db kv versions scheduled clock trace];
    rewrite ?Hid, ?Hrows.
  - rewrite <- app_assoc. eexists. split; [reflexivity|]. split; [reflexivity|].
    exact Hsync.
  - eexists. split; [reflexivity|]. split; [reflexivity|]. exact Hsync.
Qed.

Lemma updatePost_media_sync_witness :
  let post := Demo.post 1 "a" "draft" None in
  let w := Demo.world [post] [] 0 in
  let data :=
    mkUpdatePostInput 1 (mkPatch (Some "b") None None None None None None) in
  let w' := mkWorld [PostRepo.apply_patch (up_data data) post]
                    (kv w) (versions w) (scheduled w) (clock w)
                    (trace w ++ [RepoUpdate 1 (up_data data)]) in
  exists r : PostWithSync,
    updatePost (H := Demo.collaborators) data w = (Ok (Some r), w') /\
    post_of r = PostRepo.apply_patch (up_data data) post /\
    (mediaSyncScheduled w w' 1 <-> patch_contentJson (up_data data) <> None).
Proof.
  intros post w data w'.
  apply (updatePost_media_sync (H := Demo.collaborators) w data post).
  reflexivity.
Defined.

(** ** The post-process workflow *)

Section WorkflowFacts.
Context `{Collaborators}.

Lemma toISOString_truthy (t : Z) : Js.truthy (toISOString t) = true.
Proof.
  destruct (toISOString t) eqn:E; [|reflexivity].
  pose proof (dateParse_toISOString t) as P. rewrite E, dateParse_empty in P.
  discriminate.
Qed.

Lemma isFuturePublishDate_toISOString (t now : Z) (today : option string) :
  isFuturePublishDate (toISOString t) today now = (now <? t).
Proof. unfold isFuturePublishDate. rewrite dateParse_toISOString. reflexivity. Qed.


End WorkflowFacts.

Section WorkflowRun.
Context `{Collaborators}.

Lemma cancel_run (instanceId : string) (w : World) :
  try_ignore
    (await oldInstance <- SCHEDULED_PUBLISH_WORKFLOW.get instanceId;
     SCHEDULED_PUBLISH_WORKFLOW.terminate oldInstance) w
  = (Ok tt, cancelled instanceId w).
Proof.
  unfold try_ignore, bind, SCHEDULED_PUBLISH_WORKFLOW.get,
    SCHEDULED_PUBLISH_WORKFLOW.terminate, cancelled.
  destruct (scheduled w !! instanceId) as [[| |]|] eqn:E;
    rewrite ?E; reflexivity.
Qed.

Lemma bind_run {A B} (c : M A) (k : A -> M B) (w w' : World) (a : A) :
  c w = (Ok a, w') -> bind c k w = k a w'.
Proof. unfold bind. intros ->. reflexivity. Qed.

(** The whole call, step by step.  It never throws. *)
Lemma startPostProcessWorkflow_run (w : World) (data : StartPostProcessInput) :
  let eff := effectivePublishedAt w data in
  startPostProcessWorkflow data w
  = (Ok tt,
     rescheduled data eff (clock w)
       (cancelled (scheduledIdOf (spp_id data))
          (launched data eff (clock w) (stamped data w)))).
Proof.
  intros eff. unfold startPostProcessWorkflow.
  assert (Hphase1 :
    (if String.eqb (spp_status data) "published" then
       await post <- PostRepo.findPostById (spp_id data);
       match post with
       | Some post =>
           match publishedAt post with
           | None =>
               await clk <- Date_now;
               let now := getCurrentMinuteEnd clk in
               perform PostRepo.updatePost (id post)
                 (mkPatch None None None None None (Some (Some now)) None);
               ret (Some (toISOString now))
           | Some d => ret (Some (toISOString d))
           end
       | None => ret None
       end
     else ret None) w
    = (Ok (option_map toISOString eff), stamped data w)).
  { unfold eff, effectivePublishedAt, stamped.
    destruct (String.eqb (spp_status data) "published"); [|reflexivity].
    unfold bind, PostRepo.findPostById.
    destruct (List.find (fun p => id p =? spp_id data) (db w)) as [post|];
      [|reflexivity].
    destruct (publishedAt post); reflexivity. }
  rewrite (bind_run _ _ _ _ _ Hphase1).
  assert (Hclock : clock (stamped data w) = clock w).
  { unfold stamped.
    destruct (String.eqb (spp_status data) "published"); [|reflexivity].
    destruct (List.find _ (db w)) as [post|]; [|reflexivity].
    destruct (publishedAt post); reflexivity. }
  assert (Hphase2 :
    match option_map toISOString eff with
    | Some iso =>
        if Js.truthy iso then
          await clk <- Date_now;
          ret (isFuturePublishDate iso (spp_clientToday data) clk)
        else ret false
    | None => ret false
    end (stamped data w)
    = (Ok (match eff with Some t => clock w <? t | None => false end),
       stamped data w)).
  { destruct eff as [t|]; simpl; [|reflexivity].
    rewrite toISOString_truthy. unfold bind, Date_now, ret.
    rewrite isFuturePublishDate_toISOString, Hclock. reflexivity. }
  rewrite (bind_run _ _ _ _ _ Hphase2).
  rewrite (bind_run _ _ (stamped data w)
             (launched data eff (clock w) (stamped data w)) tt)
    by reflexivity.
  rewrite (bind_run _ _ _ _ _ (cancel_run _ _)).
  assert (Hclock' :
    clock (cancelled (scheduledIdOf (spp_id data))
             (launched data eff (clock w) (stamped data w))) = clock w).
  { unfold cancelled, launched.
    destruct (scheduled _ !! _) as [[| |]|]; simpl; exact Hclock. }
  unfold rescheduled.
  destruct eff as [t|] eqn:Eeff; simpl; [|reflexivity].
  assert (Es : String.eqb (spp_status data) "published" = true).
  { unfold eff, effectivePublishedAt in Eeff.
    destruct (String.eqb (spp_status data) "published");
      [reflexivity | discriminate]. }
  rewrite Es, toISOString_truthy. simpl.
  unfold bind, Date_now. rewrite dateParse_toISOString, Hclock'.
  destruct (clock w <? t); reflexivity.
Qed.

End WorkflowRun.

Section WorkflowClaims.
Context `{Collaborators}.



End WorkflowClaims.



Example reschedule_supersedes_running_instance :
  let w := mkWorld [Demo.post 3 "c" "draft" (Some 90000)] ∅ ∅
                   {["post-3-scheduled" := Running]} 10000 [] in
  trace (snd (startPostProcessWorkflow (H := Demo.collaborators)
                (mkStartPostProcessInput 3 "published" None) w))
  = [PostProcessCreate (mkPostProcessParams 3 true (Some "90000") true);
     ScheduledTerminate "post-3-scheduled";
     ScheduledCreate "post-3-scheduled" (mkScheduledParams 3 "90000")].
Proof. vm_compute. reflexivity. Qed.

Example finished_instance_is_tolerated :
  let w := mkWorld [Demo.post 3 "c" "draft" (Some 5000)] ∅ ∅
                   {["post-3-scheduled" := Complete]} 10000 [] in
  startPostProcessWorkflow (H := Demo.collaborators)
    (mkStartPostProcessInput 3 "published" None) w
  = (Ok tt,
     mkWorld (db w) ∅ ∅ {["post-3-scheduled" := Complete]} 10000
       [PostProcessCreate (mkPostProcessParams 3 true (Some "5000") false)]).
Proof. vm_compute. reflexivity. Qed.



Example publish_without_date_stamps_minute_end :
  let w := Demo.world [Demo.post 3 "c" "draft" None] [] 10000 in
  let w' := snd (startPostProcessWorkflow (H := Demo.collaborators)
                   (mkStartPostProcessInput 3 "published" None) w) in
  List.map publishedAt (db w') = [Some 59999] /\
  trace w'
  = [RepoUpdate 3 (stampPatch 59999);
     PostProcessCreate (mkPostProcessParams 3 true (Some "59999") true);
     ScheduledCreate "post-3-scheduled" (mkScheduledParams 3 "59999")].
Proof. vm_compute. split; reflexivity. Qed.

(** ** Cache versioning *)

Section VersionFacts.

Lemma list_key_version (v v' : N) (limit limit' cursor cursor' : Z)
    (tagName tagName' : string) :
  POSTS_CACHE_KEYS.list v limit cursor tagName
  = POSTS_CACHE_KEYS.list v' limit' cursor' tagName' -> v = v'.
Proof.
  unfold POSTS_CACHE_KEYS.list. intros E.
  apply (f_equal (Js.strip_prefix "posts:list:")) in E.
  rewrite !strip_prefix_app in E. injection E as E.
  apply natToString_inj.
  eapply digits_before_colon; [apply natToString_digits .. | exact E].
Qed.

Lemma getVersion_value (ns : string) (w : World) :
  fst (CacheService.getVersion ns w) = Ok (default 1%N (versions w !! ns)).
Proof.
  unfold CacheService.getVersion. destruct (versions w !! ns); reflexivity.
Qed.

Lemma getVersion_after_bump (ns : string) (w : World) :
  CacheService.getVersion ns (snd (CacheService.bumpVersion ns w))
  = (Ok (default 1%N (versions w !! ns) + 1)%N,
     snd (CacheService.bumpVersion ns w)).
Proof.
  unfold CacheService.getVersion, CacheService.bumpVersion, modify, set_versions.
  simpl. rewrite lookup_insert_eq. reflexivity.
Qed.

End VersionFacts.

(** C9.  After [bumpVersion(N)], [getVersion(N)] is one more than it was.
    The list keys of two different versions are different strings, whatever
    the limit, cursor and tag.  So an entry stored under a key built from the
    old version of ["posts:list"] has no influence on what [getPostsCursor]
    answers after the bump: the answer is the same as if that entry did not
    exist. *)
Theorem bumpVersion_orphans_entries `{Collaborators} :
  (forall (ns : string) (w : World),
     exists v : N,
       fst (CacheService.getVersion ns w) = Ok v /\
       fst (CacheService.getVersion ns (snd (CacheService.bumpVersion ns w)))
       = Ok (v + 1)%N) /\
  (forall (v v' : N) (limit limit' cursor cursor' : Z) (tagName tagName' : string),
     v <> v' ->
     POSTS_CACHE_KEYS.list v limit cursor tagName
     <> POSTS_CACHE_KEYS.list v' limit' cursor' tagName') /\
  (forall (w : World) (stale : string) (limit cursor : Z) (tagName : string)
          (data : GetPostsCursorInput),
     exists v : N,
       fst (CacheService.getVersion "posts:list" w) = Ok v /\
       let oldKey := POSTS_CACHE_KEYS.list v limit cursor tagName in
       let bumped u := snd (CacheService.bumpVersion "posts:list" u) in
       fst (getPostsCursor data (bumped (set_kv (insert oldKey stale) w)))
       = fst (getPostsCursor data (bumped (set_kv (delete oldKey) w)))).
Proof.
  split; [|split].
  - intros ns w. eexists. split; [apply getVersion_value|].
    rewrite getVersion_after_bump. reflexivity.
  - intros v v' limit limit' cursor cursor' tagName tagName' Hne E.
    apply Hne. eapply list_key_version. exact E.
  - intros w stale limit cursor tagName data.
    eexists. split; [apply getVersion_value|].
    set (v := default 1%N (versions w !! "posts:list")).
    intros oldKey bumped.
    assert (Hrun : forall f,
      fst (getPostsCursor data (bumped (set_kv f w)))
      = match f (kv w) !! POSTS_CACHE_KEYS.list (v + 1)
                (default 10 (gpc_limit data)) (default 0 (gpc_cursor data))
                (default "all" (gpc_tagName data))
              ≫= parse PostListResponseSchema with
        | Some r => Ok r
        | None =>
            fst (PostRepo.getPostsCursor (gpc_cursor data) (gpc_limit data) true
                   (gpc_tagName data) w)
        end).
    { intros f. unfold getPostsCursor.
      rewrite (bind_run _ _ _ _ _ (getVersion_after_bump "posts:list" (set_kv f w))).
      cbn [versions set_kv]. fold v.
      unfold CacheService.get.
      change (kv (snd (CacheService.bumpVersion "posts:list" (set_kv f w))))
        with (f (kv w)).
      destruct (f (kv w) !! _ ≫= parse PostListResponseSchema); reflexivity. }
    rewrite !Hrun.
    assert (Hkey : oldKey <> POSTS_CACHE_KEYS.list (v + 1)
                     (default 10 (gpc_limit data)) (default 0 (gpc_cursor data))
                     (default "all" (gpc_tagName data))).
    { intros E. apply list_key_version in E. lia. }
    rewrite lookup_insert_ne, lookup_delete_ne by exact Hkey.
    reflexivity.
Qed.

Lemma bumpVersion_orphans_entries_witness :
  let w := Demo.world [Demo.post 2 "b" "published" (Some 0)] [] 0 in
  (exists v : N,
     fst (CacheService.getVersion "posts:list" w) = Ok v /\
     fst (CacheService.getVersion "posts:list"
            (snd (CacheService.bumpVersion "posts:list" w))) = Ok (v + 1)%N) /\
  POSTS_CACHE_KEYS.list 1 10 0 "all" <> POSTS_CACHE_KEYS.list 2 10 0 "all" /\
  (exists v : N,
     fst (CacheService.getVersion "posts:list" w) = Ok v /\
     let oldKey := POSTS_CACHE_KEYS.list v 10 0 "all" in
     let bumped u := snd (CacheService.bumpVersion "posts:list" u) in
     fst (getPostsCursor (H := Demo.collaborators)
            (mkGetPostsCursorInput None None None)
            (bumped (set_kv (insert oldKey "stale") w)))
     = fst (getPostsCursor (H := Demo.collaborators)
              (mkGetPostsCursorInput None None None)
              (bumped (set_kv (delete oldKey) w)))).
Proof.
  intros w.
  destruct (bumpVersion_orphans_entries (H := Demo.collaborators))
    as (Hversion & Hkeys & Hstale).
  split; [apply Hversion|]. split; [apply Hkeys; discriminate|].
  apply Hstale.
Defined.

Example list_keys_of_consecutive_versions :
  POSTS_CACHE_KEYS.list 1 10 0 "all" = "posts:list:1:10:0:all" /\
  POSTS_CACHE_KEYS.list 2 10 0 "all" = "posts:list:2:10:0:all" /\
  fst (CacheService.getVersion "posts:list"
         (snd (CacheService.bumpVersion "posts:list" (Demo.world [] [] 0))))
  = Ok 2%N.
Proof. vm_compute. repeat split. Qed.

(** * The rest of the posts service

    The functions of [posts.service.ts] that the statements above leave out:
    [findPostBySlug], [findPostBySlugAdmin], [generateSummaryByPostId] and
    [createEmptyPost]; and what the platform does with the promises handed to
    [waitUntil]. *)

(** The table of contents of a document; the service only passes it on. *)
Definition Toc := string.

(** [{ ...post, contentJson, toc }] *)
Record PostWithToc := mkPostWithToc {
  pt_post : Post;
  pt_toc : Toc
}.

Definition with_contentJson (c : option JSONContent) (p : Post) : Post :=
  mkPost (id p) (title p) (slug p) (status p) c (summary p) (publishedAt p)
         (readTimeInMinutes p) (tags p) (updatedAt p).

(** The values handed to [PostRepo.insertPost]. *)
Record InsertPostInput := mkInsertPostInput {
  ins_title : string;
  ins_slug : string;
  ins_summary : option string;
  ins_status : PostStatus;
  ins_readTimeInMinutes : Z;
  ins_contentJson : option JSONContent
}.

(** What these functions call besides the collaborators above.
    [summarizeText] answers a summary or rejects.  [stringLength] is
    [String.prototype.length], which counts UTF-16 code units.  [storedRow] is
    the row the database makes of an insert, given the rows present and the
    clock: it chooses the id and the timestamps, and keeps the values it is
    given. *)
Class ContentTools := {
  generateTableOfContents : option JSONContent -> Toc;
  highlightCodeBlocks : JSONContent -> JSONContent;
  convertToPlainText : option JSONContent -> string;
  stringLength : string -> Z;
  summarizeText : string -> Result string;
  PostWithTocSchema : Schema (option PostWithToc);
  storedRow : list Post -> Z -> InsertPostInput -> Post;
  storedRow_fields : forall rows now v,
      let row := storedRow rows now v in
      title row = ins_title v /\ slug row = ins_slug v /\
      summary row = ins_summary v /\ status row = ins_status v /\
      readTimeInMinutes row = ins_readTimeInMinutes v /\
      contentJson row = ins_contentJson v
}.

(** Modelled from the spec: [PostRepo.insertPost] is not among the sources.
    It adds one row holding the given values and answers that row. *)
Definition PostRepo_insertPost `{ContentTools} (v : InsertPostInput) : M Post :=
  fun w =>
    let row := storedRow (db w) (clock w) v in
    (Ok row, set_db (fun rows => (rows ++ [row])%list) w).

Section MoreService.
Context `{Collaborators} `{ContentTools} `{JsEngine}.

Definition findPostBySlug (s : string) : M (option PostWithToc) :=
  let fetcher : M (option PostWithToc) :=
    await post <- PostRepo.findPostBySlug s true;
    match post with
    | None => ret None
    | Some post =>
        let contentJson' :=
          match contentJson post with
          | Some c => Some (highlightCodeBlocks c)
          | None => None
          end in
        ret (Some (mkPostWithToc (with_contentJson contentJson' post)
                     (generateTableOfContents (contentJson post))))
    end in
  await version <- CacheService.getVersion "posts:detail";
  let cacheKey := POSTS_CACHE_KEYS.detail version s in
  CacheService.get cacheKey PostWithTocSchema fetcher "7d".

Definition findPostBySlugAdmin (s : string) : M (option PostWithToc) :=
  await post <- PostRepo.findPostBySlug s false;
  match post with
  | None => ret None
  | Some post =>
      ret (Some (mkPostWithToc post (generateTableOfContents (contentJson post))))
  end.

(** [post.summary && post.summary.trim().length > 0] *)
Definition hasSummary (post : Post) : bool :=
  match summary post with
  | Some s => Js.truthy s && (0 <? stringLength (trim s))
  | None => false
  end.

Definition summaryPatch (s : string) : PostPatch :=
  mkPatch None None None None (Some (Some s)) None None.

Definition generateSummaryByPostId (postId : Z) : M (option Post) :=
  await post <- PostRepo.findPostById postId;
  match post with
  | None => throw "Post not found"
  | Some post =>
      if hasSummary post then ret (Some post)
      else
        let plainText := convertToPlainText (contentJson post) in
        if stringLength plainText <? 100 then ret (Some post)
        else
          await newSummary <- (fun w => (summarizeText plainText, w));
          await updatedPost <- PostRepo.updatePost (id post) (summaryPatch newSummary);
          ret updatedPost
  end.

Definition createEmptyPost : M Z :=
  await newSlug <- generateSlug (mkGenerateSlugInput "" None);
  await post <-
    PostRepo_insertPost (mkInsertPostInput "" newSlug (Some "") "draft" 1 None);
  ret (id post).

End MoreService.

(** ** Promises after the response *)

(** What the platform does when it runs a task handed to [waitUntil].  The
    search index, the CDN and the media table lie outside the world modelled
    here: their tasks leave it as it is. *)
Definition run_task (t : Task) : M unit :=
  match t with
  | DeleteKey key => CacheService.deleteKey key
  | BumpVersion ns => CacheService.bumpVersion ns
  | DeleteIndex _ | PurgeCDN _ | SyncPostMedia _ _ => ret tt
  end.

(** The tasks of a batch, run to the end in some order [ts]. *)
Fixpoint run_tasks (ts : list Task) : M unit :=
  match ts with
  | [] => ret tt
  | t :: ts' => perform run_task t; run_tasks ts'
  end.

Definition tasksOf (p : Promise) : list Task :=
  match p with
  | Call t => [t]
  | PromiseAll ts => ts
  end.

(** The tasks handed to [waitUntil] by the events [evs], oldest first. *)
Fixpoint deferredTasks (evs : list Event) : list Task :=
  match evs with
  | [] => []
  | WaitUntil p :: evs' => (tasksOf p ++ deferredTasks evs')%list
  | _ :: evs' => deferredTasks evs'
  end.

(** [c], and then everything it handed to [waitUntil], run in the order
    given by [order] (a rearrangement of the tasks). *)
Definition settled {A} (c : M A) (order : list Task -> list Task) : M A :=
  fun w =>
    match c w with
    | (r, w') =>
        (r, snd (run_tasks (order (deferredTasks (newEvents w w'))) w'))
    end.

(** [k] calls in a row. *)
Fixpoint repeatM {A} (k : nat) (c : M A) : M (list A) :=
  match k with
  | O => ret []
  | S k' => await a <- c; await rest <- repeatM k' c; ret (a :: rest)
  end.

(** ** Slugs stay unique *)

(** X1.  [generateSlug] does not answer a slug that another post already
    has: for a base slug without a character that is syntax in a regular
    expression, and numbered variants [base-<digits>] whose numbers are below
    [MAX_SAFE_INTEGER], the slug it returns differs from the slug of every
    row other than [excludeId]. *)
Theorem generateSlug_fresh `{Collaborators} `{JsEngine}
    (w : World) (data : GenerateSlugInput) :
  let baseSlug := slugify (gs_title data) in
  Js.regexLiteral baseSlug = true ->
  (forall p digits n, In p (db w) -> PostRepo.excluded (gs_excludeId data) p = false ->
     slug p = baseSlug ++ "-" ++ digits -> Js.parseDigits digits = Some n ->
     (n < Js.MAX_SAFE_INTEGER)%N) ->
  exists s : string,
    generateSlug data w = (Ok s, w) /\
    forall p, In p (db w) -> PostRepo.excluded (gs_excludeId data) p = false ->
              slug p <> s.
Proof.
  intros baseSlug Hliteral Hsafe.
  assert (Hmax : (maxSuffixOf baseSlug (gs_excludeId data) (db w)
                  <= Js.MAX_SAFE_INTEGER)%N).
  { apply maxSuffixOf_bounded. intros p digits n Hin Hother Hslug Hn.
    apply N.lt_le_incl. eauto. }
  eexists. split; [apply generateSlug_run; assumption|].
  intros p Hin Hother. fold baseSlug.
  destruct (slugTaken _ _ (db w)) eqn:Etaken.
  - intros Heq.
    pose proof (numberedSuffix_numbered baseSlug
                  (maxSuffixOf baseSlug (gs_excludeId data) (db w) + 1)) as Hm.
    rewrite <- Heq in Hm.
    pose proof (maxSuffixOf_upper _ _ _ _ _ Hin Hother Hm). lia.
  - eapply slugTaken_false; eassumption.
Qed.

Lemma generateSlug_fresh_witness :
  let w := Demo.world [Demo.post 1 "title" "draft" None;
                       Demo.post 2 "title-1" "draft" None;
                       Demo.post 3 "title-2" "draft" None] [] 0 in
  let data := mkGenerateSlugInput "title" None in
  exists s : string,
    generateSlug (H := Demo.collaborators) (H0 := DemoEngine.engine) data w
    = (Ok s, w) /\
    forall p, In p (db w) -> PostRepo.excluded None p = false -> slug p <> s.
Proof.
  intros w data.
  apply (generateSlug_fresh (H := Demo.collaborators) (H0 := DemoEngine.engine) w data).
  - reflexivity.
  - intros p digits n [<-|[<-|[<-|[]]]] _ Hslug Hn; vm_compute in Hslug;
      try discriminate; injection Hslug as <-; vm_compute in Hn;
      injection Hn as <-; reflexivity.
Defined.

Section EmptyPosts.
Context `{Collaborators} `{ContentTools} `{JsEngine}.

Definition emptyDraft (newSlug : string) : InsertPostInput :=
  mkInsertPostInput "" newSlug (Some "") "draft" 1 None.

(** The slug [createEmptyPost] gives to the row it adds. *)
Definition emptySlug (rows : list Post) : string :=
  let baseSlug := slugify "" in
  if slugTaken baseSlug None rows
  then baseSlug ++ "-" ++ Js.natToString (maxSuffixOf baseSlug None rows + 1)%N
  else baseSlug.

Definition addRow (row : Post) (w : World) : World :=
  mkWorld (db w ++ [row])%list (kv w) (versions w) (scheduled w) (clock w) (trace w).

Lemma createEmptyPost_run (w : World) :
  Js.regexLiteral (slugify "") = true ->
  (maxSuffixOf (slugify "") None (db w) <= Js.MAX_SAFE_INTEGER)%N ->
  let row := storedRow (db w) (clock w) (emptyDraft (emptySlug (db w))) in
  createEmptyPost w = (Ok (id row), addRow row w).
Proof.
  intros Hliteral Hsafe row. unfold createEmptyPost.
  rewrite (bind_run _ _ _ _ _
             (generateSlug_run w (mkGenerateSlugInput "" None) Hliteral Hsafe)).
  reflexivity.
Qed.

Lemma emptySlug_fresh (rows : list Post) (p : Post) :
  In p rows -> slug p <> emptySlug rows.
Proof.
  intros Hin. unfold emptySlug.
  destruct (slugTaken (slugify "") None rows) eqn:Etaken.
  - intros Heq.
    pose proof (numberedSuffix_numbered (slugify "")
                  (maxSuffixOf (slugify "") None rows + 1)) as Hm.
    rewrite <- Heq in Hm.
    pose proof (maxSuffixOf_upper _ None _ _ _ Hin eq_refl Hm). lia.
  - eapply slugTaken_false; [exact Etaken | exact Hin | reflexivity].
Qed.

Lemma similarSlugsOf_app (baseSlug : string) (rows : list Post) (row : Post) :
  similarSlugsOf baseSlug None (rows ++ [row])
  = (similarSlugsOf baseSlug None rows
     ++ if Js.startsWith (baseSlug ++ "-") (slug row) then [slug row] else [])%list.
Proof.
  unfold similarSlugsOf. rewrite List.filter_app, List.map_app. simpl.
  rewrite andb_true_r. destruct (Js.startsWith _ (slug row)); reflexivity.
Qed.

Lemma slugTaken_app (s : string) (rows : list Post) (row : Post) :
  slugTaken s None (rows ++ [row]) = slugTaken s None rows || String.eqb (slug row) s.
Proof.
  unfold slugTaken. rewrite existsb_app. simpl.
  rewrite andb_true_r, orb_false_r. reflexivity.
Qed.

(** After a row with the next numbered slug is added, the largest suffix is
    one more. *)
Lemma maxSuffixOf_next (baseSlug : string) (rows : list Post) (row : Post) :
  slug row = baseSlug ++ "-" ++ Js.natToString (maxSuffixOf baseSlug None rows + 1) ->
  maxSuffixOf baseSlug None (rows ++ [row])
  = (maxSuffixOf baseSlug None rows + 1)%N.
Proof.
  intros Hslug. unfold maxSuffixOf at 1. rewrite similarSlugsOf_app.
  pose proof (numberedSuffix_numbered baseSlug (maxSuffixOf baseSlug None rows + 1))
    as Hm. rewrite <- Hslug in Hm.
  rewrite (numberedSuffix_startsWith _ _ _ Hm), fold_left_app. simpl.
  fold (maxSuffixOf baseSlug None rows).
  unfold largest. rewrite Hm.
  destruct (N.ltb_spec (maxSuffixOf baseSlug None rows)
                       (maxSuffixOf baseSlug None rows + 1)); [reflexivity | lia].
Qed.

(** A row with the base slug itself does not count as a numbered variant. *)
Lemma maxSuffixOf_base (baseSlug : string) (rows : list Post) (row : Post) :
  slug row = baseSlug ->
  maxSuffixOf baseSlug None (rows ++ [row]) = maxSuffixOf baseSlug None rows.
Proof.
  intros Hslug. unfold maxSuffixOf at 1. rewrite similarSlugsOf_app, Hslug.
  unfold Js.startsWith. rewrite strip_longer_prefix by discriminate.
  rewrite app_nil_r. reflexivity.
Qed.

Lemma storedRow_slug (rows : list Post) (now : Z) (v : InsertPostInput) :
  slug (storedRow rows now v) = ins_slug v.
Proof. apply (storedRow_fields rows now v). Qed.

Definition numbered (baseSlug : string) (m : N) (i : nat) : string :=
  baseSlug ++ "-" ++ Js.natToString (m + N.of_nat i)%N.

Lemma createEmptyPost_numbered (k : nat) : forall w : World,
  Js.regexLiteral (slugify "") = true ->
  (maxSuffixOf (slugify "") None (db w) + N.of_nat k <= Js.MAX_SAFE_INTEGER)%N ->
  slugTaken (slugify "") None (db w) = true ->
  exists rows : list Post,
    repeatM k createEmptyPost w
    = (Ok (List.map id rows),
       mkWorld (db w ++ rows)%list (kv w) (versions w) (scheduled w) (clock w)
               (trace w)) /\
    List.map slug rows
    = List.map (numbered (slugify "") (maxSuffixOf (slugify "") None (db w)))
               (seq 1 k).
Proof.
  induction k as [|k IH]; intros w Hliteral Hsafe Htaken.
  - exists []. simpl. unfold ret. rewrite app_nil_r. destruct w; split; reflexivity.
  - set (row := storedRow (db w) (clock w) (emptyDraft (emptySlug (db w)))).
    assert (Hslug : slug row
              = slugify "" ++ "-"
                ++ Js.natToString (maxSuffixOf (slugify "") None (db w) + 1)).
    { unfold row. rewrite storedRow_slug. simpl. unfold emptySlug.
      rewrite Htaken. reflexivity. }
    assert (Hrun1 : createEmptyPost w = (Ok (id row), addRow row w))
      by (apply createEmptyPost_run; [exact Hliteral | lia]).
    destruct (IH (addRow row w)) as (rows & Hrun & Hslugs).
    { exact Hliteral. }
    { cbn [db addRow]. rewrite (maxSuffixOf_next _ _ _ Hslug). lia. }
    { simpl. rewrite slugTaken_app, Htaken. reflexivity. }
    exists (row :: rows). split.
    + cbn [repeatM]. rewrite (bind_run _ _ _ _ _ Hrun1).
      rewrite (bind_run _ _ _ _ _ Hrun).
      unfold ret. cbn [db kv versions scheduled clock trace addRow List.map].
      rewrite <- app_assoc. reflexivity.
    + cbn [List.map seq]. f_equal.
      * rewrite Hslug. reflexivity.
      * rewrite Hslugs. cbn [db addRow].
        rewrite (maxSuffixOf_next _ _ _ Hslug), <- (seq_shift k 1), map_map.
        apply map_ext. intros i. unfold numbered.
        replace (maxSuffixOf (slugify "") None (db w) + 1 + N.of_nat i)%N
          with (maxSuffixOf (slugify "") None (db w) + N.of_nat (S i))%N by lia.
        reflexivity.
Qed.

End EmptyPosts.

(** X2.  [createEmptyPost] adds exactly one row and touches nothing else: no
    cache entry, no version counter, no workflow instance, nothing handed to
    [waitUntil].  The row is an untitled draft without content whose slug is
    carried by no row that was there before, so a table whose slugs are
    pairwise distinct stays so; and being a draft, the row fails the public
    filter.  This holds when the base slug of the empty title has no
    character that is syntax in a regular expression and the numbers of its
    numbered variants are below [MAX_SAFE_INTEGER]. *)
Theorem createEmptyPost_unique_draft `{Collaborators} `{ContentTools} `{JsEngine}
    (w : World) :
  Js.regexLiteral (slugify "") = true ->
  (forall p digits n, In p (db w) -> slug p = slugify "" ++ "-" ++ digits ->
     Js.parseDigits digits = Some n -> (n < Js.MAX_SAFE_INTEGER)%N) ->
  exists row : Post,
    createEmptyPost w
    = (Ok (id row),
       mkWorld (db w ++ [row])%list (kv w) (versions w) (scheduled w) (clock w)
               (trace w)) /\
    title row = "" /\ status row = "draft" /\ contentJson row = None /\
    (forall p, In p (db w) -> slug p <> slug row) /\
    (NoDup (List.map slug (db w)) -> NoDup (List.map slug (db w ++ [row]))) /\
    eval_where (buildPostWhereClause (clock w) (publicOnlyOptions true)) row = false.
Proof.
  intros Hliteral Hsafe.
  assert (Hmax : (maxSuffixOf (slugify "") None (db w) <= Js.MAX_SAFE_INTEGER)%N).
  { apply maxSuffixOf_bounded. intros p digits n Hin _ Hslug Hn.
    apply N.lt_le_incl. eauto. }
  set (row := storedRow (db w) (clock w) (emptyDraft (emptySlug (db w)))).
  destruct (storedRow_fields (db w) (clock w) (emptyDraft (emptySlug (db w))))
    as (Ht & Hs & _ & Hst & _ & Hc). fold row in Ht, Hs, Hst, Hc.
  assert (Hfresh : forall p, In p (db w) -> slug p <> slug row).
  { intros p Hin. rewrite Hs. apply emptySlug_fresh, Hin. }
  exists row. split; [apply createEmptyPost_run; assumption|].
  split; [exact Ht|]. split; [exact Hst|]. split; [exact Hc|].
  split; [exact Hfresh|]. split.
  - intros Hnd. rewrite List.map_app. simpl.
    apply NoDup_app. split; [exact Hnd|]. split; [|apply NoDup_singleton].
    intros s Hin Hrow. apply list_elem_of_In in Hin, Hrow.
    destruct Hrow as [<-|[]]. apply in_map_iff in Hin as (p & Hp & Hin).
    exact (Hfresh p Hin Hp).
  - apply hidden_not_public. left. rewrite Hst. discriminate.
Qed.

(** A concrete set of content tools, to run these functions on examples. *)
Module DemoTools.

Definition nextId (rows : list Post) : Z :=
  1 + fold_right Z.max 0 (List.map id rows).

Definition row (rows : list Post) (now : Z) (v : InsertPostInput) : Post :=
  mkPost (nextId rows) (ins_title v) (ins_slug v) (ins_status v)
         (ins_contentJson v) (ins_summary v) None (ins_readTimeInMinutes v) [] now.

Definition tools : ContentTools.
Proof.
  refine {|
    generateTableOfContents := fun c => "toc of " ++ default "" c;
    highlightCodeBlocks := fun c => "highlighted " ++ c;
    convertToPlainText := fun c => default "" c;
    stringLength := fun s => Z.of_nat (String.length s);
    summarizeText := fun text => Ok ("About: " ++ substring 0 8 text);
    PostWithTocSchema := mkSchema _ (fun _ => None) (fun _ => "");
    storedRow := row;
    storedRow_fields := _
  |}.
  intros rows now v. repeat split.
Defined.

End DemoTools.

(** X3.  Successive calls of [createEmptyPost] number their slugs in order.
    Let the base slug of the empty title have no character that is syntax in
    a regular expression, and let [m] be the largest number written by the
    digits of a slug [base-<digits>] in the table, zero when there is none.
    If a row holds the base slug, [k] calls add rows with the slugs
    [base-(m+1)], ..., [base-(m+k)]; if none does, the first call takes the
    base slug and the following ones continue with [base-(m+1)],
    [base-(m+2)], ...  Nothing but the table changes.  The numbers stay
    below [MAX_SAFE_INTEGER]. *)
Theorem createEmptyPost_sequence `{Collaborators} `{ContentTools} `{JsEngine}
    (w : World) (k : nat) (m : N) :
  let baseSlug := slugify "" in
  let numberedSlugs n :=
    List.map (fun i => baseSlug ++ "-" ++ Js.natToString (m + N.of_nat i)%N)
             (seq 1 n) in
  Js.regexLiteral baseSlug = true ->
  (forall p digits n, In p (db w) -> slug p = baseSlug ++ "-" ++ digits ->
     Js.parseDigits digits = Some n -> (n <= m)%N) ->
  (m = 0%N \/
   exists p digits, In p (db w) /\ slug p = baseSlug ++ "-" ++ digits /\
                    Js.parseDigits digits = Some m) ->
  (m + N.of_nat k < Js.MAX_SAFE_INTEGER)%N ->
  exists rows : list Post,
    repeatM k createEmptyPost w
    = (Ok (List.map id rows),
       mkWorld (db w ++ rows)%list (kv w) (versions w) (scheduled w) (clock w)
               (trace w)) /\
    ((exists p, In p (db w) /\ slug p = baseSlug) ->
     List.map slug rows = numberedSlugs k) /\
    ((forall p, In p (db w) -> slug p <> baseSlug) ->
     List.map slug rows
     = match k with
       | O => []
       | S k' => baseSlug :: numberedSlugs k'
       end).
Proof.
  intros baseSlug numberedSlugs Hliteral Hub Hwit Hsafe.
  assert (Hmax : maxSuffixOf baseSlug None (db w) = m).
  { apply maxSuffixOf_unique.
    - intros p digits n Hin _. apply Hub, Hin.
    - destruct Hwit as [->|(p & digits & Hin & Hslug & Hn)]; [now left|].
      right. exists p, digits. repeat split; assumption. }
  destruct (slugTaken baseSlug None (db w)) eqn:Etaken.
  - destruct (createEmptyPost_numbered k w Hliteral) as (rows & Hrun & Hslugs);
      [fold baseSlug; rewrite Hmax; lia | exact Etaken |].
    fold baseSlug in Hslugs. rewrite Hmax in Hslugs.
    exists rows. split; [exact Hrun|]. split; [intros _; exact Hslugs|].
    intros Hfree. apply slugTaken_true in Etaken as (p & Hin & _ & Hslug).
    now destruct (Hfree p Hin).
  - assert (Hfree : ~ exists p, In p (db w) /\ slug p = baseSlug).
    { intros (p & Hin & Hslug).
      exact (slugTaken_false _ _ _ p Etaken Hin eq_refl Hslug). }
    destruct k as [|k'].
    + exists []. simpl. unfold ret. rewrite app_nil_r.
      destruct w; repeat split.
    + set (row := storedRow (db w) (clock w) (emptyDraft (emptySlug (db w)))).
      assert (Hslug : slug row = baseSlug).
      { unfold row. rewrite storedRow_slug. simpl. unfold emptySlug.
        fold baseSlug. rewrite Etaken. reflexivity. }
      assert (Hrun1 : createEmptyPost w = (Ok (id row), addRow row w)).
      { apply createEmptyPost_run; [exact Hliteral|].
        fold baseSlug. rewrite Hmax. lia. }
      destruct (createEmptyPost_numbered k' (addRow row w) Hliteral)
        as (rows & Hrun & Hslugs).
      { cbn [db addRow]. fold baseSlug.
        rewrite (maxSuffixOf_base _ _ _ Hslug), Hmax. lia. }
      { simpl. rewrite slugTaken_app. fold baseSlug.
        rewrite Hslug, String.eqb_refl, orb_true_r. reflexivity. }
      exists (row :: rows). split; [|split].
      * cbn [repeatM]. rewrite (bind_run _ _ _ _ _ Hrun1).
        rewrite (bind_run _ _ _ _ _ Hrun).
        unfold ret. cbn [db kv versions scheduled clock trace addRow List.map].
        rewrite <- app_assoc. reflexivity.
      * intros Htaken. now destruct Hfree.
      * intros _. cbn [List.map]. rewrite Hslug, Hslugs. cbn [db addRow].
        fold baseSlug. rewrite (maxSuffixOf_base _ _ _ Hslug), Hmax. reflexivity.
Qed.

Lemma createEmptyPost_sequence_witness :
  let w := Demo.world [Demo.post 1 "" "draft" None;
                       Demo.post 2 "-4" "draft" None] [] 0 in
  exists rows : list Post,
    repeatM 3 (createEmptyPost (H := Demo.collaborators) (H0 := DemoTools.tools)
                 (H1 := DemoEngine.engine)) w
    = (Ok (List.map id rows),
       mkWorld (db w ++ rows)%list (kv w) (versions w) (scheduled w) (clock w)
               (trace w)) /\
    List.map slug rows = ["-5"; "-6"; "-7"].
Proof.
  intros w.
  destruct (createEmptyPost_sequence (H := Demo.collaborators) (H0 := DemoTools.tools)
              (H1 := DemoEngine.engine) w 3 4%N)
    as (rows & Hrun & Htaken & _).
  - reflexivity.
  - intros p digits n [<-|[<-|[]]] Hslug Hn; vm_compute in Hslug;
      try discriminate; injection Hslug as <-; vm_compute in Hn;
      injection Hn as <-; apply N.le_refl.
  - right. exists (Demo.post 2 "-4" "draft" None), "4".
    split; [right; now left | split; reflexivity].
  - vm_compute. reflexivity.
  - exists rows. split; [exact Hrun|].
    apply Htaken. exists (Demo.post 1 "" "draft" None).
    split; [now left | reflexivity].
Defined.

Lemma createEmptyPost_unique_draft_witness :
  let w := Demo.world [Demo.post 1 "" "draft" None;
                       Demo.post 2 "-4" "draft" None] [] 0 in
  exists row : Post,
    createEmptyPost (H := Demo.collaborators) (H0 := DemoTools.tools)
      (H1 := DemoEngine.engine) w
    = (Ok (id row),
       mkWorld (db w ++ [row])%list (kv w) (versions w) (scheduled w) (clock w)
               (trace w)) /\
    title row = "" /\ status row = "draft" /\ contentJson row = None /\
    (forall p, In p (db w) -> slug p <> slug row) /\
    (NoDup (List.map slug (db w)) -> NoDup (List.map slug (db w ++ [row]))) /\
    eval_where (H := Demo.collaborators)
      (buildPostWhereClause (H := Demo.collaborators) (clock w) (publicOnlyOptions true))
      row = false.
Proof.
  intros w.
  apply (createEmptyPost_unique_draft (H := Demo.collaborators) (H0 := DemoTools.tools)
           (H1 := DemoEngine.engine) w).
  - reflexivity.
  - intros p digits n [<-|[<-|[]]] Hslug Hn; vm_compute in Hslug;
      try discriminate; injection Hslug as <-; vm_compute in Hn;
      injection Hn as <-; reflexivity.
Defined.

(** ** The where clause of [buildPostWhereClause] *)

Section WhereClause.
Context `{Collaborators}.

Lemma truthy_true (s : string) : Js.truthy s = true <-> s <> "".
Proof. destruct s; simpl; split; congruence. Qed.

Lemma truthy_false (s : string) : Js.truthy s = false <-> s = "".
Proof. destruct s; simpl; split; congruence. Qed.

(** The three conditions, one per option. *)
Definition statusAsked (options : WhereOptions) (p : Post) : Prop :=
  forall s, opt_status options = Some s -> s <> "" -> status p = s.

Definition publicAsked (now : Z) (options : WhereOptions) (p : Post) : Prop :=
  opt_publicOnly options = Some true ->
  status p = "published" /\
  exists t, publishedAt p = Some t /\ t <= getCurrentMinuteEnd now.

Definition searchAsked (options : WhereOptions) (p : Post) : Prop :=
  forall q, opt_search options = Some q -> q <> "" -> trim q <> "" ->
            sqlLike (title p) ("%" ++ trim q ++ "%") = true.

Lemma statusAsked_spec (options : WhereOptions) (p : Post) :
  statusAsked options p <->
  match opt_status options with
  | Some s => if Js.truthy s then String.eqb (status p) s = true else True
  | None => True
  end.
Proof.
  unfold statusAsked. destruct (opt_status options) as [s|].
  - destruct (Js.truthy s) eqn:Es.
    + apply truthy_true in Es. rewrite String.eqb_eq. split.
      * intros Hs. apply Hs; [reflexivity | exact Es].
      * intros Hs s' [= <-] _. exact Hs.
    + apply truthy_false in Es. split; [auto|]. intros _ s' [= <-] Hne. contradiction.
  - split; [auto|]. intros _ s' [=].
Qed.

Lemma publicAsked_spec (now : Z) (options : WhereOptions) (p : Post) :
  publicAsked now options p <->
  match opt_publicOnly options with
  | Some true =>
      String.eqb (status p) "published"
      && match publishedAt p with
         | Some d => d <=? getCurrentMinuteEnd now
         | None => false
         end = true
  | _ => True
  end.
Proof.
  unfold publicAsked. destruct (opt_publicOnly options) as [[|]|].
  - rewrite andb_true_iff, String.eqb_eq. split.
    + intros Hp. destruct (Hp eq_refl) as (Hs & t & Ht & Hle).
      rewrite Ht. split; [exact Hs|]. apply Z.leb_le, Hle.
    + intros [Hs Hd] _. split; [exact Hs|].
      destruct (publishedAt p) as [d|]; [|discriminate].
      exists d. split; [reflexivity|]. apply Z.leb_le, Hd.
  - split; [auto|]. intros _ [=].
  - split; [auto|]. intros _ [=].
Qed.

Lemma searchAsked_spec (options : WhereOptions) (p : Post) :
  searchAsked options p <->
  match opt_search options with
  | Some q =>
      if Js.truthy q then
        if Js.truthy (trim q)
        then sqlLike (title p) ("%" ++ trim q ++ "%") = true
        else True
      else True
  | None => True
  end.
Proof.
  unfold searchAsked. destruct (opt_search options) as [q|].
  - destruct (Js.truthy q) eqn:Eq.
    + apply truthy_true in Eq. destruct (Js.truthy (trim q)) eqn:Et.
      * apply truthy_true in Et. split.
        -- intros Hq. apply Hq; [reflexivity | exact Eq | exact Et].
        -- intros Hq q' [= <-] _ _. exact Hq.
      * apply truthy_false in Et. split; [auto|].
        intros _ q' [= <-] _ Hne. contradiction.
    + apply truthy_false in Eq. split; [auto|].
      intros _ q' [= <-] Hne. contradiction.
  - split; [auto|]. intros _ q' [=].
Qed.

Lemma eval_where_clauses (clauses : list Cond) (p : Post) :
  eval_where (if (0 <? length clauses)%nat then Some clauses else None) p
  = forallb (fun c => eval_cond c p) clauses.
Proof. destruct clauses; reflexivity. Qed.

End WhereClause.

Lemma where_clause_passes `{Collaborators}
    (now : Z) (options : WhereOptions) (p : Post) :
  eval_where (buildPostWhereClause now options) p = true <->
  statusAsked options p /\ publicAsked now options p /\ searchAsked options p.
Proof.
  rewrite statusAsked_spec, publicAsked_spec, searchAsked_spec.
  unfold buildPostWhereClause. rewrite eval_where_clauses.
  destruct (opt_status options) as [s|]; [destruct (Js.truthy s)|];
    (destruct (opt_publicOnly options) as [[|]|]);
    (destruct (opt_search options) as [q|];
       [destruct (Js.truthy q); [destruct (Js.truthy (trim q))|]|]);
    cbn [app forallb eval_cond];
    rewrite ?andb_true_r, ?andb_true_iff; tauto.
Qed.

(** X4.  What the clause of [buildPostWhereClause] lets through, for every
    combination of options: a row passes exactly when it has the status asked
    for (an absent or empty status asks nothing), when, if [publicOnly] is
    set, it is published and dated no later than the end of the current
    minute, and when, if the search text is not blank, its title is [LIKE]
    the trimmed text between two [%]. *)
Theorem buildPostWhereClause_passes `{Collaborators}
    (now : Z) (options : WhereOptions) (p : Post) :
  eval_where (buildPostWhereClause now options) p = true <->
  (forall s, opt_status options = Some s -> s <> "" -> status p = s) /\
  (opt_publicOnly options = Some true ->
   status p = "published" /\
   exists t, publishedAt p = Some t /\ t <= getCurrentMinuteEnd now) /\
  (forall q, opt_search options = Some q -> q <> "" -> trim q <> "" ->
             sqlLike (title p) ("%" ++ trim q ++ "%") = true).
Proof. exact (where_clause_passes now options p). Qed.

Section WhereClauseParts.
Context `{Collaborators}.

(** What each option pushes onto [whereClauses]. *)
Definition statusClauses (options : WhereOptions) : list Cond :=
  match opt_status options with
  | Some s => if Js.truthy s then [EqStatus s] else []
  | None => []
  end.

Definition publicClauses (now : Z) (options : WhereOptions) : list Cond :=
  match opt_publicOnly options with
  | Some true => [EqStatus "published"; LtePublishedAt (getCurrentMinuteEnd now)]
  | _ => []
  end.

Definition searchClauses (options : WhereOptions) : list Cond :=
  match opt_search options with
  | Some q =>
      if Js.truthy q then
        if Js.truthy (trim q) then [LikeTitle ("%" ++ trim q ++ "%")] else []
      else []
  | None => []
  end.

Lemma buildPostWhereClause_parts (now : Z) (options : WhereOptions) :
  buildPostWhereClause now options
  = let clauses :=
      (statusClauses options ++ publicClauses now options ++ searchClauses options)%list in
    match clauses with
    | [] => None
    | _ => Some clauses
    end.
Proof.
  unfold buildPostWhereClause, statusClauses, publicClauses, searchClauses.
  destruct (opt_status options) as [s|]; [destruct (Js.truthy s)|];
    (destruct (opt_publicOnly options) as [[|]|]);
    (destruct (opt_search options) as [q|];
       [destruct (Js.truthy q); [destruct (Js.truthy (trim q))|]|]);
    reflexivity.
Qed.

Lemma statusClauses_nil (options : WhereOptions) :
  statusClauses options = [] <->
  opt_status options = None \/ opt_status options = Some "".
Proof.
  unfold statusClauses. destruct (opt_status options) as [s|].
  - destruct (Js.truthy s) eqn:Es.
    + apply truthy_true in Es. split; [discriminate|].
      intros [|[= ->]]; [discriminate | contradiction].
    + apply truthy_false in Es. subst s. split; auto.
  - split; auto.
Qed.

Lemma publicClauses_nil (now : Z) (options : WhereOptions) :
  publicClauses now options = [] <-> opt_publicOnly options <> Some true.
Proof.
  unfold publicClauses. destruct (opt_publicOnly options) as [[|]|];
    split; congruence.
Qed.

Lemma searchClauses_nil (options : WhereOptions) :
  searchClauses options = [] <->
  opt_search options = None \/
  exists q, opt_search options = Some q /\ (q = "" \/ trim q = "").
Proof.
  unfold searchClauses. destruct (opt_search options) as [q|].
  - destruct (Js.truthy q) eqn:Eq.
    + apply truthy_true in Eq. destruct (Js.truthy (trim q)) eqn:Et.
      * apply truthy_true in Et. split; [discriminate|].
        intros [|(q' & [= <-] & [|])]; [discriminate | contradiction ..].
      * apply truthy_false in Et. split; [|reflexivity].
        intros _. right. exists q. auto.
    + apply truthy_false in Eq. split; [|reflexivity].
      intros _. right. exists q. auto.
  - split; auto.
Qed.

End WhereClauseParts.

(** X5.  [buildPostWhereClause] answers [undefined], a query without filter
    that every row passes, exactly when no option is in effect: the status is
    absent or empty, [publicOnly] is not true, and the search text is absent,
    empty or blank.  A blank search text is the same as none. *)
Theorem buildPostWhereClause_undefined `{Collaborators}
    (now : Z) (options : WhereOptions) :
  (buildPostWhereClause now options = None <->
   (opt_status options = None \/ opt_status options = Some "") /\
   opt_publicOnly options <> Some true /\
   (opt_search options = None \/
    exists q, opt_search options = Some q /\ (q = "" \/ trim q = ""))) /\
  (buildPostWhereClause now options = None ->
   forall p, eval_where (buildPostWhereClause now options) p = true) /\
  (forall q, opt_search options = Some q -> trim q = "" ->
     buildPostWhereClause now options
     = buildPostWhereClause now
         (mkWhereOptions (opt_status options) (opt_publicOnly options) None)).
Proof.
  split; [|split].
  - rewrite buildPostWhereClause_parts. cbv zeta.
    rewrite <- statusClauses_nil, <- (publicClauses_nil now), <- searchClauses_nil.
    destruct (statusClauses options ++ publicClauses now options
              ++ searchClauses options)%list eqn:E.
    + apply app_eq_nil in E as [E1 E]. apply app_eq_nil in E as [E2 E3].
      tauto.
    + split; [discriminate|]. intros (E1 & E2 & E3).
      rewrite E1, E2, E3 in E. discriminate.
  - intros ->. reflexivity.
  - intros q Hq Ht. rewrite !buildPostWhereClause_parts.
    assert (Hs : searchClauses options = []).
    { apply searchClauses_nil. right. exists q. auto. }
    rewrite Hs. reflexivity.
Qed.

(** X6.  Asking for a status other than ["published"] together with
    [publicOnly] yields a clause no row can pass: it demands both statuses at
    once.  Asking for ["published"] together with [publicOnly] adds nothing
    to [publicOnly] alone. *)
Theorem status_with_publicOnly `{Collaborators}
    (now : Z) (options : WhereOptions) (s : PostStatus) (p : Post) :
  opt_status options = Some s -> s <> "" ->
  opt_publicOnly options = Some true ->
  (s <> "published" -> eval_where (buildPostWhereClause now options) p = false) /\
  (s = "published" ->
   eval_where (buildPostWhereClause now options) p
   = eval_where (buildPostWhereClause now
                   (mkWhereOptions None (Some true) (opt_search options))) p).
Proof.
  intros Hs Hne Hp. split.
  - intros Hdiff. apply not_true_is_false. intros Hpass.
    apply where_clause_passes in Hpass as (Hst & Hpub & _).
    destruct (Hpub Hp) as [Hpublished _].
    rewrite (Hst s Hs Hne) in Hpublished. contradiction.
  - intros ->. apply eq_true_iff_eq. rewrite !where_clause_passes.
    unfold statusAsked, publicAsked, searchAsked. cbn [opt_status opt_publicOnly
      opt_search]. split.
    + intros (_ & Hpub & Hq). split; [intros ? [=]|]. split; [intros _; auto | exact Hq].
    + intros (_ & Hpub & Hq). split; [|split; [intros _; auto | exact Hq]].
      intros s' Hs' _. rewrite Hs in Hs'. injection Hs' as <-.
      apply (Hpub eq_refl).
Qed.

Lemma status_with_publicOnly_witness :
  let options := mkWhereOptions (Some "draft") (Some true) None in
  let p := Demo.post 1 "a" "draft" None in
  ("draft" <> "published" ->
   eval_where (H := Demo.collaborators)
     (buildPostWhereClause (H := Demo.collaborators) 0 options) p = false) /\
  ("draft" = "published" ->
   eval_where (H := Demo.collaborators)
     (buildPostWhereClause (H := Demo.collaborators) 0 options) p
   = eval_where (H := Demo.collaborators)
       (buildPostWhereClause (H := Demo.collaborators) 0
          (mkWhereOptions None (Some true) None)) p).
Proof.
  intros options p.
  apply (status_with_publicOnly (H := Demo.collaborators) 0 options "draft" p);
    [reflexivity | discriminate | reflexivity].
Defined.

(** ** [isFuturePublishDate] *)

(** X7.  For a timestamp written by [toISOString], [isFuturePublishDate] is
    true exactly when the timestamp is strictly later than the clock: the
    present instant is not in the future.  The [_clientToday] argument has no
    effect, and a timestamp that is not in the future at some time is not in
    the future at any later time. *)
Theorem isFuturePublishDate_strict `{Collaborators}
    (t now : Z) (today today' : option string) :
  (isFuturePublishDate (toISOString t) today now = true <-> now < t) /\
  isFuturePublishDate (toISOString now) today now = false /\
  (forall s, isFuturePublishDate s today now = isFuturePublishDate s today' now) /\
  (forall s later, now <= later ->
     isFuturePublishDate s today now = false ->
     isFuturePublishDate s today later = false).
Proof.
  split; [|split; [|split]].
  - rewrite isFuturePublishDate_toISOString. apply Z.ltb_lt.
  - rewrite isFuturePublishDate_toISOString. apply Z.ltb_irrefl.
  - reflexivity.
  - intros s later Hle. unfold isFuturePublishDate.
    destruct (dateParse s) as [d|]; [|reflexivity].
    rewrite !Z.ltb_ge. lia.
Qed.

(** ** Deleting, once the cleanup has run *)

Section Cleanup.

(** The change a task makes to the world. *)
Definition exec_task (t : Task) (w : World) : World :=
  match t with
  | DeleteKey key => set_kv (delete key) w
  | BumpVersion ns =>
      set_versions (fun vs => <[ns := (default 1%N (vs !! ns) + 1)%N]> vs) w
  | DeleteIndex _ | PurgeCDN _ | SyncPostMedia _ _ => w
  end.

Lemma run_task_exec (t : Task) (w : World) : run_task t w = (Ok tt, exec_task t w).
Proof. destruct t; reflexivity. Qed.

Lemma run_tasks_exec (ts : list Task) (w : World) :
  run_tasks ts w = (Ok tt, fold_left (fun u t => exec_task t u) ts w).
Proof.
  revert w. induction ts as [|t ts IH]; intros w; [reflexivity|].
  cbn [run_tasks fold_left]. rewrite (bind_run _ _ _ _ _ (run_task_exec t w)).
  apply IH.
Qed.

Lemma exec_task_comm (a b : Task) (w : World) :
  exec_task a (exec_task b w) = exec_task b (exec_task a w).
Proof.
  destruct a as [ka|na| | |], b as [kb|nb| | |]; try reflexivity.
  - unfold exec_task, set_kv. cbn [db kv versions scheduled clock trace].
    rewrite delete_delete. reflexivity.
  - unfold exec_task, set_versions. cbn [db kv versions scheduled clock trace].
    destruct (decide (na = nb)) as [->|Hne]; [reflexivity|].
    rewrite !lookup_insert_ne by congruence.
    rewrite insert_insert_ne by congruence. reflexivity.
Qed.

(** The tasks of a batch may complete in any order: the outcome is the same. *)
Lemma exec_tasks_perm (ts ts' : list Task) :
  Permutation ts ts' ->
  forall w, fold_left (fun u t => exec_task t u) ts w
            = fold_left (fun u t => exec_task t u) ts' w.
Proof.
  induction 1 as [|t ts ts' _ IH|a b ts|ts ts' ts'' _ IH1 _ IH2]; intros w.
  - reflexivity.
  - cbn [fold_left]. apply IH.
  - cbn [fold_left]. rewrite exec_task_comm. reflexivity.
  - rewrite IH1. apply IH2.
Qed.

Lemma deletePost_run (w : World) (postId : Z) (post : Post) :
  List.find (fun p => id p =? postId) (db w) = Some post ->
  deletePost postId w
  = if String.eqb (status post) "published" then
      (Ok tt,
       mkWorld (List.filter (fun p => negb (id p =? postId)) (db w)) (kv w)
         (match versions w !! "posts:detail" with
          | Some _ => versions w
          | None => <["posts:detail" := 1%N]> (versions w)
          end)
         (scheduled w) (clock w)
         (trace w ++
            [RepoDelete postId;
             WaitUntil (PromiseAll
               [DeleteKey (POSTS_CACHE_KEYS.detail
                             (default 1%N (versions w !! "posts:detail")) (slug post));
                BumpVersion "posts:list";
                DeleteIndex postId;
                PurgeCDN (slug post);
                DeleteKey (POSTS_CACHE_KEYS.syncHash postId)])]))
    else
      (Ok tt,
       mkWorld (List.filter (fun p => negb (id p =? postId)) (db w)) (kv w)
         (versions w) (scheduled w) (clock w)
         (trace w ++
            [RepoDelete postId;
             WaitUntil (Call (DeleteKey (POSTS_CACHE_KEYS.syncHash postId)))])).
Proof.
  intros Hfind. unfold deletePost, bind, PostRepo.findPostById. rewrite Hfind.
  unfold PostRepo.deletePost, modify.
  destruct (String.eqb (status post) "published").
  - unfold CacheService.getVersion. cbn [versions emit set_db].
    destruct (versions w !! "posts:detail") as [v|]; simpl;
      unfold waitUntil, modify, emit, set_versions; simpl;
      rewrite <- app_assoc; reflexivity.
  - unfold waitUntil, modify, emit, set_db. simpl.
    rewrite <- app_assoc. reflexivity.
Qed.

(** [deletePost] followed by its cleanup, whatever the order of completion. *)
Lemma deletePost_settled (w : World) (postId : Z) (post : Post)
    (order : list Task -> list Task) :
  (forall ts, Permutation (order ts) ts) ->
  List.find (fun p => id p =? postId) (db w) = Some post ->
  let w' := snd (settled (deletePost postId) order w) in
  db w' = List.filter (fun p => negb (id p =? postId)) (db w) /\
  clock w' = clock w /\ scheduled w' = scheduled w /\
  kv w' = (if String.eqb (status post) "published"
           then delete (POSTS_CACHE_KEYS.syncHash postId)
                  (delete (POSTS_CACHE_KEYS.detail
                             (default 1%N (versions w !! "posts:detail")) (slug post))
                          (kv w))
           else delete (POSTS_CACHE_KEYS.syncHash postId) (kv w)) /\
  versions w' = (if String.eqb (status post) "published"
                 then <["posts:list" :=
                          (default 1%N (versions w !! "posts:list") + 1)%N]>
                        (match versions w !! "posts:detail" with
                         | Some _ => versions w
                         | None => <["posts:detail" := 1%N]> (versions w)
                         end)
                 else versions w).
Proof.
  intros Horder Hfind w'. subst w'. unfold settled.
  rewrite (deletePost_run w postId post Hfind).
  destruct (String.eqb (status post) "published");
    (erewrite newEvents_app by reflexivity);
    cbn [deferredTasks tasksOf app snd];
    rewrite run_tasks_exec, (exec_tasks_perm _ _ (Horder _));
    cbn [snd fold_left exec_task set_kv set_versions db kv versions scheduled
         clock trace];
    repeat split.
  destruct (versions w !! "posts:detail") as [v|] eqn:Ev; [reflexivity|].
  rewrite lookup_insert_ne by discriminate. reflexivity.
Qed.

End Cleanup.

Section PublicReads.
Context `{Collaborators} `{ContentTools}.

(** The detail the fetcher of [findPostBySlug] makes of a row. *)
Definition detailOf (p : Post) : PostWithToc :=
  mkPostWithToc
    (with_contentJson (option_map highlightCodeBlocks (contentJson p)) p)
    (generateTableOfContents (contentJson p)).

Definition publicClause (now : Z) : option (list Cond) :=
  buildPostWhereClause now (publicOnlyOptions true).

(** What [findPostBySlug] answers: the cached detail if there is a valid one
    under the key of the current version, the freshly fetched one otherwise. *)
Lemma findPostBySlug_answer (s : string) (w : World) :
  fst (findPostBySlug s w)
  = match kv w !! POSTS_CACHE_KEYS.detail
                    (default 1%N (versions w !! "posts:detail")) s
          ≫= parse PostWithTocSchema with
    | Some r => Ok r
    | None =>
        Ok (option_map detailOf
              (List.find (fun p => String.eqb (slug p) s
                                   && eval_where (publicClause (clock w)) p)
                         (db w)))
    end.
Proof.
  unfold findPostBySlug, bind, CacheService.getVersion, CacheService.get.
  destruct (versions w !! "posts:detail") as [v|]; cbn [default kv set_versions];
    (destruct (kv w !! _ ≫= parse PostWithTocSchema) as [r|]; [reflexivity|]);
    unfold bind, PostRepo.findPostBySlug, CacheService.put, modify, ret;
    cbn [db clock set_versions];
    (destruct (List.find _ (db w)) as [p|]; [|reflexivity]);
    cbn [option_map fst]; unfold detailOf; destruct (contentJson p); reflexivity.
Qed.

Lemma getPostsCursor_answer (data : GetPostsCursorInput) (w : World) :
  fst (getPostsCursor data w)
  = match kv w !! POSTS_CACHE_KEYS.list
                    (default 1%N (versions w !! "posts:list"))
                    (default 10 (gpc_limit data)) (default 0 (gpc_cursor data))
                    (default "all" (gpc_tagName data))
          ≫= parse PostListResponseSchema with
    | Some r => Ok r
    | None =>
        Ok (paginate (gpc_cursor data) (gpc_limit data) (gpc_tagName data)
              (List.filter (eval_where (publicClause (clock w))) (db w)))
    end.
Proof.
  unfold getPostsCursor, bind, CacheService.getVersion, CacheService.get.
  destruct (versions w !! "posts:list") as [v|]; cbn [default kv set_versions];
    (destruct (kv w !! _ ≫= parse PostListResponseSchema) as [r|]; reflexivity).
Qed.

Lemma find_none_filtered (f g : Post -> bool) (rows : list Post) :
  (forall p, In p rows -> f p = true -> g p = false) ->
  List.find f (List.filter g rows) = None.
Proof.
  intros Hfg. induction rows as [|p rows IH]; [reflexivity|]. simpl.
  destruct (g p) eqn:Eg.
  - simpl. destruct (f p) eqn:Ef.
    + rewrite (Hfg p (or_introl eq_refl) Ef) in Eg. discriminate.
    + apply IH. intros q Hq. apply Hfg. now right.
  - apply IH. intros q Hq. apply Hfg. now right.
Qed.

Lemma filter_filter_within {A} (f g : A -> bool) (l : list A) :
  (forall x, In x l -> f x = true -> g x = true) ->
  List.filter f (List.filter g l) = List.filter f l.
Proof.
  intros Hfg. induction l as [|x l IH]; simpl; [reflexivity|].
  assert (IH' : List.filter f (List.filter g l) = List.filter f l).
  { apply IH. intros y Hy. apply Hfg. now right. }
  destruct (g x) eqn:Eg; simpl; rewrite IH'; [reflexivity|].
  destruct (f x) eqn:Ef; [|reflexivity].
  rewrite (Hfg x (or_introl eq_refl) Ef) in Eg. discriminate.
Qed.

Lemma find_filter_within (f g : Post -> bool) (l : list Post) :
  (forall x, In x l -> f x = true -> g x = true) ->
  List.find f (List.filter g l) = List.find f l.
Proof.
  intros Hfg. induction l as [|x l IH]; simpl; [reflexivity|].
  assert (IH' : List.find f (List.filter g l) = List.find f l).
  { apply IH. intros y Hy. apply Hfg. now right. }
  destruct (g x) eqn:Eg; simpl; destruct (f x) eqn:Ef; try exact IH'; try reflexivity.
  rewrite (Hfg x (or_introl eq_refl) Ef) in Eg. discriminate.
Qed.

End PublicReads.

Lemma syncHash_key_not_list (x y : string) :
  "posts:sync-hash:" ++ x <> "posts:list:" ++ y.
Proof. intros E. apply (f_equal (String.get 6)) in E. cbv in E. discriminate. Qed.

Lemma syncHash_key_not_detail (x y : string) :
  "posts:sync-hash:" ++ x <> "posts:detail:" ++ y.
Proof. intros E. apply (f_equal (String.get 6)) in E. cbv in E. discriminate. Qed.

(** X8.  When the cache holds no valid detail under the key of the current
    version, [findPostBySlug] reads the table: it answers [null] when no
    public row has the slug, and otherwise the first public row with that
    slug, which is published and dated no later than the end of the current
    minute.  The content it returns is the highlighted one, while the table
    of contents is computed from the stored content; a row without content
    stays without.  The table is not changed. *)
Theorem findPostBySlug_fetches_public `{Collaborators} `{ContentTools}
    (s : string) (w : World) :
  kv w !! POSTS_CACHE_KEYS.detail (default 1%N (versions w !! "posts:detail")) s
    ≫= parse PostWithTocSchema = None ->
  exists (r : option PostWithToc) (w' : World),
    findPostBySlug s w = (Ok r, w') /\ db w' = db w /\
    match r with
    | None =>
        forall p, In p (db w) -> slug p = s ->
                  status p <> "published" \/
                  forall t, publishedAt p = Some t -> getCurrentMinuteEnd (clock w) < t
    | Some d =>
        exists p, In p (db w) /\ slug p = s /\ status p = "published" /\
                  (exists t, publishedAt p = Some t /\
                             t <= getCurrentMinuteEnd (clock w)) /\
                  pt_toc d = generateTableOfContents (contentJson p) /\
                  contentJson (pt_post d)
                  = option_map highlightCodeBlocks (contentJson p) /\
                  with_contentJson (contentJson p) (pt_post d) = p
    end.
Proof.
  intros Hmiss.
  pose proof (findPostBySlug_answer s w) as Hans. rewrite Hmiss in Hans.
  assert (Hdb : db (snd (findPostBySlug s w)) = db w).
  { unfold findPostBySlug, bind, CacheService.getVersion, CacheService.get.
    destruct (versions w !! "posts:detail") as [v|];
      [change (default 1%N (Some v)) with v in Hmiss
      |change (default 1%N None) with 1%N in Hmiss];
      cbn [kv set_versions]; rewrite Hmiss;
      unfold bind, PostRepo.findPostBySlug, CacheService.put, modify, ret;
      cbn [db clock set_versions];
      (destruct (List.find _ (db w)) as [p|]; reflexivity). }
  destruct (findPostBySlug s w) as [r' w'] eqn:Erun. cbn [fst snd] in *.
  subst r'. eexists. exists w'. split; [reflexivity|]. split; [exact Hdb|].
  destruct (List.find _ (db w)) as [p|] eqn:Efind; cbn [option_map].
  - apply find_some in Efind as [Hin Hp].
    apply andb_prop in Hp as [Hs Hpub]. apply String.eqb_eq in Hs.
    apply public_where_iff in Hpub as [Hst Hdate].
    exists p. repeat split; try assumption. destruct p; reflexivity.
  - intros p Hin Hs.
    pose proof (find_none _ _ Efind p Hin) as Hn. cbn beta in Hn.
    rewrite Hs, String.eqb_refl in Hn. cbn [andb] in Hn.
    destruct (String.eqb_spec (status p) "published") as [Hst|Hst]; [|now left].
    right. intros t Ht.
    destruct (Z.le_gt_cases t (getCurrentMinuteEnd (clock w))) as [Hle|Hgt];
      [|lia].
    assert (Hpub : eval_where (publicClause (clock w)) p = true).
    { apply public_where_iff. split; [exact Hst|]. exists t. auto. }
    congruence.
Qed.

Lemma findPostBySlug_fetches_public_witness :
  let p := mkPost 2 "B" "b" "published" (Some "doc") None (Some 0) 1 [] 0 in
  let w := Demo.world [Demo.post 1 "b" "draft" None; p] [] 10000 in
  exists (r : option PostWithToc) (w' : World),
    findPostBySlug (H := Demo.collaborators) (H0 := DemoTools.tools) "b" w = (Ok r, w')
    /\ db w' = db w /\
    match r with
    | None =>
        forall q, In q (db w) -> slug q = "b" ->
                  status q <> "published" \/
                  forall t, publishedAt q = Some t -> getCurrentMinuteEnd (clock w) < t
    | Some d =>
        exists q, In q (db w) /\ slug q = "b" /\ status q = "published" /\
                  (exists t, publishedAt q = Some t /\
                             t <= getCurrentMinuteEnd (clock w)) /\
                  pt_toc d = "toc of " ++ default "" (contentJson q) /\
                  contentJson (pt_post d)
                  = option_map (fun c => "highlighted " ++ c) (contentJson q) /\
                  with_contentJson (contentJson q) (pt_post d) = q
    end.
Proof.
  intros p w.
  apply (findPostBySlug_fetches_public (H := Demo.collaborators)
           (H0 := DemoTools.tools) "b" w).
  reflexivity.
Defined.

Example findPostBySlug_skips_draft_with_same_slug :
  fst (findPostBySlug (H := Demo.collaborators) (H0 := DemoTools.tools) "b"
         (Demo.world [Demo.post 1 "b" "draft" None;
                      mkPost 2 "B" "b" "published" (Some "doc") None (Some 0) 1 [] 0]
                     [] 10000))
  = Ok (Some (mkPostWithToc
                (mkPost 2 "B" "b" "published" (Some "highlighted doc") None
                        (Some 0) 1 [] 0)
                "toc of doc")).
Proof. vm_compute. reflexivity. Qed.

(** X9.  Once a published post has been deleted and its cleanup has run, in
    whatever order the five tasks complete, [findPostBySlug] for its slug
    answers [null]: the cached detail is gone, the key deleted being the one
    [findPostBySlug] reads, and the table no longer has the row.  This holds
    when no other row carries that slug. *)
Theorem deleted_post_has_no_detail `{Collaborators} `{ContentTools}
    (w : World) (postId : Z) (post : Post) (order : list Task -> list Task) :
  (forall ts, Permutation (order ts) ts) ->
  PostRepo.findPostById postId w = (Ok (Some post), w) ->
  status post = "published" ->
  (forall p, In p (db w) -> slug p = slug post -> id p = postId) ->
  fst (findPostBySlug (slug post) (snd (settled (deletePost postId) order w)))
  = Ok None.
Proof.
  intros Horder Hfind Hpub Huniq. injection Hfind as Hfind.
  destruct (deletePost_settled w postId post order Horder Hfind)
    as (Hdb & Hclock & _ & Hkv & Hver).
  rewrite Hpub in Hkv, Hver. cbn [String.eqb Ascii.eqb Bool.eqb] in Hkv, Hver.
  set (w1 := snd (settled (deletePost postId) order w)) in *.
  rewrite findPostBySlug_answer.
  assert (Hv : default 1%N (versions w1 !! "posts:detail")
               = default 1%N (versions w !! "posts:detail")).
  { rewrite Hver, lookup_insert_ne by discriminate.
    destruct (versions w !! "posts:detail") as [v|] eqn:Ev; [rewrite Ev; reflexivity|].
    rewrite lookup_insert_eq. reflexivity. }
  rewrite Hv, Hkv.
  assert (Hgone :
    delete (POSTS_CACHE_KEYS.syncHash postId)
      (delete (POSTS_CACHE_KEYS.detail
                 (default 1%N (versions w !! "posts:detail")) (slug post)) (kv w))
    !! POSTS_CACHE_KEYS.detail (default 1%N (versions w !! "posts:detail")) (slug post)
    = None).
  { apply lookup_delete_None. right. apply lookup_delete_eq. }
  rewrite Hgone. cbn [mbind option_bind]. rewrite Hdb.
  rewrite find_none_filtered; [reflexivity|].
  intros p Hin Hp. apply andb_prop in Hp as [Hs _]. apply String.eqb_eq in Hs.
  rewrite (Huniq p Hin Hs), Z.eqb_refl. reflexivity.
Qed.

(** X10.  Once a published post has been deleted and its cleanup has run, the
    public listing no longer shows it: the bump of ["posts:list"] makes
    [getPostsCursor] read the table, provided nothing was stored ahead of
    time under keys of the next version. *)
Theorem deleted_post_leaves_listing `{Collaborators}
    (w : World) (postId : Z) (post : Post) (order : list Task -> list Task)
    (data : GetPostsCursorInput) :
  (forall ts, Permutation (order ts) ts) ->
  PostRepo.findPostById postId w = (Ok (Some post), w) ->
  status post = "published" ->
  (forall limit cursor tagName,
     kv w !! POSTS_CACHE_KEYS.list (default 1%N (versions w !! "posts:list") + 1)
               limit cursor tagName = None) ->
  exists r : PostListResponse,
    fst (getPostsCursor data (snd (settled (deletePost postId) order w))) = Ok r /\
    forall p, In p (items r) -> In p (db w) /\ id p <> postId.
Proof.
  intros Horder Hfind Hpub Hnone. injection Hfind as Hfind.
  destruct (deletePost_settled w postId post order Horder Hfind)
    as (Hdb & Hclock & _ & Hkv & Hver).
  rewrite Hpub in Hkv, Hver. cbn [String.eqb Ascii.eqb Bool.eqb] in Hkv, Hver.
  set (w1 := snd (settled (deletePost postId) order w)) in *.
  rewrite getPostsCursor_answer.
  rewrite Hver, lookup_insert_eq. cbn [default]. rewrite Hkv.
  assert (Hmiss : forall limit cursor tagName,
    delete (POSTS_CACHE_KEYS.syncHash postId)
      (delete (POSTS_CACHE_KEYS.detail
                 (default 1%N (versions w !! "posts:detail")) (slug post)) (kv w))
    !! POSTS_CACHE_KEYS.list (default 1%N (versions w !! "posts:list") + 1)
         limit cursor tagName = None).
  { intros. apply lookup_delete_None. right. apply lookup_delete_None. right.
    apply Hnone. }
  rewrite Hmiss. cbn [mbind option_bind].
  eexists. split; [reflexivity|].
  intros p Hin. apply paginate_items, filter_In in Hin as [Hin _].
  rewrite Hdb in Hin. apply filter_In in Hin as [Hin Hne].
  split; [exact Hin|]. apply negb_true_iff, Z.eqb_neq in Hne. exact Hne.
Qed.

(** X11.  Once a post, published or not, has been deleted and its cleanup has
    run, nothing of it is left for the admin view: [findPostById] answers
    [null] and the cache holds no sync hash for its id. *)
Theorem deleted_post_leaves_no_trace `{Collaborators}
    (w : World) (postId : Z) (post : Post) (order : list Task -> list Task) :
  (forall ts, Permutation (order ts) ts) ->
  PostRepo.findPostById postId w = (Ok (Some post), w) ->
  let w1 := snd (settled (deletePost postId) order w) in
  findPostById postId w1 = (Ok None, w1) /\
  CacheService.getRaw (POSTS_CACHE_KEYS.syncHash postId) w1 = (Ok None, w1).
Proof.
  intros Horder Hfind w1. injection Hfind as Hfind.
  destruct (deletePost_settled w postId post order Horder Hfind)
    as (Hdb & _ & _ & Hkv & _). fold w1 in Hdb, Hkv.
  split.
  - unfold findPostById, bind, PostRepo.findPostById. rewrite Hdb.
    rewrite find_none_filtered; [reflexivity|].
    intros p _ Hp. rewrite Hp. reflexivity.
  - unfold CacheService.getRaw. rewrite Hkv.
    destruct (String.eqb (status post) "published"); rewrite lookup_delete_eq;
      reflexivity.
Qed.

(** X12.  Deleting a post that is not published, cleanup included, changes
    nothing of what the public reads answer: [getPostsCursor] and
    [findPostBySlug] answer after the deletion what they answered before.
    This holds when no other row has the id. *)
Theorem deleting_draft_keeps_public_reads `{Collaborators} `{ContentTools}
    (w : World) (postId : Z) (post : Post) (order : list Task -> list Task) :
  (forall ts, Permutation (order ts) ts) ->
  PostRepo.findPostById postId w = (Ok (Some post), w) ->
  status post <> "published" ->
  (forall p, In p (db w) -> id p = postId -> p = post) ->
  let w1 := snd (settled (deletePost postId) order w) in
  (forall data, fst (getPostsCursor data w1) = fst (getPostsCursor data w)) /\
  (forall s, fst (findPostBySlug s w1) = fst (findPostBySlug s w)).
Proof.
  intros Horder Hfind Hnp Huniq w1. injection Hfind as Hfind.
  destruct (deletePost_settled w postId post order Horder Hfind)
    as (Hdb & Hclock & _ & Hkv & Hver). fold w1 in Hdb, Hclock, Hkv, Hver.
  destruct (String.eqb_spec (status post) "published") as [E|_]; [contradiction|].
  assert (Hkeep : forall p, In p (db w) ->
            eval_where (publicClause (clock w)) p = true ->
            negb (id p =? postId) = true).
  { intros p Hin Hp. apply negb_true_iff, Z.eqb_neq. intros Hid.
    rewrite (Huniq p Hin Hid) in Hp.
    apply public_where_iff in Hp as [Hst _]. contradiction. }
  split.
  - intros data. rewrite !getPostsCursor_answer, Hver, Hkv, Hclock, Hdb.
    rewrite lookup_delete_ne by apply syncHash_key_not_list.
    rewrite (filter_filter_within _ _ _ Hkeep). reflexivity.
  - intros s. rewrite !findPostBySlug_answer, Hver, Hkv, Hclock, Hdb.
    rewrite lookup_delete_ne by apply syncHash_key_not_detail.
    rewrite find_filter_within; [reflexivity|].
    intros p Hin Hp. apply andb_prop in Hp as [_ Hp]. exact (Hkeep p Hin Hp).
Qed.

(** ** Summaries *)

Section Summaries.
Context `{Collaborators} `{ContentTools}.

Lemma generateSummary_run (w : World) (postId : Z) :
  generateSummaryByPostId postId w
  = match List.find (fun p => id p =? postId) (db w) with
    | None => (Throw "Post not found", w)
    | Some post =>
        if hasSummary post then (Ok (Some post), w)
        else if stringLength (convertToPlainText (contentJson post)) <? 100
        then (Ok (Some post), w)
        else
          match summarizeText (convertToPlainText (contentJson post)) with
          | Throw msg => (Throw msg, w)
          | Ok s => PostRepo.updatePost (id post) (summaryPatch s) w
          end
    end.
Proof.
  unfold generateSummaryByPostId, bind, PostRepo.findPostById.
  destruct (List.find _ (db w)) as [post|]; [|reflexivity].
  destruct (hasSummary post); [reflexivity|].
  destruct (stringLength _ <? 100); [reflexivity|].
  destruct (summarizeText _) as [s|msg]; [|reflexivity].
  destruct (PostRepo.updatePost (id post) (summaryPatch s) w) as [[r|msg] w'];
    reflexivity.
Qed.

Lemma updatePost_run (w : World) (postId : Z) (patch : PostPatch) (post : Post) :
  List.find (fun p => id p =? postId) (db w) = Some post ->
  PostRepo.updatePost postId patch w
  = (Ok (Some (PostRepo.apply_patch patch post)),
     mkWorld (List.map (fun p => if id p =? postId
                                 then PostRepo.apply_patch patch p else p) (db w))
             (kv w) (versions w) (scheduled w) (clock w)
             (trace w ++ [RepoUpdate postId patch])).
Proof.
  intros Hfind. unfold PostRepo.updatePost.
  rewrite (find_map_update postId (PostRepo.apply_patch patch) (db w) post)
    by (reflexivity || exact Hfind).
  reflexivity.
Qed.

End Summaries.

(** X13.  [generateSummaryByPostId] throws ["Post not found"] for an id
    without a post, and writes nothing.  For a post that already has a
    summary that is not blank, or whose plain text is shorter than 100, it
    answers the post as it is and leaves the world untouched: an existing
    summary is never overwritten. *)
Theorem generateSummary_guards `{Collaborators} `{ContentTools}
    (w : World) (postId : Z) :
  (PostRepo.findPostById postId w = (Ok None, w) ->
   generateSummaryByPostId postId w = (Throw "Post not found", w)) /\
  (forall post, PostRepo.findPostById postId w = (Ok (Some post), w) ->
     (exists s, summary post = Some s /\ s <> "" /\ 0 < stringLength (trim s)) \/
     stringLength (convertToPlainText (contentJson post)) < 100 ->
     generateSummaryByPostId postId w = (Ok (Some post), w)).
Proof.
  split.
  - intros [= Hfind]. rewrite generateSummary_run, Hfind. reflexivity.
  - intros post [= Hfind] Hguard. rewrite generateSummary_run, Hfind.
    destruct Hguard as [(s & Hs & Hne & Hlen)|Hshort].
    + unfold hasSummary. rewrite Hs.
      apply truthy_true in Hne. rewrite Hne.
      apply Z.ltb_lt in Hlen. rewrite Hlen. reflexivity.
    + destruct (hasSummary post); [reflexivity|].
      apply Z.ltb_lt in Hshort. rewrite Hshort. reflexivity.
Qed.

(** X14.  For a post without summary whose plain text has length 100 or
    more, [generateSummaryByPostId] asks for a summary of that text.  If the
    request is rejected, the error is passed on and nothing is written.
    Otherwise exactly one repository update is issued, carrying the summary
    and no other field: the row keeps its title, slug, status, content and
    dates, the rows of other ids are untouched, and the updated row is the
    answer. *)
Theorem generateSummary_writes_summary_only `{Collaborators} `{ContentTools}
    (w : World) (postId : Z) (post : Post) :
  PostRepo.findPostById postId w = (Ok (Some post), w) ->
  hasSummary post = false ->
  100 <= stringLength (convertToPlainText (contentJson post)) ->
  match summarizeText (convertToPlainText (contentJson post)) with
  | Throw msg => generateSummaryByPostId postId w = (Throw msg, w)
  | Ok s =>
      exists (post' : Post) (w' : World),
        generateSummaryByPostId postId w = (Ok (Some post'), w') /\
        post' = mkPost (id post) (title post) (slug post) (status post)
                       (contentJson post) (Some s) (publishedAt post)
                       (readTimeInMinutes post) (tags post) (updatedAt post) /\
        List.find (fun p => id p =? postId) (db w') = Some post' /\
        (forall p, In p (db w) -> id p <> postId -> In p (db w')) /\
        length (db w') = length (db w) /\
        kv w' = kv w /\ versions w' = versions w /\
        newEvents w w' = [RepoUpdate postId (summaryPatch s)]
  end.
Proof.
  intros [= Hfind] Hnosum Hlong.
  pose proof (find_some _ _ Hfind) as [_ Hid]. apply Z.eqb_eq in Hid.
  rewrite generateSummary_run, Hfind, Hnosum.
  apply Z.ltb_ge in Hlong. rewrite Hlong.
  destruct (summarizeText _) as [s|msg]; [|reflexivity].
  subst postId.
  rewrite (updatePost_run w (id post) (summaryPatch s) post Hfind).
  eexists. eexists. split; [reflexivity|].
  split; [reflexivity|].
  cbn [db kv versions].
  split; [apply find_map_update; [reflexivity | exact Hfind]|].
  split.
  - intros p Hin Hne. apply in_map_iff. exists p. split; [|exact Hin].
    apply Z.eqb_neq in Hne. rewrite Hne. reflexivity.
  - split; [apply length_map|]. split; [reflexivity|]. split; [reflexivity|].
    apply newEvents_app. reflexivity.
Qed.

(** X15.  Generating the summary twice is the same as generating it once: if
    the first call stored a summary that is not blank, a second call answers
    the stored row and changes nothing, without asking for a summary again. *)
Theorem generateSummary_idempotent `{Collaborators} `{ContentTools}
    (w : World) (postId : Z) (post : Post) (s : string) :
  PostRepo.findPostById postId w = (Ok (Some post), w) ->
  hasSummary post = false ->
  100 <= stringLength (convertToPlainText (contentJson post)) ->
  summarizeText (convertToPlainText (contentJson post)) = Ok s ->
  s <> "" -> 0 < stringLength (trim s) ->
  exists (post' : Post) (w' : World),
    generateSummaryByPostId postId w = (Ok (Some post'), w') /\
    generateSummaryByPostId postId w' = (Ok (Some post'), w').
Proof.
  intros [= Hfind] Hnosum Hlong Hsum Hne Hlen.
  pose proof (find_some _ _ Hfind) as [_ Hid]. apply Z.eqb_eq in Hid.
  rewrite generateSummary_run, Hfind, Hnosum.
  apply Z.ltb_ge in Hlong. rewrite Hlong, Hsum.
  subst postId.
  rewrite (updatePost_run w (id post) (summaryPatch s) post Hfind).
  eexists. eexists. split; [reflexivity|].
  rewrite generateSummary_run. cbn [db].
  rewrite (find_map_update (id post) _ (db w) post) by (reflexivity || exact Hfind).
  unfold hasSummary. cbn [summary PostRepo.apply_patch summaryPatch patch_summary
    default from_option].
  apply truthy_true in Hne. apply Z.ltb_lt in Hlen.
  change (Datatypes.id (Some s)) with (Some s). cbv beta iota.
  rewrite Hne, Hlen. reflexivity.
Qed.

(** ** The admin reads *)

Lemma find_unique_slug (rows : list Post) (p : Post) :
  NoDup (List.map slug rows) -> In p rows ->
  List.find (fun q => String.eqb (slug q) (slug p)) rows = Some p.
Proof.
  induction rows as [|q rows IH]; intros Hnd Hin; [destruct Hin|].
  simpl in Hnd. apply NoDup_cons in Hnd as [Hq Hnd]. simpl.
  destruct (String.eqb_spec (slug q) (slug p)) as [E|E].
  - destruct Hin as [->|Hin]; [reflexivity|]. exfalso. apply Hq.
    apply list_elem_of_In, in_map_iff. exists p. split; [symmetry; exact E | exact Hin].
  - destruct Hin as [->|Hin]; [contradiction|]. exact (IH Hnd Hin).
Qed.

Lemma find_ext_bool {A} (f g : A -> bool) (l : list A) :
  (forall x, f x = g x) -> List.find f l = List.find g l.
Proof.
  intros Hfg. induction l as [|x l IH]; [reflexivity|].
  simpl. rewrite Hfg, IH. reflexivity.
Qed.

(** X16.  [findPostBySlugAdmin] looks at every row, whatever its status and
    date: it answers [null] exactly when no row has the slug, and otherwise a
    row of the table with that slug, unchanged, with the table of contents of
    its content.  When slugs are pairwise distinct, looking up the slug of any
    row answers that row.  It reads only. *)
Theorem findPostBySlugAdmin_sees_all `{Collaborators} `{ContentTools}
    (s : string) (w : World) :
  exists r : option PostWithToc,
    findPostBySlugAdmin s w = (Ok r, w) /\
    (r = None <-> forall p, In p (db w) -> slug p <> s) /\
    (forall d, r = Some d ->
       In (pt_post d) (db w) /\ slug (pt_post d) = s /\
       pt_toc d = generateTableOfContents (contentJson (pt_post d))) /\
    (forall p, NoDup (List.map slug (db w)) -> In p (db w) -> slug p = s ->
       r = Some (mkPostWithToc p (generateTableOfContents (contentJson p)))).
Proof.
  assert (Hrun : findPostBySlugAdmin s w
    = (Ok (option_map (fun p => mkPostWithToc p (generateTableOfContents (contentJson p)))
             (List.find (fun p => String.eqb (slug p) s) (db w))), w)).
  { unfold findPostBySlugAdmin, bind, PostRepo.findPostBySlug.
    assert (Hext : List.find
              (fun p => String.eqb (slug p) s
                        && eval_where (buildPostWhereClause (clock w)
                                         (publicOnlyOptions false)) p) (db w)
            = List.find (fun p => String.eqb (slug p) s) (db w)).
    { apply find_ext_bool. intros p. apply andb_true_r. }
    rewrite Hext. clear Hext.
    destruct (List.find (fun p => String.eqb (slug p) s) (db w)); reflexivity. }
  eexists. split; [exact Hrun|].
  destruct (List.find (fun p => String.eqb (slug p) s) (db w)) as [q|] eqn:Efind;
    cbn [option_map].
  - pose proof (find_some _ _ Efind) as [Hin Hs].
    apply String.eqb_eq in Hs. split; [|split].
    + split; [discriminate|]. intros Hno. exfalso. exact (Hno q Hin Hs).
    + intros d [= <-]. auto.
    + intros p Hnd Hp Hps. rewrite <- Hps in Efind.
      rewrite (find_unique_slug _ _ Hnd Hp) in Efind. injection Efind as <-.
      reflexivity.
  - split; [|split].
    + split; [|reflexivity]. intros _ p Hin Hs.
      pose proof (find_none _ _ Efind p Hin) as Hn. cbn beta in Hn.
      rewrite Hs, String.eqb_refl in Hn. discriminate.
    + intros d [=].
    + intros p _ Hin Hs.
      pose proof (find_none _ _ Efind p Hin) as Hn. cbn beta in Hn.
      rewrite Hs, String.eqb_refl in Hn. discriminate.
Qed.

(** X17.  In every answer of [findPostById], [hasPublicCache] says whether a
    sync hash is stored for the post.  A draft is in sync exactly when it has
    no public cache, and a post of any other status can only be in sync if it
    has one. *)
Theorem findPostById_flags `{Collaborators}
    (w : World) (postId : Z) (r : PostWithSync) :
  fst (findPostById postId w) = Ok (Some r) ->
  (hasPublicCache r = true
   <-> kv w !! POSTS_CACHE_KEYS.syncHash (id (post_of r)) <> None) /\
  (status (post_of r) = "draft" -> isSynced r = negb (hasPublicCache r)) /\
  (status (post_of r) <> "draft" -> isSynced r = true -> hasPublicCache r = true).
Proof.
  unfold findPostById, bind, PostRepo.findPostById, CacheService.getRaw, ret.
  destruct (List.find _ (db w)) as [post|]; [|discriminate].
  cbn [fst]. intros [= <-]. cbn [post_of isSynced hasPublicCache].
  split; [apply bool_decide_eq_true|]. split.
  - intros ->. reflexivity.
  - intros Hnd. destruct (String.eqb_spec (status post) "draft") as [E|_];
      [contradiction|].
    rewrite !bool_decide_eq_true. intros <-. discriminate.
Qed.

(** X18.  [updatePost] never writes to the cache, so the post it reads back
    is judged against the sync hash that was stored before: [hasPublicCache]
    is what it was, a post turned into a draft while a hash is stored comes
    back as not synced, and a post of another status comes back as synced
    only if the stored hash is the hash of the patched row. *)
Theorem updatePost_sync_state `{Collaborators}
    (w : World) (data : UpdatePostInput) (post : Post) :
  PostRepo.findPostById (up_id data) w = (Ok (Some post), w) ->
  let post' := PostRepo.apply_patch (up_data data) post in
  let stored := kv w !! POSTS_CACHE_KEYS.syncHash (up_id data) in
  exists (r : PostWithSync) (w' : World),
    updatePost data w = (Ok (Some r), w') /\
    kv w' = kv w /\ versions w' = versions w /\
    post_of r = post' /\
    (hasPublicCache r = true <-> stored <> None) /\
    (status post' = "draft" -> (isSynced r = true <-> stored = None)) /\
    (status post' <> "draft" ->
     (isSynced r = true <-> stored = Some (calculatePostHash (hashInputOf post')))).
Proof.
  intros [= Hfind] post' stored.
  pose proof (find_some _ _ Hfind) as [_ Hid]. apply Z.eqb_eq in Hid.
  assert (Hrows : List.find (fun q => id q =? up_id data)
            (List.map (fun p => if id p =? up_id data
                                then PostRepo.apply_patch (up_data data) p else p)
                      (db w)) = Some post').
  { apply find_map_update; [reflexivity | exact Hfind]. }
  unfold updatePost, bind, PostRepo.updatePost. rewrite Hrows.
  unfold findPostById, bind, PostRepo.findPostById, CacheService.getRaw, ret.
  assert (Hflags :
    (bool_decide (stored <> None) = true <-> stored <> None) /\
    (status post' = "draft" ->
     ((if String.eqb (status post') "draft"
       then negb (bool_decide (stored <> None))
       else bool_decide (Some (calculatePostHash (hashInputOf post')) = stored))
      = true <-> stored = None)) /\
    (status post' <> "draft" ->
     ((if String.eqb (status post') "draft"
       then negb (bool_decide (stored <> None))
       else bool_decide (Some (calculatePostHash (hashInputOf post')) = stored))
      = true <-> stored = Some (calculatePostHash (hashInputOf post'))))).
  { split; [apply bool_decide_eq_true|]. split.
    - intros ->. rewrite String.eqb_refl, negb_true_iff, bool_decide_eq_false.
      destruct stored as [h|].
      + split; [intros Hn; exfalso; apply Hn; discriminate | discriminate].
      + split; [reflexivity | intros _ Hn; apply Hn; reflexivity].
    - intros Hnd. destruct (String.eqb_spec (status post') "draft") as [E|_];
        [contradiction|].
      rewrite bool_decide_eq_true. split; intros E; symmetry; exact E. }
  subst post' stored. cbn [id PostRepo.apply_patch].
  destruct (patch_contentJson (up_data data)) as [c|];
    unfold waitUntil, modify, emit, set_db;
    cbn [db kv versions scheduled clock trace];
    rewrite ?Hid, ?Hrows;
    (eexists; eexists; split; [reflexivity|]);
    cbn [kv versions post_of hasPublicCache isSynced id PostRepo.apply_patch];
    rewrite ?Hid;
    (split; [reflexivity|]); (split; [reflexivity|]); (split; [reflexivity|]);
    exact Hflags.
Qed.

(** ** More on the post-process workflow *)

Section WorkflowMore.
Context `{Collaborators}.

Lemma run_db (data : StartPostProcessInput) (e : option Z) (now : Z) (u : World) :
  db (rescheduled data e now
        (cancelled (scheduledIdOf (spp_id data)) (launched data e now u)))
  = db u.
Proof.
  unfold rescheduled, cancelled, launched.
  destruct e as [t|]; [destruct (now <? t)|];
    cbn [scheduled emit]; destruct (scheduled u !! _) as [[| |]|]; reflexivity.
Qed.

Lemma run_clock (data : StartPostProcessInput) (e : option Z) (now : Z) (u : World) :
  clock (rescheduled data e now
           (cancelled (scheduledIdOf (spp_id data)) (launched data e now u)))
  = clock u.
Proof.
  unfold rescheduled, cancelled, launched.
  destruct e as [t|]; [destruct (now <? t)|];
    cbn [scheduled emit]; destruct (scheduled u !! _) as [[| |]|]; reflexivity.
Qed.

Lemma startPostProcessWorkflow_db (w : World) (data : StartPostProcessInput) :
  db (snd (startPostProcessWorkflow data w)) = db (stamped data w) /\
  clock (snd (startPostProcessWorkflow data w)) = clock w.
Proof.
  rewrite startPostProcessWorkflow_run. cbn [snd]. rewrite run_db, run_clock.
  split; [reflexivity|].
  unfold stamped. destruct (String.eqb (spp_status data) "published"); [|reflexivity].
  destruct (List.find _ (db w)) as [post|]; [|reflexivity].
  destruct (publishedAt post); reflexivity.
Qed.

(** In the table a publish request leaves behind, the post has a date. *)
Lemma stamped_has_date (w : World) (data : StartPostProcessInput) (p : Post) :
  spp_status data = "published" ->
  List.find (fun q => id q =? spp_id data) (db (stamped data w)) = Some p ->
  publishedAt p <> None.
Proof.
  intros Hpub. unfold stamped. rewrite Hpub. cbn [String.eqb Ascii.eqb Bool.eqb].
  destruct (List.find (fun q => id q =? spp_id data) (db w)) as [post|] eqn:Efind.
  - pose proof (find_some _ _ Efind) as [_ Hid]. apply Z.eqb_eq in Hid.
    destruct (publishedAt post) as [d|] eqn:Ed.
    + rewrite Efind. intros [= <-]. congruence.
    + cbn [db emit set_db]. rewrite Hid.
      rewrite (find_map_update (spp_id data)
                 (PostRepo.apply_patch (stampPatch (getCurrentMinuteEnd (clock w))))
                 (db w) post (fun q => eq_refl) Efind).
      intros [= <-]. discriminate.
  - rewrite Efind. discriminate.
Qed.

Lemma stamped_noop (u : World) (data : StartPostProcessInput) :
  (forall p, List.find (fun q => id q =? spp_id data) (db u) = Some p ->
             publishedAt p <> None) ->
  stamped data u = u.
Proof.
  intros Hdate. unfold stamped.
  destruct (String.eqb (spp_status data) "published"); [|reflexivity].
  destruct (List.find _ (db u)) as [p|]; [|reflexivity].
  specialize (Hdate p eq_refl). destruct (publishedAt p); [reflexivity|contradiction].
Qed.


Lemma minute_end_mono (now later : Z) :
  now <= later -> getCurrentMinuteEnd now <= getCurrentMinuteEnd later.
Proof.
  intros Hle. unfold getCurrentMinuteEnd.
  pose proof (Z.div_le_mono now later 60000 ltac:(lia) Hle). lia.
Qed.

End WorkflowMore.

(** X19.  [publishedAt] is stamped at most once.  In the table that a call
    with status ["published"] leaves behind, any later call for the same
    post, with whatever status, at whatever time and whatever else has
    changed, leaves the table as it finds it. *)
Theorem publishedAt_stamped_once `{Collaborators}
    (w u : World) (data data' : StartPostProcessInput) :
  spp_status data = "published" ->
  spp_id data' = spp_id data ->
  db u = db (snd (startPostProcessWorkflow data w)) ->
  db (snd (startPostProcessWorkflow data' u)) = db u.
Proof.
  intros Hpub Hid Hdb.
  destruct (startPostProcessWorkflow_db u data') as [-> _].
  rewrite stamped_noop; [reflexivity|].
  intros p Hfind. rewrite Hid, Hdb in Hfind.
  destruct (startPostProcessWorkflow_db w data) as [Hdb1 _]. rewrite Hdb1 in Hfind.
  exact (stamped_has_date w data p Hpub Hfind).
Qed.


(** X21.  A published post without date, passed to
    [startPostProcessWorkflow], is stamped with the end of the minute the
    clock stands in, and with that date it passes the public filter at that
    time and at every later time: once stamped, the post does not drop out of
    the public reads as time goes on. *)
Theorem stamped_post_stays_public `{Collaborators}
    (w : World) (data : StartPostProcessInput) (post : Post) (later : Z) :
  spp_status data = "published" ->
  PostRepo.findPostById (spp_id data) w = (Ok (Some post), w) ->
  publishedAt post = None ->
  status post = "published" ->
  clock w <= later ->
  let w' := snd (startPostProcessWorkflow data w) in
  exists p', List.find (fun q => id q =? spp_id data) (db w') = Some p' /\
             publishedAt p' = Some (getCurrentMinuteEnd (clock w)) /\
             eval_where (buildPostWhereClause later (publicOnlyOptions true)) p'
             = true.
Proof.
  intros Hpub [= Hfind] Hnone Hst Hlater w'.
  pose proof (find_some _ _ Hfind) as [_ Hid]. apply Z.eqb_eq in Hid.
  destruct (startPostProcessWorkflow_db w data) as [Hdb _].
  fold w' in Hdb.
  exists (PostRepo.apply_patch (stampPatch (getCurrentMinuteEnd (clock w))) post).
  split; [|split; [reflexivity|]].
  - rewrite Hdb. unfold stamped. rewrite Hpub, Hfind, Hnone, Hid.
    cbn [String.eqb Ascii.eqb Bool.eqb db emit set_db].
    apply find_map_update; [reflexivity | exact Hfind].
  - apply public_where_iff. split; [exact Hst|].
    exists (getCurrentMinuteEnd (clock w)).
    split; [reflexivity | apply minute_end_mono, Hlater].
Qed.

(** ** The statements above on concrete worlds *)

Module Cases.

Definition gone : Post := Demo.post 4 "gone" "published" (Some 0).
Definition note : Post := Demo.post 5 "note" "draft" None.
Definition live : Post := Demo.post 6 "live" "published" (Some 0).

Definition shop : World :=
  Demo.world [gone; note; live]
    [("posts:detail:1:gone", "cached detail"); ("posts:sync-hash:4", "h4");
     ("posts:sync-hash:5", "h5"); ("posts:list:1:10:0:all", "cached list")] 10000.

Definition backwards (ts : list Task) : list Task := rev ts.

Lemma backwards_perm (ts : list Task) : Permutation (backwards ts) ts.
Proof. symmetry. apply Permutation_rev. Qed.

Definition essay : string :=
  "0123456789012345678901234567890123456789012345678901234567890123456789012345678901234567890123456789 and more".

Definition longPost : Post :=
  mkPost 8 "Long" "long" "draft" (Some essay) None None 1 [] 0.

Definition desk : World := Demo.world [longPost; note] [] 10000.

End Cases.

Lemma deleted_post_has_no_detail_witness :
  fst (findPostBySlug (H := Demo.collaborators) (H0 := DemoTools.tools) "gone"
         (snd (settled (deletePost 4) Cases.backwards Cases.shop)))
  = Ok None.
Proof.
  apply (deleted_post_has_no_detail (H := Demo.collaborators) (H0 := DemoTools.tools)
           Cases.shop 4 Cases.gone Cases.backwards).
  - exact Cases.backwards_perm.
  - reflexivity.
  - reflexivity.
  - intros p [<-|[<-|[<-|[]]]]; vm_compute; congruence.
Defined.

Lemma deleted_post_leaves_listing_witness :
  exists r : PostListResponse,
    fst (getPostsCursor (H := Demo.collaborators) (mkGetPostsCursorInput None None None)
           (snd (settled (deletePost 4) Cases.backwards Cases.shop))) = Ok r /\
    forall p, In p (items r) -> In p (db Cases.shop) /\ id p <> 4.
Proof.
  apply (deleted_post_leaves_listing (H := Demo.collaborators)
           Cases.shop 4 Cases.gone Cases.backwards).
  - exact Cases.backwards_perm.
  - reflexivity.
  - reflexivity.
  - intros limit cursor tagName.
    destruct (kv Cases.shop !! POSTS_CACHE_KEYS.list
                (default 1%N (versions Cases.shop !! "posts:list") + 1)
                limit cursor tagName) as [e|] eqn:E; [|reflexivity].
    exfalso.
    assert (Hdom : forall k e', kv Cases.shop !! k = Some e' ->
              k = "posts:detail:1:gone" \/ k = "posts:sync-hash:4" \/
              k = "posts:sync-hash:5" \/ k = "posts:list:1:10:0:all").
    { intros k e'. unfold Cases.shop, Demo.world. cbn [kv list_to_map foldr fst snd uncurry].
      rewrite !lookup_insert. repeat case_decide; subst; auto.
      rewrite lookup_empty. discriminate. }
    apply Hdom in E. unfold POSTS_CACHE_KEYS.list in E.
    destruct E as [E|[E|[E|E]]];
      apply (f_equal (Js.strip_prefix "posts:list:")) in E;
      rewrite strip_prefix_app in E; discriminate.
Defined.

Lemma deleted_post_leaves_no_trace_witness :
  let w1 := snd (settled (deletePost 5) Cases.backwards Cases.shop) in
  findPostById (H := Demo.collaborators) 5 w1 = (Ok None, w1) /\
  CacheService.getRaw (POSTS_CACHE_KEYS.syncHash 5) w1 = (Ok None, w1).
Proof.
  apply (deleted_post_leaves_no_trace (H := Demo.collaborators)
           Cases.shop 5 Cases.note Cases.backwards).
  - exact Cases.backwards_perm.
  - reflexivity.
Defined.

Lemma deleting_draft_keeps_public_reads_witness :
  let w1 := snd (settled (deletePost 5) Cases.backwards Cases.shop) in
  (forall data, fst (getPostsCursor (H := Demo.collaborators) data w1)
                = fst (getPostsCursor (H := Demo.collaborators) data Cases.shop)) /\
  (forall s, fst (findPostBySlug (H := Demo.collaborators) (H0 := DemoTools.tools) s w1)
             = fst (findPostBySlug (H := Demo.collaborators) (H0 := DemoTools.tools)
                      s Cases.shop)).
Proof.
  apply (deleting_draft_keeps_public_reads (H := Demo.collaborators)
           (H0 := DemoTools.tools) Cases.shop 5 Cases.note Cases.backwards).
  - exact Cases.backwards_perm.
  - reflexivity.
  - discriminate.
  - intros p [<-|[<-|[<-|[]]]]; vm_compute; congruence.
Defined.

Lemma generateSummary_writes_summary_only_witness :
  exists (post' : Post) (w' : World),
    generateSummaryByPostId (H := Demo.collaborators) (H0 := DemoTools.tools)
      8 Cases.desk = (Ok (Some post'), w') /\
    post' = mkPost 8 "Long" "long" "draft" (Some Cases.essay)
                   (Some "About: 01234567") None 1 [] 0 /\
    List.find (fun p => id p =? 8) (db w') = Some post' /\
    (forall p, In p (db Cases.desk) -> id p <> 8 -> In p (db w')) /\
    length (db w') = length (db Cases.desk) /\
    kv w' = kv Cases.desk /\ versions w' = versions Cases.desk /\
    newEvents Cases.desk w' = [RepoUpdate 8 (summaryPatch "About: 01234567")].
Proof.
  apply (generateSummary_writes_summary_only (H := Demo.collaborators)
           (H0 := DemoTools.tools) Cases.desk 8 Cases.longPost).
  - reflexivity.
  - reflexivity.
  - vm_compute. discriminate.
Defined.

Lemma generateSummary_idempotent_witness :
  exists (post' : Post) (w' : World),
    generateSummaryByPostId (H := Demo.collaborators) (H0 := DemoTools.tools)
      8 Cases.desk = (Ok (Some post'), w') /\
    generateSummaryByPostId (H := Demo.collaborators) (H0 := DemoTools.tools)
      8 w' = (Ok (Some post'), w').
Proof.
  apply (generateSummary_idempotent (H := Demo.collaborators)
           (H0 := DemoTools.tools) Cases.desk 8 Cases.longPost "About: 01234567").
  - reflexivity.
  - reflexivity.
  - vm_compute. discriminate.
  - reflexivity.
  - discriminate.
  - reflexivity.
Defined.

Example generateSummary_short_text_untouched :
  generateSummaryByPostId (H := Demo.collaborators) (H0 := DemoTools.tools)
    5 Cases.desk = (Ok (Some Cases.note), Cases.desk).
Proof. vm_compute. reflexivity. Qed.

Lemma findPostById_flags_witness :
  let r := mkPostWithSync Cases.note false true in
  (hasPublicCache r = true
   <-> kv Cases.shop !! POSTS_CACHE_KEYS.syncHash (id (post_of r)) <> None) /\
  (status (post_of r) = "draft" -> isSynced r = negb (hasPublicCache r)) /\
  (status (post_of r) <> "draft" -> isSynced r = true -> hasPublicCache r = true).
Proof.
  intros r.
  apply (findPostById_flags (H := Demo.collaborators) Cases.shop 5 r).
  vm_compute. reflexivity.
Defined.

Lemma updatePost_sync_state_witness :
  let data :=
    mkUpdatePostInput 4 (mkPatch None None (Some "draft") None None None None) in
  let post' := PostRepo.apply_patch (up_data data) Cases.gone in
  let stored := kv Cases.shop !! POSTS_CACHE_KEYS.syncHash 4 in
  exists (r : PostWithSync) (w' : World),
    updatePost (H := Demo.collaborators) data Cases.shop = (Ok (Some r), w') /\
    kv w' = kv Cases.shop /\ versions w' = versions Cases.shop /\
    post_of r = post' /\
    (hasPublicCache r = true <-> stored <> None) /\
    (status post' = "draft" -> (isSynced r = true <-> stored = None)) /\
    (status post' <> "draft" ->
     (isSynced r = true <-> stored = Some (Demo.hash (hashInputOf post')))).
Proof.
  intros data post' stored.
  apply (updatePost_sync_state (H := Demo.collaborators) Cases.shop data Cases.gone).
  reflexivity.
Defined.

Example unpublished_post_reports_desync :
  let data :=
    mkUpdatePostInput 4 (mkPatch None None (Some "draft") None None None None) in
  fst (updatePost (H := Demo.collaborators) data Cases.shop)
  = Ok (Some (mkPostWithSync (Demo.post 4 "gone" "draft" (Some 0)) false true)).
Proof. vm_compute. reflexivity. Qed.

Lemma publishedAt_stamped_once_witness :
  let data := mkStartPostProcessInput 5 "published" None in
  let w1 := snd (startPostProcessWorkflow (H := Demo.collaborators) data Cases.shop) in
  db (snd (startPostProcessWorkflow (H := Demo.collaborators) data w1)) = db w1.
Proof.
  intros data w1.
  apply (publishedAt_stamped_once (H := Demo.collaborators) Cases.shop w1 data data);
    reflexivity.
Defined.

Lemma stamped_post_stays_public_witness :
  let fresh := Demo.post 9 "fresh" "published" None in
  let w := Demo.world [fresh] [] 10000 in
  let data := mkStartPostProcessInput 9 "published" None in
  let w' := snd (startPostProcessWorkflow (H := Demo.collaborators) data w) in
  exists p', List.find (fun q => id q =? 9) (db w') = Some p' /\
             publishedAt p' = Some (getCurrentMinuteEnd (clock w)) /\
             eval_where (H := Demo.collaborators)
               (buildPostWhereClause (H := Demo.collaborators) 86400000
                  (publicOnlyOptions true)) p' = true.
Proof.
  intros fresh w data w'.
  apply (stamped_post_stays_public (H := Demo.collaborators) w data fresh 86400000);
    [reflexivity | reflexivity | reflexivity | reflexivity | vm_compute; discriminate].
Defined.

(** * The date picker

    The string handling of the [DatePicker] component: [handleDayClick]
    writes the picked day as [YYYY-MM-DD], [isSelected] reads it back, and
    [renderCalendar] lays out the grid.  A [Date] object is represented by
    the local-time fields its getters report. *)

Module JsStr.

(** [s.split(sep)] for a separator of one character: never empty. *)
Fixpoint split (sep : ascii) (s : string) : list string :=
  match s with
  | EmptyString => [EmptyString]
  | String c s' =>
      if Ascii.eqb c sep then EmptyString :: split sep s'
      else match split sep s' with
           | h :: t => String c h :: t
           | [] => [String c EmptyString]
           end
  end.

(** [s.padStart(2, "0")] *)
Definition padStart2 (s : string) : string :=
  match s with
  | EmptyString => "00"
  | String c EmptyString => String "0" (String c EmptyString)
  | _ => s
  end.

Fixpoint has (c : ascii) (s : string) : bool :=
  match s with
  | EmptyString => false
  | String a s' => Ascii.eqb a c || has c s'
  end.

End JsStr.

Inductive PickerMode := DateMode | DateTimeMode.

(** What the component reads from a [Date]: [getFullYear()], [getMonth()]
    (0 to 11) and [getDate()]. *)
Record DateFields := mkDateFields {
  fullYear : Z;
  monthIndex : Z;
  dayOfMonth : Z
}.

(** The language's numbers and dates, as far as the picker uses them.
    [toNumber] is [Number(s)]: [Some z] when the value is the integer [z],
    [None] when it is [NaN], a fraction or infinite; on a string of digits
    it is the decimal value, exact up to [MAX_SAFE_INTEGER].  [localTime] is
    the hours and minutes of [new Date(raw)], or [None] for an invalid date.
    [lastDayOfMonth y m] is [new Date(y, m + 1, 0).getDate()] and
    [weekdayOfFirst y m] is [new Date(y, m, 1).getDay()]. *)
Class DateLib := {
  toNumber : string -> option Z;
  toNumber_digits : forall s n,
      Js.parseDigits s = Some n -> (n <= Js.MAX_SAFE_INTEGER)%N ->
      toNumber s = Some (Z.of_N n);
  localTime : string -> option (Z * Z);
  lastDayOfMonth : Z -> Z -> Z;
  lastDayOfMonth_range : forall y m, 28 <= lastDayOfMonth y m <= 31;
  weekdayOfFirst : Z -> Z -> Z;
  weekdayOfFirst_range : forall y m, 0 <= weekdayOfFirst y m <= 6
}.


Section DatePicker.
Context `{DateLib}.
Variable value : string.
Variable mode : PickerMode.
Variable viewDate : DateFields.

(** [String(n).padStart(2, "0")] *)
Definition pad2 (n : Z) : string := JsStr.padStart2 (Js.numberToString n).

(** [getSelectedTime]; [now] is the hours and minutes of [new Date()]. *)
Definition getSelectedTime (now : Z * Z) : string :=
  match mode with
  | DateMode => "12:00"
  | DateTimeMode =>
      let parsed := if Js.truthy value then localTime value else None in
      match parsed with
      | None => pad2 (fst now) ++ ":" ++ pad2 (snd now)
      | Some (h, m) => pad2 h ++ ":" ++ pad2 m
      end
  end.

(** [handleDayClick]: the string handed to [onChange], and whether the
    popup is closed. *)
Definition handleDayClick (now : Z * Z) (day : Z) : string * bool :=
  let year := fullYear viewDate in
  let month := pad2 (monthIndex viewDate + 1) in
  let dayStr := pad2 day in
  let dateString := Js.numberToString year ++ "-" ++ month ++ "-" ++ dayStr in
  match mode with
  | DateTimeMode => (dateString ++ "T" ++ getSelectedTime now, false)
  | DateMode => (dateString, true)
  end.

(** [a === n] for [a] an element of [parts.map(Number)], absent when the
    array is too short, and [n] an integer. *)
Definition numberIs (a : option Z) (n : Z) : bool :=
  match a with
  | Some z => z =? n
  | None => false
  end.

Definition isSelected (day : Z) : bool :=
  if negb (Js.truthy value) then false
  else
    let currentYear := fullYear viewDate in
    let currentMonth := monthIndex viewDate in
    let datePart :=
      match mode with
      | DateTimeMode => hd "" (JsStr.split "T" value)
      | DateMode => value
      end in
    let parts := List.map toNumber (JsStr.split "-" datePart) in
    let vYear := nth_error parts 0 ≫= (fun x => x) in
    let vMonth := nth_error parts 1 ≫= (fun x => x) in
    let vDay := nth_error parts 2 ≫= (fun x => x) in
    numberIs vYear currentYear
    && numberIs (option_map (fun m => m - 1) vMonth) currentMonth
    && numberIs vDay day.





End DatePicker.

Section PickerFacts.
Context `{DateLib}.

Lemma split_no_sep (sep : ascii) (a : string) :
  JsStr.has sep a = false -> JsStr.split sep a = [a].
Proof.
  induction a as [|c a IH]; [reflexivity|]. simpl.
  intros Hno. apply orb_false_elim in Hno as [Hc Ha].
  rewrite Hc, (IH Ha). reflexivity.
Qed.

Lemma split_at_sep (sep : ascii) (a r : string) :
  JsStr.has sep a = false ->
  JsStr.split sep (a ++ String sep r) = a :: JsStr.split sep r.
Proof.
  induction a as [|c a IH]; intros Hno.
  - rewrite append_nil. simpl. rewrite Ascii.eqb_refl. reflexivity.
  - simpl in Hno. apply orb_false_elim in Hno as [Hc Ha].
    rewrite append_cons. simpl. rewrite Hc, (IH Ha). reflexivity.
Qed.

Lemma digits_have_no (c : ascii) (s : string) :
  Js.is_digit c = false -> Js.all_digits s = true -> JsStr.has c s = false.
Proof.
  intros Hc. induction s as [|a s IH]; [reflexivity|]. simpl.
  intros Hd. apply andb_prop in Hd as [Ha Hs]. rewrite (IH Hs), orb_false_r.
  destruct (Ascii.eqb_spec a c) as [->|_]; [congruence | reflexivity].
Qed.

Lemma has_app (c : ascii) (a b : string) :
  JsStr.has c (a ++ b) = JsStr.has c a || JsStr.has c b.
Proof.
  induction a as [|x a IH]; [reflexivity|].
  rewrite append_cons. simpl. rewrite IH, orb_assoc. reflexivity.
Qed.

Lemma numberToString_nonneg (z : Z) :
  0 <= z -> Js.numberToString z = Js.natToString (Z.to_N z).
Proof. destruct z as [|p|p]; [reflexivity | reflexivity | lia]. Qed.

Lemma of_uint_leading_zero (d : Decimal.uint) :
  N.of_uint (Decimal.D0 d) = N.of_uint d.
Proof. reflexivity. Qed.

(** A number from 0 on, written with [padStart(2, "0")], is a string of
    digits that reads back as the number. *)
Lemma pad2_digits (z : Z) :
  0 <= z ->
  Js.all_digits (pad2 z) = true /\ Js.parseDigits (pad2 z) = Some (Z.to_N z).
Proof.
  intros Hz. unfold pad2. rewrite (numberToString_nonneg z Hz).
  pose proof (natToString_digits (Z.to_N z)) as Hd.
  pose proof (parseDigits_natToString (Z.to_N z)) as Hp.
  destruct (Js.natToString (Z.to_N z)) as [|c [|c' s]] eqn:E.
  - discriminate.
  - cbn [JsStr.padStart2]. split.
    + simpl in Hd |- *. exact Hd.
    + unfold Js.parseDigits in Hp |- *. cbn [NilEmpty.uint_of_string] in Hp |- *.
      destruct (uint_of_char c (Some Decimal.Nil)) as [d|]; [|discriminate].
      cbn [uint_of_char option_map] in *. exact Hp.
  - cbn [JsStr.padStart2]. split; assumption.
Qed.

Lemma plain_digits (z : Z) :
  0 <= z ->
  Js.all_digits (Js.numberToString z) = true /\
  Js.parseDigits (Js.numberToString z) = Some (Z.to_N z) /\
  Js.numberToString z <> "".
Proof.
  intros Hz. rewrite (numberToString_nonneg z Hz).
  split; [apply natToString_digits|]. split; [apply parseDigits_natToString|].
  intros E. pose proof (parseDigits_natToString (Z.to_N z)) as Hp.
  rewrite E in Hp. discriminate.
Qed.

Lemma toNumber_of (s : string) (z : Z) :
  0 <= z <= 9007199254740991 ->
  Js.parseDigits s = Some (Z.to_N z) -> toNumber s = Some z.
Proof.
  intros Hz Hp. rewrite (toNumber_digits s (Z.to_N z) Hp).
  - f_equal. lia.
  - unfold Js.MAX_SAFE_INTEGER. lia.
Qed.

End PickerFacts.

Lemma picked_day_selected_iff `{DateLib}
    (value : string) (mode : PickerMode) (viewDate : DateFields)
    (now : Z * Z) (day other : Z) :
  0 <= fullYear viewDate <= 275760 ->
  0 <= monthIndex viewDate <= 11 ->
  1 <= day <= 31 ->
  let picked := fst (handleDayClick value mode viewDate now day) in
  isSelected picked mode viewDate other = true <-> other = day.
Proof.
  intros Hy Hm Hd picked.
  destruct (plain_digits (fullYear viewDate) ltac:(lia)) as (HYd & HYp & HYne).
  destruct (pad2_digits (monthIndex viewDate + 1) ltac:(lia)) as (HMd & HMp).
  destruct (pad2_digits day ltac:(lia)) as (HDd & HDp).
  set (Y := Js.numberToString (fullYear viewDate)) in *.
  set (M := pad2 (monthIndex viewDate + 1)) in *.
  set (D := pad2 day) in *.
  assert (Hsplit : JsStr.split "-" (Y ++ "-" ++ M ++ "-" ++ D) = [Y; M; D]).
  { change (Y ++ "-" ++ M ++ "-" ++ D) with (Y ++ String "-" (M ++ String "-" D)).
    rewrite split_at_sep by (apply digits_have_no; [reflexivity | exact HYd]).
    rewrite split_at_sep by (apply digits_have_no; [reflexivity | exact HMd]).
    rewrite split_no_sep by (apply digits_have_no; [reflexivity | exact HDd]).
    reflexivity. }
  assert (HnoT : JsStr.has "T" (Y ++ "-" ++ M ++ "-" ++ D) = false).
  { rewrite !has_app.
    rewrite (digits_have_no "T" Y), (digits_have_no "T" M), (digits_have_no "T" D)
      by (reflexivity || assumption).
    reflexivity. }
  assert (Htruthy : forall rest, Js.truthy (Y ++ rest) = true).
  { intros rest. destruct Y; [contradiction | reflexivity]. }
  assert (Hparts :
    List.map toNumber [Y; M; D]
    = [Some (fullYear viewDate); Some (monthIndex viewDate + 1); Some day]).
  { cbn [List.map].
    rewrite (toNumber_of Y (fullYear viewDate)) by (lia || exact HYp).
    rewrite (toNumber_of M (monthIndex viewDate + 1)) by (lia || exact HMp).
    rewrite (toNumber_of D day) by (lia || exact HDp).
    reflexivity. }
  assert (Hdate : forall v,
    Js.truthy v = true ->
    match mode with
    | DateTimeMode => hd "" (JsStr.split "T" v)
    | DateMode => v
    end = Y ++ "-" ++ M ++ "-" ++ D ->
    (isSelected v mode viewDate other = true <-> other = day)).
  { intros v Hv Hpart. unfold isSelected. rewrite Hv. cbn [negb].
    rewrite Hpart, Hsplit, Hparts. cbn [nth_error mbind option_bind option_map numberIs].
    rewrite Z.eqb_refl.
    replace (monthIndex viewDate + 1 - 1 =? monthIndex viewDate) with true
      by (symmetry; apply Z.eqb_eq; lia).
    cbn [andb]. rewrite Z.eqb_eq. split; congruence. }
  subst picked. unfold handleDayClick. fold Y M D.
  destruct mode; cbn [fst].
  - apply Hdate; [apply Htruthy | reflexivity].
  - apply Hdate.
    + rewrite append_assoc. apply Htruthy.
    + change ((Y ++ "-" ++ M ++ "-" ++ D) ++ "T" ++ getSelectedTime value DateTimeMode now)
        with ((Y ++ "-" ++ M ++ "-" ++ D)
              ++ String "T" (getSelectedTime value DateTimeMode now)).
      rewrite split_at_sep by exact HnoT. reflexivity.
Qed.

(** X22.  A day picked in the calendar is the day shown as selected: with the
    string that [handleDayClick] hands to [onChange] as the new value, in
    date mode as in datetime mode and whatever the time of day,
    [isSelected] is true for the picked day and for no other.  The year,
    month and day are those a [Date] and the grid can give. *)
Theorem picked_day_is_selected `{DateLib}
    (value : string) (mode : PickerMode) (viewDate : DateFields)
    (now : Z * Z) (day other : Z) :
  0 <= fullYear viewDate <= 275760 ->
  0 <= monthIndex viewDate <= 11 ->
  1 <= day <= 31 ->
  let picked := fst (handleDayClick value mode viewDate now day) in
  isSelected picked mode viewDate other = true <-> other = day.
Proof. exact (picked_day_selected_iff value mode viewDate now day other). Qed.






(** A concrete calendar, to run the picker on examples. *)
Module DemoDates.

Definition number (s : string) : option Z :=
  match Js.parseDigits s with
  | Some n => Some (Z.of_N n)
  | None => match s with EmptyString => Some 0 | _ => None end
  end.

Definition leap (y : Z) : bool :=
  ((y mod 4 =? 0) && negb (y mod 100 =? 0)) || (y mod 400 =? 0).

Definition lastDay (y m : Z) : Z :=
  if m =? 1 then (if leap y then 29 else 28)
  else if (m =? 3) || (m =? 5) || (m =? 8) || (m =? 10) then 30
  else 31.

(** Days since 1970-01-01 of the first of month [m] (0 to 11) of year [y]. *)
Definition daysToFirst (y m : Z) : Z :=
  let y' := if m <? 2 then y - 1 else y in
  let era := y' / 400 in
  let yoe := y' - era * 400 in
  let doy := (153 * (if m <? 2 then m + 10 else m - 2) + 2) / 5 in
  let doe := yoe * 365 + yoe / 4 - yoe / 100 + doy in
  era * 146097 + doe - 719468.

Definition weekday (y m : Z) : Z := (daysToFirst y m + 4) mod 7.

Definition dates : DateLib.
Proof.
  refine {|
    toNumber := number;
    toNumber_digits := _;
    localTime := fun _ => None;
    lastDayOfMonth := lastDay;
    lastDayOfMonth_range := _;
    weekdayOfFirst := weekday;
    weekdayOfFirst_range := _
  |}.
  - intros s n Hs _. unfold number. rewrite Hs. reflexivity.
  - intros y m. unfold lastDay.
    destruct (m =? 1); [destruct (leap y); lia|].
    destruct ((m =? 3) || (m =? 5) || (m =? 8) || (m =? 10)); lia.
  - intros y m. unfold weekday.
    pose proof (Z.mod_pos_bound (daysToFirst y m + 4) 7 ltac:(lia)). lia.
Defined.

Definition january2024 : DateFields := mkDateFields 2024 0 1.

End DemoDates.

Lemma picked_day_is_selected_witness :
  let picked :=
    fst (handleDayClick (H := DemoDates.dates) "" DateTimeMode
           DemoDates.january2024 (9, 5) 7) in
  isSelected (H := DemoDates.dates) picked DateTimeMode DemoDates.january2024 7 = true
  <-> 7 = 7.
Proof.
  apply (picked_day_is_selected (H := DemoDates.dates) "" DateTimeMode
           DemoDates.january2024 (9, 5) 7 7);
    vm_compute; split; discriminate.
Defined.


Example handleDayClick_formats :
  handleDayClick (H := DemoDates.dates) "" DateMode DemoDates.january2024 (9, 5) 7
  = ("2024-01-07", true) /\
  handleDayClick (H := DemoDates.dates) "" DateTimeMode DemoDates.january2024 (9, 5) 7
  = ("2024-01-07T09:05", false).
Proof. vm_compute. split; reflexivity. Qed.

(** ** More on related posts *)

Lemma filter_defined_length {A} (xs : list (option A)) :
  (length (Js.filter_defined xs) <= length xs)%nat.
Proof.
  induction xs as [|[x|] xs IH]; simpl; lia.
Qed.

Lemma NoDup_map_inv_list {A B} (f : A -> B) (l : list A) :
  List.NoDup (List.map f l) -> List.NoDup l.
Proof.
  induction l as [|x l IH]; intros Hnd; [constructor|].
  simpl in Hnd. inversion Hnd as [|? ? Hx Hl]; subst.
  constructor; [|exact (IH Hl)].
  intros Hin. apply Hx, in_map, Hin.
Qed.

(** X24.  [getRelatedPosts] never answers more posts than there are cached
    ids, every post it answers is one the bulk lookup returned for an id of
    the cache, and when the cached ids are pairwise distinct no post comes
    twice.  An empty list of ids gives an empty answer at once. *)
Theorem getRelatedPosts_bounds `{Collaborators}
    (w w1 : World) (data : FindRelatedPostsInput) (cachedIds : list Z) :
  CacheService.get
    (POSTS_CACHE_KEYS.related (frp_slug data) (frp_limit data)) idsSchema
    (fun w0 => (Ok (getRelatedPostIds (db w0) (frp_slug data) (frp_limit data)), w0))
    "7d" w = (Ok cachedIds, w1) ->
  exists result : list Post,
    getRelatedPosts data w = (Ok result, w1) /\
    (length result <= length cachedIds)%nat /\
    (forall p, In p result ->
       In (id p) cachedIds /\
       In p (getPublicPostsByIds (db w1) (clock w1) cachedIds)) /\
    (List.NoDup cachedIds -> List.NoDup result) /\
    (cachedIds = [] -> result = []).
Proof.
  intros Hget.
  unfold getRelatedPosts, bind. rewrite Hget.
  set (posts := getPublicPostsByIds (db w1) (clock w1) cachedIds).
  destruct (cached_order_restored posts cachedIds) as [Hids Hposts].
  set (result := Js.filter_defined
         (List.map (fun i => List.find (fun p => id p =? i) posts) cachedIds)) in *.
  assert (Hrun :
    (if (length cachedIds =? 0)%nat then ret []
     else await fetched <- (fun w0 => (Ok (getPublicPostsByIds (db w0) (clock w0) cachedIds), w0));
          ret (Js.filter_defined
                 (List.map (fun i => List.find (fun p => id p =? i) fetched) cachedIds)))
      w1 = (Ok result, w1)).
  { destruct cachedIds; reflexivity. }
  exists result. split; [exact Hrun|].
  split; [|split; [|split]].
  - unfold result. etransitivity; [apply filter_defined_length|].
    rewrite length_map. reflexivity.
  - intros p Hin. split.
    + assert (Hid : In (id p) (List.map id result)) by (apply in_map, Hin).
      rewrite Hids in Hid. apply filter_In in Hid as [Hid _]. exact Hid.
    + rewrite Forall_forall in Hposts. apply list_elem_of_In in Hin.
      apply (Hposts p Hin).
  - intros Hnd. apply (NoDup_map_inv_list id). rewrite Hids.
    apply List.NoDup_filter, Hnd.
  - intros ->. reflexivity.
Qed.

Lemma getRelatedPosts_bounds_witness :
  let two := Demo.post 2 "two" "published" (Some 0) in
  let five := Demo.post 5 "five" "published" (Some 0) in
  let w := Demo.world [two; five] [("posts:related:a:3", "5,2,9")] 0 in
  exists result : list Post,
    getRelatedPosts (H := Demo.collaborators) (mkFindRelatedPostsInput "a" 3) w
      = (Ok result, w) /\
    (length result <= 3)%nat /\
    (forall p, In p result ->
       In (id p) [5; 2; 9] /\
       In p (Demo.publicPostsByIds (db w) (clock w) [5; 2; 9])) /\
    (List.NoDup [5; 2; 9] -> List.NoDup result) /\
    ([5; 2; 9] = [] -> result = []).
Proof.
  intros two five w.
  apply (getRelatedPosts_bounds (H := Demo.collaborators)
           w w (mkFindRelatedPostsInput "a" 3) [5; 2; 9]).
  vm_compute. reflexivity.
Defined.
